(** * Cross-site price comparison: a model of compare-davidjones-and-iconic.py

    The development follows the source file top-down: Python values and
    exceptions, the numeric extractor [get_num], the listing scraper
    [scrape_iconic], the product detail extractor [get_product_info], the
    offer evaluator [apply_offer_discount], the similarity functions
    [_tokens] and [_jaccard], and the matcher [compare_search].

    Conventions of the embedding.
    - A Python [float] is a binary64 primitive float; arithmetic and
      comparisons are the IEEE operations of [PrimFloat].  Prices are floats
      throughout ([get_num] and the price patterns end in [float(...)]); a
      number a caller writes as an int (the threshold of the command line,
      the 700 of an example) is the float of the same value.
    - A Python [str] is a [string], whose characters are the code points 0 to
      255; [\d], [\s], [\w], [str.strip] and [str.lower] are Python's on these
      code points.  Text with a character beyond 255 is outside the model:
      there Python knows further digits and blanks, and a statement that
      says what every text without a digit gives, or every text with a
      character that no number holds, is stated for ASCII text.
    - [None] is the [None] of [option]; a raised exception is [Raise e].
    - What [http_request] returns is a parsed document, given by what the
      selectors of the source find in it, or another object (a JSON value,
      the text itself, [None]) on which a selector raises; the network is a
      function of the request, given by a [web] record.
    - The helpers of [urllib] and [time.sleep] are section variables;
      [urljoin] and [time.sleep] may raise.
    - A pandas table is the list of its rows.

    After the functions above come [http_request] itself, that is its loop
    of attempts, the charset sniffer [_sniff_charset] and the choice of the
    encoding of a response, then [main].  In the loop the network is a
    function of what the loop has done so far, and [time.sleep] is one of
    the actions the loop records. *)

From Stdlib Require Import ZArith Floats String Ascii List Bool Sorted Lia.
From stdpp Require Import base gmap sets strings pretty.
Import ListNotations.

Local Open Scope Z_scope.
#[local] Set Warnings "-inexact-float,-clear-no-such-hyp".

(** ** Exceptions *)

Inductive pyexn : Type :=
| TypeError
| AttributeError
| ValueError
| KeyError
| UnboundLocalError
| OverflowError
| RuntimeError.

Inductive exc (A : Type) : Type :=
| Ret (a : A)
| Raise (e : pyexn).
Arguments Ret {A} a.
Arguments Raise {A} e.

#[global] Instance exc_ret : MRet exc := fun _ a => Ret a.

#[global] Instance exc_bind : MBind exc := fun _ _ k c =>
  match c with
  | Ret a => k a
  | Raise e => Raise e
  end.

(** [try: body except Exception: handler].  Every constructor of [pyexn] is a
    subclass of [Exception], so the handler takes them all. *)
Definition try_except {A : Type} (body : exc A) (handler : pyexn -> exc A) : exc A :=
  match body with
  | Ret a => Ret a
  | Raise e => handler e
  end.

(** ** Floats *)

Module Py.

(** Truth value of a float: false exactly for [0.0] and [-0.0]. *)
Definition truthy_float (x : float) : bool := negb (x =? 0)%float.

(** Truth value of an object that is [None] or a float. *)
Definition truthy (o : option float) : bool :=
  match o with
  | None => false
  | Some x => truthy_float x
  end.

(** [a or b] on objects that are [None] or a float. *)
Definition or_else (a b : option float) : option float :=
  if truthy a then a else b.

(** [Some x] when the object is true, for [if p: ... p ...]. *)
Definition if_true (o : option float) : option float :=
  match o with
  | Some x => if truthy_float x then Some x else None
  | None => None
  end.

(** [x >= y] and [x > y]. *)
Definition ge (x y : float) : bool := (y <=? x)%float.
Definition gt (x y : float) : bool := (y <? x)%float.

(** [min(l)] and [max(l)] on a list: the first element is kept unless a later
    one is strictly smaller (larger); [None] stands for the empty list, on
    which the call sites do not evaluate [min]/[max]. *)
Definition min_list (l : list float) : option float :=
  match l with
  | [] => None
  | x :: r => Some (fold_left (fun acc y => if (y <? acc)%float then y else acc) r x)
  end.

Definition max_list (l : list float) : option float :=
  match l with
  | [] => None
  | x :: r => Some (fold_left (fun acc y => if (acc <? y)%float then y else acc) r x)
  end.

(** The float nearest to the rational [n / d], ties to even: what
    [float("...")] yields for a decimal literal and what [int / int] yields.
    The quotient is taken with enough extra bits and a sticky bit, then
    rounded once by [binary_normalize]. *)
Definition float_of_ratio (n : Z) (d : positive) : float :=
  let a := Z.abs n in
  let k := Z.max 0 (Z.log2 (Zpos d) + 64 - Z.log2 a) in
  let num := Z.shiftl a k in
  let q := num / Zpos d in
  let sticky := if (num mod Zpos d =? 0) then 0 else 1 in
  let m := 2 * q + sticky in
  SF2Prim (binary_normalize prec emax (if n <? 0 then - m else m) (- k - 1) false).

(** [float(z)] for an int: [OverflowError] when out of range. *)
Definition float_of_int (z : Z) : exc float :=
  let x := float_of_ratio z 1 in
  if is_infinity x then Raise OverflowError else Ret x.

(** The integer nearest to [n / d], ties to even. *)
Definition round_half_even (n : Z) (d : positive) : Z :=
  let q := n / Zpos d in
  let r := n mod Zpos d in
  match 2 * r ?= Zpos d with
  | Lt => q
  | Gt => q + 1
  | Eq => if Z.even q then q else q + 1
  end.

(** [round(x, 2)]: the exact binary value of [x] is rounded to the nearest
    multiple of 1/100, ties to even, and that decimal is converted back; a
    zero result keeps the sign of [x], and nan and the infinities are
    returned unchanged. *)
Definition round2 (x : float) : float :=
  match Prim2SF x with
  | S754_finite s m e =>
      let h :=
        match e with
        | Zneg p => round_half_even (Zpos m * 100) (2 ^ p)%positive
        | _ => Zpos m * 100 * 2 ^ e
        end in
      if h =? 0 then (if s then PrimFloat.neg_zero else PrimFloat.zero)
      else float_of_ratio (if s then - h else h) 100
  | _ => x
  end.

End Py.

(** ** Strings *)

Module Str.

Definition code (c : ascii) : nat := nat_of_ascii c.

(** [\d] in a [str] pattern and the digits that [int] and [float] read:
    among the code points 0 to 255 these are the ten ASCII digits. *)
Definition is_digit (c : ascii) : bool :=
  (48 <=? code c)%nat && (code c <=? 57)%nat.

Definition is_lower (c : ascii) : bool :=
  (97 <=? code c)%nat && (code c <=? 122)%nat.

Definition is_upper (c : ascii) : bool :=
  (65 <=? code c)%nat && (code c <=? 90)%nat.

(** Every character is below 128. *)
Definition is_ascii (s : string) : bool :=
  forallb (fun c => (code c <? 128)%nat) (list_ascii_of_string s).

(** The letters and numeric characters from 128 to 255: the two ordinal
    indicators, the superscripts 1 to 3, the micro sign, the three fractions
    and the accented letters. *)
Definition is_latin1_alnum (c : ascii) : bool :=
  (code c =? 170)%nat || (code c =? 178)%nat || (code c =? 179)%nat
  || (code c =? 181)%nat || (code c =? 185)%nat || (code c =? 186)%nat
  || ((188 <=? code c)%nat && (code c <=? 190)%nat)
  || ((192 <=? code c)%nat && (code c <=? 214)%nat)
  || ((216 <=? code c)%nat && (code c <=? 246)%nat)
  || (248 <=? code c)%nat.

(** [\w] in a [str] pattern: letters, digits and the underscore. *)
Definition is_word (c : ascii) : bool :=
  is_digit c || is_lower c || is_upper c || (code c =? 95)%nat || is_latin1_alnum c.

(** [\s] in a [str] pattern and the characters [str.strip] removes: tab,
    newline, vertical tab, form feed, carriage return, the four separators
    28..31, the space, the next-line control 133 and the no-break space
    160. *)
Definition is_space (c : ascii) : bool :=
  ((9 <=? code c)%nat && (code c <=? 13)%nat)
  || ((28 <=? code c)%nat && (code c <=? 32)%nat)
  || (code c =? 133)%nat || (code c =? 160)%nat.

(** The lower-case form of an ASCII letter: [bytes.lower] and the case
    folding of the patterns, whose letters are all ASCII. *)
Definition lower_char (c : ascii) : ascii :=
  if is_upper c then ascii_of_nat (code c + 32) else c.

(** The upper-case accented letters, 192 to 222 without the multiplication
    sign 215. *)
Definition is_latin1_upper (c : ascii) : bool :=
  ((192 <=? code c)%nat && (code c <=? 214)%nat)
  || ((216 <=? code c)%nat && (code c <=? 222)%nat).

(** The lower-case form of a character of a [str]. *)
Definition lower_str_char (c : ascii) : ascii :=
  if is_upper c || is_latin1_upper c then ascii_of_nat (code c + 32) else c.

Definition chars (s : string) : list ascii := list_ascii_of_string s.
Definition of_chars (l : list ascii) : string := string_of_list_ascii l.

(** [s.lower()] on a [str]. *)
Definition lower (s : string) : string := of_chars (map lower_str_char (chars s)).

(** [b.lower()] on a byte string. *)
Definition lower_bytes (b : string) : string := of_chars (map lower_char (chars b)).

(** [s.startswith(p)] *)
Fixpoint startswith (p s : string) : bool :=
  match p, s with
  | EmptyString, _ => true
  | String a p', String b s' => Ascii.eqb a b && startswith p' s'
  | String _ _, EmptyString => false
  end.

(** [p in s] *)
Fixpoint contains (p s : string) : bool :=
  startswith p s ||
  match s with
  | EmptyString => false
  | String _ s' => contains p s'
  end.

(** [s.replace(c, '')] for a one-character [c]. *)
Definition remove_char (c : ascii) (s : string) : string :=
  of_chars (filter (fun x => negb (Ascii.eqb x c)) (chars s)).

Fixpoint lstrip_chars (l : list ascii) : list ascii :=
  match l with
  | c :: r => if is_space c then lstrip_chars r else l
  | [] => []
  end.

(** [s.strip()] *)
Definition strip (s : string) : string :=
  of_chars (rev (lstrip_chars (rev (lstrip_chars (chars s))))).

(** [bool(s)]: a string is true when it is not empty. *)
Definition truthy (s : string) : bool :=
  match s with
  | EmptyString => false
  | String _ _ => true
  end.

(** Value of a run of decimal digits, most significant first. *)
Definition digits_value (l : list ascii) : Z :=
  fold_left (fun acc c => 10 * acc + Z.of_nat (code c - 48)) l 0.

(** [int(s)] on a string of digits; [ValueError] on other text and on more
    than 4300 digits, the default limit of the interpreter. *)
Definition int_of_digits (s : string) : exc Z :=
  let l := chars s in
  if forallb is_digit l && negb (Nat.eqb (List.length l) 0)
     && (List.length l <=? 4300)%nat
  then Ret (digits_value l) else Raise ValueError.

Fixpoint span_digits (l : list ascii) : list ascii * list ascii :=
  match l with
  | c :: r =>
      if is_digit c then let '(d, t) := span_digits r in (c :: d, t) else ([], l)
  | [] => ([], [])
  end.

(** [float(s)] on a plain decimal literal: an optional sign, digits, an
    optional point and digits, with a digit somewhere; [ValueError]
    otherwise.  The call sites only pass text captured by patterns over
    digits, the point and the minus sign, so exponents, blanks and the
    literals inf and nan, which [float] also reads, do not arise. *)
Definition float_of_decimal (s : string) : exc float :=
  let l := chars s in
  let '(neg, l1) :=
    match l with
    | "-"%char :: r => (true, r)
    | "+"%char :: r => (false, r)
    | _ => (false, l)
    end in
  let '(ip, l2) := span_digits l1 in
  let '(fp, l3) :=
    match l2 with
    | "."%char :: r => span_digits r
    | _ => ([], l2)
    end in
  match l3, ip ++ fp with
  | _ :: _, _ => Raise ValueError
  | [], [] => Raise ValueError
  | [], ds =>
      let n := digits_value ds in
      if n =? 0 then Ret (if neg then PrimFloat.neg_zero else PrimFloat.zero)
      else Ret (Py.float_of_ratio (if neg then - n else n)
                  (Z.to_pos (10 ^ Z.of_nat (List.length fp))))
  end.

End Str.

(** ** Regular expressions

    The patterns of the source are written as terms of [Re.t] and run by a
    backtracking matcher with the priorities of Python's [re]: alternatives
    left to right, repetitions greedy. *)

Module Re.

Inductive t : Type :=
| Eps
| Chr (p : ascii -> bool)
| Seq (r1 r2 : t)
| Alt (r1 r2 : t)
| Rep (lo : nat) (hi : option nat) (r : t)
| Grp (i : nat) (r : t)
| WordB
| EndS.

Record state : Type := mkState {
  pos : nat;
  prev : option ascii;
  rest : list ascii;
  caps : list (nat * (nat * nat))
}.

Definition word_at (o : option ascii) : bool :=
  match o with
  | Some c => Str.is_word c
  | None => false
  end.

(** [run r s k]: match [r] at [s], then continue with [k]; [None] asks the
    caller to backtrack.  A repetition stops when an iteration consumes
    nothing, so the inner loop runs at most once per remaining character. *)
Fixpoint run (r : t) (s : state) (k : state -> option state) : option state :=
  match r with
  | Eps => k s
  | Chr p =>
      match rest s with
      | c :: tl =>
          if p c then k (mkState (S (pos s)) (Some c) tl (caps s)) else None
      | [] => None
      end
  | Seq r1 r2 => run r1 s (fun s' => run r2 s' k)
  | Alt r1 r2 =>
      match run r1 s k with
      | Some x => Some x
      | None => run r2 s k
      end
  | Rep lo hi r1 =>
      (fix loop (fuel lo : nat) (hi : option nat) (s : state) : option state :=
         let stop := match lo with O => k s | S _ => None end in
         match fuel, hi with
         | O, _ => stop
         | _, Some O => stop
         | S fuel', _ =>
             match run r1 s (fun s' =>
                     if (pos s' =? pos s)%nat then None
                     else loop fuel' (Nat.pred lo) (option_map Nat.pred hi) s') with
             | Some x => Some x
             | None => stop
             end
         end) (S (List.length (rest s))) lo hi s
  | Grp i r1 =>
      run r1 s (fun s' =>
        k (mkState (pos s') (prev s') (rest s') ((i, (pos s, pos s')) :: caps s')))
  | WordB =>
      if xorb (word_at (prev s)) (word_at (head (rest s))) then k s else None
  | EndS =>
      match rest s with
      | [] => k s
      | [c] => if Ascii.eqb c "010"%char then k s else None
      | _ => None
      end
  end.

(** A match object: the subject, the span of the whole match and the spans
    of the groups that took part. *)
Record match_obj : Type := mkMatch {
  subject : list ascii;
  span : nat * nat;
  groups : list (nat * (nat * nat))
}.

Fixpoint search_from (r : t) (whole : list ascii) (p : nat) (pv : option ascii)
    (l : list ascii) : option match_obj :=
  match run r (mkState p pv l []) Some with
  | Some s => Some (mkMatch whole (p, pos s) (caps s))
  | None =>
      match l with
      | [] => None
      | c :: tl => search_from r whole (S p) (Some c) tl
      end
  end.

(** [re.search(r, text)] *)
Definition search (r : t) (text : string) : option match_obj :=
  search_from r (Str.chars text) 0 None (Str.chars text).

Definition slice (l : list ascii) (sp : nat * nat) : string :=
  Str.of_chars (firstn (snd sp - fst sp) (skipn (fst sp) l)).

Fixpoint assoc (i : nat) (l : list (nat * (nat * nat))) : option (nat * nat) :=
  match l with
  | [] => None
  | (j, sp) :: tl => if (i =? j)%nat then Some sp else assoc i tl
  end.

(** [m.group(i)]; [None] for a group that did not take part. *)
Definition group (m : match_obj) (i : nat) : option string :=
  match i with
  | O => Some (slice (subject m) (span m))
  | _ => option_map (slice (subject m)) (assoc i (groups m))
  end.

Definition prev_at (whole : list ascii) (p : nat) : option ascii :=
  match p with
  | O => None
  | S q => nth_error whole q
  end.

(** [re.findall(r, text)] for a pattern without groups: the successive
    leftmost matches, each search resuming where the last match ended (one
    character further after an empty match, which the patterns used here
    never produce). *)
Fixpoint findall_from (fuel : nat) (r : t) (whole : list ascii) (p : nat) : list string :=
  match fuel with
  | O => []
  | S fuel' =>
      match search_from r whole p (prev_at whole p) (skipn p whole) with
      | None => []
      | Some m =>
          let e := snd (span m) in
          slice whole (span m)
            :: findall_from fuel' r whole (if (e =? fst (span m))%nat then S e else e)
      end
  end.

Definition findall (r : t) (text : string) : list string :=
  findall_from (S (String.length text)) r (Str.chars text) 0.

(** Pattern shorthands. *)
Definition lit (c : ascii) : t := Chr (Ascii.eqb c).
Definition ilit (c : ascii) : t :=
  Chr (fun x => Ascii.eqb (Str.lower_char x) (Str.lower_char c)).
Definition star (r : t) : t := Rep 0 None r.
Definition plus (r : t) : t := Rep 1 None r.
Definition opt (r : t) : t := Rep 0 (Some 1%nat) r.
Definition exactly (n : nat) (r : t) : t := Rep n (Some n) r.
Definition digit : t := Chr Str.is_digit.
Definition space : t := Chr Str.is_space.

Fixpoint seqs (l : list t) : t :=
  match l with
  | [] => Eps
  | [r] => r
  | r :: tl => Seq r (seqs tl)
  end.

(** A literal word, case-sensitive or not. *)
Definition word (s : string) : t := seqs (map lit (Str.chars s)).
Definition iword (s : string) : t := seqs (map ilit (Str.chars s)).

End Re.

(** ** Numeric extractor *)

(** [-?\d{1,3}(?:,\d{3})*(?:\.\d+)?|-?\d+(?:\.\d+)?] *)
Definition num_re : Re.t :=
  Re.Alt
    (Re.seqs [Re.opt (Re.lit "-");
              Re.Rep 1 (Some 3%nat) Re.digit;
              Re.star (Re.Seq (Re.lit ",") (Re.exactly 3 Re.digit));
              Re.opt (Re.Seq (Re.lit ".") (Re.plus Re.digit))])
    (Re.seqs [Re.opt (Re.lit "-");
              Re.plus Re.digit;
              Re.opt (Re.Seq (Re.lit ".") (Re.plus Re.digit))]).

(** The body of the [try] block of [get_num].  [re.search] raises
    [TypeError] on [None], [m.group] raises [AttributeError] when [m] is
    [None]. *)
Definition get_num_body (text : option string) : exc float :=
  m ← match text with
      | None => Raise TypeError
      | Some s => Ret (Re.search num_re s)
      end;
  num ← match m with
        | None => Raise AttributeError
        | Some mo => Ret (Str.remove_char "," (default EmptyString (Re.group mo 0)))
        end;
  Str.float_of_decimal num.

Definition get_num (text : option string) : exc (option float) :=
  try_except (x ← get_num_body text; Ret (Some x)) (fun _ => Ret None).


(** ** Documents and the network

    A parsed page is represented by what the CSS selectors of the source
    return on it.  An element that [select_one] does not find is [None]. *)

(** What [http_request] hands to its caller, the result of [auto_parse]: a
    [BeautifulSoup] document, given by what the selector of the caller finds
    in it, or an object without a [select] method: the value of a JSON body,
    the text of a body that does not mention html, or [None] after a parsing
    error. *)
Inductive parsed (A : Type) : Type :=
| Document (found : A)
| NotDocument.
Arguments Document {A} found.
Arguments NotDocument {A}.

(** A product anchor of a listing page ([a.product-details]). *)
Record anchor : Type := mkAnchor {
  a_price_final : option string;     (* text of span.price.final *)
  a_price_original : option string;  (* text of span.price.original *)
  a_brand : option string;           (* text of span.brand *)
  a_name : option string;            (* text of span.name *)
  a_href : string                    (* the href attribute, empty when absent *)
}.

(** An entry of the search results ([ul#products-grid > li]). *)
Record item : Type := mkItem {
  i_brand : option string;              (* text of p.ProductCard_brand__SYBe7 *)
  i_name : option string;               (* text of h2.ProductCard_name__p_7X2 *)
  i_yotpo : option (option string);     (* div.yotpo-widget-instance, then its
                                           data-yotpo-url attribute *)
  i_price_root : option (option string) (* div.Price_root__y8UOm, then the text
                                           of its accessibility span *)
}.

(** An element of the special-offers response. *)
Record offer : Type := mkOffer {
  o_id : option string;               (* offer.get("id") *)
  o_shortDescription : option string  (* offer.get("shortDescription"); None
                                         when absent or null, which is as
                                         false as the empty default *)
}.

(** [http_request] as seen by its three callers: what it returns, or the
    exception it raises once the retries are exhausted.  The listing and the
    search are read with a selector.  The offers are read inside a [try]
    block by a loop over the response that stops at the first offer for the
    product: [post_special_offers] gives the elements that loop reads, and
    raises when the request or the loop does. *)
Record web : Type := mkWeb {
  get_listing : string -> exc (parsed (list anchor));
  get_search : string -> exc (parsed (list item));
  post_special_offers : option string -> exc (list offer)
}.

(** A row of the table returned by [scrape_iconic]. *)
Record row : Type := mkRow {
  r_title : string;  (* column "title" *)
  r_price : float;   (* column "price" *)
  r_was : float;     (* column "was" *)
  r_diff : float;    (* column "diff" *)
  r_link : string    (* column "link" *)
}.

(** A row of the table returned by [compare_search]. *)
Record comparison_record : Type := mkComparison {
  title_dj : string;
  title_pm : string;
  price_diff : float;
  price_dj : float;
  price_pm : float;
  link_dj : string;
  link_pm : string
}.

(** [df.sort_values(key, ascending=False)]: insertion into a descending
    list.  The claims below use that the result is a descending rearrangement
    of the rows, not how ties are ordered. *)
Section Sort.
Context {A : Type} (key : A -> float).

Fixpoint insert_desc (x : A) (l : list A) : list A :=
  match l with
  | [] => [x]
  | y :: t => if Py.ge (key x) (key y) then x :: l else y :: insert_desc x t
  end.

Definition sort_values_desc (l : list A) : list A :=
  fold_right insert_desc [] l.
End Sort.

Definition text_or_empty (o : option string) : string := default EmptyString o.

Section Program.

(** [urllib.parse.urljoin], which raises [ValueError] on a reference whose
    host opens a bracket that it does not close, [urllib.parse.quote], and the
    [urlparse]/[urlencode]/[urlunparse] chain of [_turn_page] that sets the
    [page] query parameter. *)
Variable urljoin : string -> string -> exc string.
Variable quote : string -> string.
Variable set_page_param : string -> nat -> string.

Variable w : web.

Definition _turn_page (url : string) (page : nat) : string :=
  if (page <=? 1)%nat then url else set_page_param url page.

(** ** Listing scraper *)

(** The body of [for a in items]: the rows appended for one anchor. *)
Definition scrape_anchor (threshold : float) (a : anchor) : exc (list row) :=
  price_final ← get_num (a_price_final a);
  price_original ← get_num (a_price_original a);
  match price_final, price_original with
  | Some pf, Some po =>
      if Py.truthy_float pf && Py.truthy_float po then
        let price_diff := (po - pf)%float in
        if Py.ge price_diff threshold then
          let brand_text := Str.strip (text_or_empty (a_brand a)) in
          let name := Str.strip (text_or_empty (a_name a)) in
          let title := Str.strip (brand_text +:+ " " +:+ name) in
          let href := Str.strip (a_href a) in
          link ← (if Str.truthy href
                  then urljoin "https://www.theiconic.com.au" href
                  else Ret EmptyString);
          Ret [mkRow title pf po price_diff link]
        else Ret []
      else Ret []
  | _, _ => Ret []
  end.

Fixpoint scrape_anchors (threshold : float) (items : list anchor) : exc (list row) :=
  match items with
  | [] => Ret []
  | a :: rest =>
      r ← scrape_anchor threshold a;
      rs ← scrape_anchors threshold rest;
      Ret (r ++ rs)
  end.

(** The [while True] loop; [None] when [fuel] pages were all non-empty.
    [soup.select] raises [AttributeError] on an object that is not a
    document. *)
Fixpoint scrape_pages (fuel : nat) (start_url : string) (threshold : float)
    (page : nat) (rows : list row) : option (exc (list row)) :=
  match fuel with
  | O => None
  | S fuel' =>
      match get_listing w (_turn_page start_url page) with
      | Raise e => Some (Raise e)
      | Ret NotDocument => Some (Raise AttributeError)
      | Ret (Document []) => Some (Ret rows)
      | Ret (Document items) =>
          match scrape_anchors threshold items with
          | Raise e => Some (Raise e)
          | Ret new => scrape_pages fuel' start_url threshold (S page) (rows ++ new)
          end
      end
  end.

Definition scrape_iconic (fuel : nat) (brand : string) (threshold : float)
    : option (exc (list row)) :=
  let start_url := "https://www.theiconic.com.au/" +:+ brand in
  match scrape_pages fuel start_url threshold 1 [] with
  | None => None
  | Some (Raise e) => Some (Raise e)
  | Some (Ret rows) => Some (Ret (sort_values_desc r_diff rows))
  end.

(** ** Product detail extractor *)

(** [-(\d+)(?:\?|$)] *)
Definition id_re : Re.t :=
  Re.seqs [Re.lit "-"; Re.Grp 1 (Re.plus Re.digit); Re.Alt (Re.lit "?") Re.EndS].

(** The tail shared by the three price patterns: a dollar sign, then group 1
    made of [[0-9,]+], an optional point [\.?] and digits [\d*]. *)
Definition amount_re : Re.t :=
  Re.seqs [Re.lit "$";
           Re.Grp 1 (Re.seqs [Re.plus (Re.Chr (fun c => Str.is_digit c || Ascii.eqb c ","));
                              Re.opt (Re.lit ".");
                              Re.star Re.digit])].

(** [now\s+], [was\s+] and [Price\s+] followed by that tail, all with
    [re.IGNORECASE]. *)
Definition labelled_re (label : string) : Re.t :=
  Re.seqs [Re.iword label; Re.plus Re.space; amount_re].

(** [float(m.group(1).replace(',', ''))] under [if m:]. *)
Definition labelled_price (label text : string) : exc (option float) :=
  match Re.search (labelled_re label) text with
  | None => Ret None
  | Some m =>
      x ← Str.float_of_decimal
            (Str.remove_char "," (text_or_empty (Re.group m 1)));
      Ret (Some x)
  end.

(** The price block of [get_product_info]: the pair
    [(price_plain, price_now)] read from the accessibility text. *)
Definition parse_prices (accessibility_text : option string)
    : exc (option float * option float) :=
  match accessibility_text with
  | None => Ret (None, None)
  | Some text =>
      if Str.contains "it was" (Str.lower text) then
        price_now ← labelled_price "now" text;
        price_plain ← labelled_price "was" text;
        Ret (price_plain, price_now)
      else
        price_plain ← labelled_price "Price" text;
        Ret (price_plain, None)
  end.

(** [[p for p in (...) if p is not None]] *)
Definition present (l : list (option float)) : list float := omap id l.

Definition product : Type :=
  string * option float * option float * string * option string.

Definition get_product_info (it : item) : exc product :=
  let brand := text_or_empty (i_brand it) in
  let name := text_or_empty (i_name it) in
  let title := Str.strip (brand +:+ " " +:+ name) in
  link ← match i_yotpo it with
         | None => Raise TypeError
         | Some None => Raise KeyError
         | Some (Some u) => Ret u
         end;
  link ← urljoin "https://www.davidjones.com" link;
  product_id ← match Re.search id_re link with
               | None => Raise AttributeError
               | Some m => Ret (Re.group m 1)
               end;
  accessibility_text ← match i_price_root it with
                       | None => Raise AttributeError
                       | Some t => Ret t
                       end;
  '(price_plain, price_now) ← parse_prices accessibility_text;
  let candidates := present [price_plain; price_now] in
  let price := Py.min_list candidates in
  let was := Py.max_list candidates in
  Ret (title, price, was, link, product_id).

(** ** Offer-discount evaluator *)

(** [\bBUY\s+(\d+)\s+FOR\s*\$?\s*([0-9]+(?:\.[0-9]{1,2})?)\b] *)
Definition buy_re : Re.t :=
  Re.seqs [Re.WordB; Re.word "BUY"; Re.plus Re.space;
           Re.Grp 1 (Re.plus Re.digit);
           Re.plus Re.space; Re.word "FOR"; Re.star Re.space;
           Re.opt (Re.lit "$"); Re.star Re.space;
           Re.Grp 2 (Re.Seq (Re.plus Re.digit)
                       (Re.opt (Re.Seq (Re.lit ".") (Re.Rep 1 (Some 2%nat) Re.digit))));
           Re.WordB].

(** [round(p * (1 - discount / 100), 2)] *)
Definition percent_off (p discount : float) : float :=
  Py.round2 (p * (1 - discount / 100))%float.

Definition apply_offer_discount (price_plain price_now : option float)
    (offer_text : string) : exc (option float) :=
  if negb (Str.truthy offer_text) then Ret None else
  discount ← get_num (Some offer_text);
  match discount with
  | None => Ret None
  | Some discount =>
    if negb (Py.truthy_float discount) then Ret None else
    if Str.startswith "EXTRA" offer_text && Str.contains "%" offer_text then
      match Py.if_true price_now, Py.if_true price_plain with
      | Some pn, _ => Ret (Some (percent_off pn discount))
      | None, Some pp => Ret (Some (percent_off pp discount))
      | None, None => Ret None
      end
    else if Str.startswith "SAVE" offer_text && Str.contains "%" offer_text then
      match Py.if_true price_plain with
      | Some pp => Ret (Some (percent_off pp discount))
      | None => Ret None
      end
    else if Str.startswith "SAVE" offer_text && Str.contains "$" offer_text then
      match Py.if_true price_plain with
      | Some pp => Ret (Some (Py.round2 (pp - discount)%float))
      | None => Ret None
      end
    else if Str.startswith "BUY" offer_text then
      match Re.search buy_re offer_text with
      | None => Ret None
      | Some m_buy =>
          qty ← Str.int_of_digits (text_or_empty (Re.group m_buy 1));
          total ← Str.float_of_decimal (text_or_empty (Re.group m_buy 2));
          if qty >? 0 then
            q ← Py.float_of_int qty;
            Ret (Some (Py.round2 (total / q)%float))
          else Ret None
      end
    else if Str.contains "GIFT CARD" offer_text then
      match price_plain with
      | None => Raise TypeError
      | Some pp =>
          if Py.ge pp 600 then Ret (Some (pp - 150)%float)
          else if Py.ge pp 300 then Ret (Some (pp - 50)%float)
          else if Py.ge pp 150 then Ret (Some (pp - 20)%float)
          else Ret None
      end
    else Ret None
  end.

(** ** Similarity *)

(** [[a-z0-9]+] *)
Definition token_re : Re.t :=
  Re.plus (Re.Chr (fun c => Str.is_lower c || Str.is_digit c)).

(** [None] stands for an object that is not a [str]. *)
Definition _tokens (title : option string) : gset string :=
  match title with
  | None => ∅
  | Some t => list_to_set (Re.findall token_re (Str.lower t))
  end.

Definition _jaccard (a b : gset string) : float :=
  if bool_decide (a = ∅) || bool_decide (b = ∅) then 0%float
  else
    let inter := size (a ∩ b) in
    let union := size (a ∪ b) in
    if (union =? 0)%nat then 0%float
    else Py.float_of_ratio (Z.of_nat inter) (Pos.of_nat union).

(** ** Matcher *)

(** What [compare_search] prints: the progress line [*idx/total] of a
    candidate, the error of a failed search, the warning of a failed offer
    lookup, and the notification with its number of stars. *)
Inductive event : Type :=
| Progress (idx total : nat)
| LogErr (title_pm : string)
| LogWarn (product_id : option string)
| Notify (stars : nat) (title : string).

(** The variables that live across iterations of the [for] loop.  [soup] is
    a local of [compare_search] assigned only inside the [try] block: it is
    [None] until the first successful search. *)
Record loop_state : Type := mkLoop {
  soup : option (parsed (list item));
  matches : list comparison_record;
  printed : list event
}.

(** The [shortDescription] of the first offer whose id is [product_id];
    the empty string when there is none. *)
Fixpoint find_offer_text (product_id : option string) (offers_data : list offer)
    : option string :=
  match offers_data with
  | [] => Some EmptyString
  | o :: rest =>
      if bool_decide (o_id o = product_id) then o_shortDescription o
      else find_offer_text product_id rest
  end.

(** The body of the [try] block that reconciles the prices with an offer:
    the new [(price, was)]. *)
Definition reconcile_body (price was : option float) (product_id : option string)
    : exc (option float * option float) :=
  offers_data ← post_special_offers w product_id;
  match find_offer_text product_id offers_data with
  | Some offer_text =>
      if Str.truthy offer_text then
        price_offer ← apply_offer_discount (Py.or_else was price) price offer_text;
        if Py.truthy price_offer then
          let candidates := present [Py.or_else was price; price; price_offer] in
          Ret (Py.min_list candidates, Py.max_list candidates)
        else Ret (price, was)
      else Ret (price, was)
  | None => Ret (price, was)
  end.

(** The [try] block with its handler: the reconciled [(price, was)] and the
    warning printed when the block raised. *)
Definition reconcile (price was : option float) (product_id : option string)
    : option float * option float * list event :=
  match reconcile_body price was product_id with
  | Ret (p, x) => (p, x, [])
  | Raise _ => (price, was, [LogWarn product_id])
  end.

(** [was == i["was"]], where [was] may be [None]. *)
Definition was_equal (was : option float) (x : float) : bool :=
  match was with
  | Some y => (y =? x)%float
  | None => false
  end.

Definition notify (title : string) (price_diff : float) : list event :=
  if Py.gt price_diff 250 then [Notify 3 title]
  else if Py.gt price_diff 200 then [Notify 2 title]
  else if Py.gt price_diff 150 then [Notify 1 title]
  else [].

(** Lines 375-396: the acceptance gate.  The comparison row appended to
    [matches], if any, and what is printed. *)
Definition gate (sim_thresh : float) (title : string) (price was : option float)
    (link : string) (i : row) : exc (option comparison_record * list event) :=
  let title_pm := r_title i in
  if was_equal was (r_was i)
     && Py.ge (_jaccard (_tokens (Some title)) (_tokens (Some title_pm))) sim_thresh
  then
    let price_pm := r_price i in
    match price with
    | None => Raise TypeError
    | Some p =>
        let price_diff := (p - price_pm)%float in
        let link_pm := r_link i in
        Ret (if Py.gt price_diff 100
             then Some (mkComparison title title_pm price_diff p price_pm link link_pm)
             else None,
             notify title price_diff)
    end
  else Ret (None, []).

(** One iteration of [for idx, i in enumerate(pms, 1)].  [soup.select]
    raises [UnboundLocalError] while [soup] is unassigned and
    [AttributeError] on an object that is not a document. *)
Definition compare_one (sim_thresh : float) (total : nat) (st : loop_state)
    (idx : nat) (i : row) : exc loop_state :=
  let title_pm := r_title i in
  let search_url := "https://www.davidjones.com/search?q=" +:+ quote title_pm in
  let st0 := mkLoop (soup st) (matches st) (printed st ++ [Progress idx total]) in
  let st1 :=
    match get_search w search_url with
    | Ret s => mkLoop (Some s) (matches st0) (printed st0)
    | Raise _ => mkLoop (soup st0) (matches st0) (printed st0 ++ [LogErr title_pm])
    end in
  items ← match soup st1 with
          | None => Raise UnboundLocalError
          | Some NotDocument => Raise AttributeError
          | Some (Document s) => Ret s
          end;
  match items with
  | [] => Ret st1
  | it :: _ =>
      '(title, price, was, link, product_id) ← get_product_info it;
      let '(price, was, warn) := reconcile price was product_id in
      '(new, notes) ← gate sim_thresh title price was link i;
      Ret (mkLoop (soup st1)
             (matches st1 ++ match new with Some c => [c] | None => [] end)
             (printed st1 ++ warn ++ notes))
  end.

(** The [for] loop from the candidate number [idx] on. *)
Fixpoint compare_loop (sim_thresh : float) (total : nat) (st : loop_state)
    (idx : nat) (pms : list row) : exc loop_state :=
  match pms with
  | [] => Ret st
  | i :: rest =>
      st' ← compare_one sim_thresh total st idx i;
      compare_loop sim_thresh total st' (S idx) rest
  end.

(** The table returned, with what was printed on the way. *)
Definition compare_search (pm : list row) (sim_thresh : float)
    : exc (list comparison_record * list event) :=
  st ← compare_loop sim_thresh (List.length pm) (mkLoop None [] []) 1 pm;
  Ret (sort_values_desc price_diff (matches st), printed st).

End Program.

(** The default [sim_thresh=0.9]. *)
Definition default_sim_thresh : float := 0.9%float.

(** ** The request loop

    [http_request] calls [_attempt] up to [max(1, retries)] times with
    certificate verification, once more without it after an SSL error, and
    sleeps after every round that failed.  One call of [_attempt] returns
    its pair, raises [requests.exceptions.SSLError], or raises another
    [Exception]; what it does depends on the network, which is a function
    of what the loop has done so far.  [time.sleep(sleep)] is called outside
    the [try] blocks: what it raises (on a negative delay, on nan, on a
    delay beyond the range of the platform) leaves [http_request]. *)

Inductive attempt_outcome (A : Type) : Type :=
| Fetched (a : A)
| SSLError
| OtherError.
Arguments Fetched {A} a.
Arguments SSLError {A}.
Arguments OtherError {A}.

(** What the loop does: a call [_attempt(verify=...)], or a call
    [time.sleep(sleep)] that returned. *)
Inductive action : Type :=
| Attempt (verify : bool)
| Sleep.

Section Request.
Context {A : Type}.
Variable net : list action -> bool -> attempt_outcome A.
Variable time_sleep : float -> exc unit.

(** [n] iterations of [for _ in range(max(1, retries))], then the final
    [raise RuntimeError]; the result comes with the actions performed. *)
Fixpoint request_rounds (sleep : float) (n : nat) (log : list action)
    : exc A * list action :=
  match n with
  | O => (Raise RuntimeError, log)
  | S n' =>
      match net log true with
      | Fetched a => (Ret a, log ++ [Attempt true])
      | SSLError =>
          match net (log ++ [Attempt true]) false with
          | Fetched a => (Ret a, log ++ [Attempt true; Attempt false])
          | _ =>
              match time_sleep sleep with
              | Ret _ => request_rounds sleep n' (log ++ [Attempt true; Attempt false; Sleep])
              | Raise e => (Raise e, log ++ [Attempt true; Attempt false])
              end
          end
      | OtherError =>
          match time_sleep sleep with
          | Ret _ => request_rounds sleep n' (log ++ [Attempt true; Sleep])
          | Raise e => (Raise e, log ++ [Attempt true])
          end
      end
  end.

(** [http_request(url, retries=retries, sleep=sleep)]; the defaults are 2
    and 8. *)
Definition http_request (retries : Z) (sleep : float) : exc A * list action :=
  request_rounds sleep (Z.to_nat (Z.max 1 retries)) [].

End Request.

(** ** The encoding of a response

    Bytes are characters with codes 0 to 255, and a byte string is a
    [string]. *)

(** [\s] in a bytes pattern: the six ASCII blanks. *)
Definition is_space_bytes (c : ascii) : bool :=
  ((9 <=? Str.code c)%nat && (Str.code c <=? 13)%nat) || (Str.code c =? 32)%nat.

(** [[a-z0-9_\-]] under [re.IGNORECASE]. *)
Definition is_charset_char (c : ascii) : bool :=
  Str.is_lower c || Str.is_upper c || Str.is_digit c
  || Ascii.eqb c "_" || Ascii.eqb c "-".

Definition is_quote (c : ascii) : bool :=
  Ascii.eqb c "034" || Ascii.eqb c "'".

Definition quote_re : Re.t := Re.Chr is_quote.
Definition not_gt : Re.t := Re.Chr (fun c => negb (Ascii.eqb c ">")).
Definition not_quote : Re.t := Re.Chr (fun c => negb (is_quote c)).
Definition blank : Re.t := Re.Chr is_space_bytes.
Definition charset_name (i : nat) : Re.t := Re.Grp i (Re.plus (Re.Chr is_charset_char)).

(** The three alternatives of [_META_CHARSET_RE], compiled with [(?ix)]:
    a [meta] tag with a [charset] attribute, a [meta] tag with
    [http-equiv=content-type] and a [content] attribute, and an XML
    declaration at the very start. *)
Definition meta_charset : Re.t :=
  Re.seqs [Re.iword "<meta"; Re.plus not_gt; Re.iword "charset=";
           Re.opt quote_re; Re.star blank; charset_name 1; Re.star blank;
           Re.opt quote_re; Re.star not_gt; Re.lit ">"].

Definition meta_http_equiv : Re.t :=
  Re.seqs [Re.iword "<meta"; Re.plus not_gt; Re.iword "http-equiv=";
           Re.opt quote_re; Re.iword "content-type"; Re.opt quote_re;
           Re.plus not_gt; Re.iword "content="; quote_re; Re.star not_quote;
           Re.lit ";"; Re.star blank; Re.iword "charset="; charset_name 2;
           Re.star not_quote; quote_re; Re.star not_gt; Re.lit ">"].

Definition xml_declaration : Re.t :=
  Re.seqs [Re.iword "<?xml"; Re.star not_gt; Re.iword "encoding="; quote_re;
           Re.star blank; charset_name 3; Re.star blank; quote_re].

(** [_META_CHARSET_RE.search(raw_head)]: the leftmost match, the
    alternatives tried in order at each position; the third one starts with
    [^] and is only tried at position 0. *)
Definition meta_charset_search (raw_head : string) : option Re.match_obj :=
  let whole := Str.chars raw_head in
  match Re.run (Re.Alt meta_charset (Re.Alt meta_http_equiv xml_declaration))
          (Re.mkState 0 None whole []) Some with
  | Some s => Some (Re.mkMatch whole (0%nat, Re.pos s) (Re.caps s))
  | None =>
      match whole with
      | [] => None
      | c :: tl =>
          Re.search_from (Re.Alt meta_charset meta_http_equiv) whole 1 (Some c) tl
      end
  end.

(** [next((g for g in m.groups() if g), None)] *)
Definition first_group (m : Re.match_obj) : option string :=
  let nonempty i :=
    match Re.group m i with
    | Some g => if Str.truthy g then Some g else None
    | None => None
    end in
  match nonempty 1%nat, nonempty 2%nat, nonempty 3%nat with
  | Some g, _, _ => Some g
  | None, Some g, _ => Some g
  | None, None, o => o
  end.

(** [enc.decode("ascii", "ignore")]: the bytes above 127 are dropped. *)
Definition decode_ascii_ignore (b : string) : string :=
  Str.of_chars (List.filter (fun c => (Str.code c <? 128)%nat) (Str.chars b)).

Definition _sniff_charset (raw_head : string) : option string :=
  match meta_charset_search raw_head with
  | None => None
  | Some m =>
      match first_group m with
      | None => None
      | Some enc =>
          let enc := Str.lower (decode_ascii_ignore enc) in
          if String.eqb enc "gbk" || String.eqb enc "cp936" then Some "gb18030"%string
          else if String.eqb enc "utf8" then Some "utf-8"%string
          else Some enc
      end
  end.

(** Truth value of an object that is [None] or a string. *)
Definition truthy_text (o : option string) : bool :=
  match o with
  | Some s => Str.truthy s
  | None => false
  end.

(** The encoding that [_attempt] gives the response before it reads
    [r.text]: [ct] is the [content-type] header (empty when absent),
    [encoding] is [r.encoding] as [requests] set it from the headers,
    [apparent] is [r.apparent_encoding], [content] is the body. *)
Definition response_encoding (ct : string) (encoding apparent : option string)
    (content : string) : string :=
  if Str.contains "application/json" ct then
    if truthy_text encoding then default EmptyString encoding else "utf-8"%string
  else
    let head_bytes := Str.of_chars (firstn (2 ^ 15) (Str.chars content)) in
    let sniff := _sniff_charset head_bytes in
    if truthy_text sniff then default EmptyString sniff
    else
      let enc :=
        if negb (truthy_text encoding)
           || (let l := Str.lower (default EmptyString encoding) in
               String.eqb l "iso-8859-1" || String.eqb l "ascii")
        then (if truthy_text apparent then default EmptyString apparent
              else "utf-8"%string)
        else default EmptyString encoding in
      if Str.startswith "utf-8" (Str.lower enc) then
        let hb := Str.lower_bytes head_bytes in
        if Str.contains "charset=gb" hb || Str.contains "charset = gb" hb
        then "gb18030"%string else enc
      else enc.

(** ** The command line *)

(** The digits of an integer literal, in which single underscores may
    separate digits; [prev_digit] tells whether the last character read was
    a digit. *)
Fixpoint literal_digits (l : list ascii) (prev_digit : bool) : option (list ascii) :=
  match l with
  | [] => if prev_digit then Some [] else None
  | c :: r =>
      if Str.is_digit c then option_map (cons c) (literal_digits r true)
      else if Ascii.eqb c "_" then
        (if prev_digit then literal_digits r false else None)
      else None
  end.

(** The blanks that [int] skips around a number: the six blanks of C, and
    the next-line control 133 and the no-break space 160, which [int] turns
    into spaces; the separators 28 to 31, which [str.strip] removes, are not
    among them. *)
Definition is_int_blank (c : ascii) : bool :=
  is_space_bytes c || (Str.code c =? 133)%nat || (Str.code c =? 160)%nat.

Fixpoint lstrip_blanks (l : list ascii) : list ascii :=
  match l with
  | c :: r => if is_int_blank c then lstrip_blanks r else l
  | [] => []
  end.

(** [int(s)] on a string: blanks around, an optional sign, decimal digits
    with optional underscores; [ValueError] otherwise, and beyond 4300
    digits. *)
Definition int_of_text (s : string) : exc Z :=
  let l := rev (lstrip_blanks (rev (lstrip_blanks (Str.chars s)))) in
  let '(neg, l1) :=
    match l with
    | "-"%char :: r => (true, r)
    | "+"%char :: r => (false, r)
    | _ => (false, l)
    end in
  match literal_digits l1 false with
  | None => Raise ValueError
  | Some ds =>
      if (List.length ds <=? 4300)%nat
      then Ret (if neg then - Str.digits_value ds else Str.digits_value ds)
      else Raise ValueError
  end.

Section Main.
Variable urljoin : string -> string -> exc string.
Variable quote : string -> string.
Variable set_page_param : string -> nat -> string.
Variable w : web.

(** [sys.argv[1] if len(sys.argv) > 1 else "womens-sale"] *)
Definition searchby_of (argv : list string) : string :=
  match argv with
  | _ :: s :: _ => s
  | _ => "womens-sale"%string
  end.

(** [int(sys.argv[2]) if len(sys.argv) > 2 else 200] *)
Definition threshold_of (argv : list string) : exc Z :=
  match argv with
  | _ :: _ :: t :: _ => int_of_text t
  | _ => Ret 200
  end.

(** [main]: the listing table, the comparison table and what
    [compare_search] printed; the lines that [main] itself prints are
    functions of the two tables.  The threshold is an int, which the
    scraper compares with floats: it is represented by the float of the
    same value, which exists when its magnitude is at most 2^53; [None]
    stands for a threshold beyond that, and for a listing that outlasts the
    fuel. *)
Definition main (fuel : nat) (argv : list string)
    : option (exc (list row * list comparison_record * list event)) :=
  let searchby := searchby_of argv in
  match threshold_of argv with
  | Raise e => Some (Raise e)
  | Ret threshold =>
      if Z.abs threshold <=? 2 ^ 53 then
        match scrape_iconic urljoin set_page_param w fuel searchby
                (Py.float_of_ratio threshold 1) with
        | None => None
        | Some (Raise e) => Some (Raise e)
        | Some (Ret ic) =>
            Some ('(out, printed) ← compare_search urljoin quote w ic default_sim_thresh;
                  Ret (ic, out, printed))
        end
      else None
  end.

End Main.

(** Text that holds no digit. *)
Definition no_digit (l : list ascii) : bool :=
  forallb (fun c => negb (Str.is_digit c)) l.

(** ** The order of floats

    A float that is not nan is ranked by a triple of integers ordered
    lexicographically, so that facts about [<=?], [<?] and [=?] become
    linear arithmetic. *)

Module FloatOrder.

Definition rank (x : spec_float) : option (Z * Z * Z) :=
  match x with
  | S754_nan => None
  | S754_infinity s => Some (if s then -2 else 2, 0, 0)
  | S754_zero _ => Some (0, 0, 0)
  | S754_finite s m e => Some (if s then (-1, - e, - Zpos m) else (1, e, Zpos m))
  end.

Definition lex (a b : Z * Z * Z) : comparison :=
  let '(a1, a2, a3) := a in
  let '(b1, b2, b3) := b in
  match a1 ?= b1 with
  | Eq => match a2 ?= b2 with
          | Eq => a3 ?= b3
          | c => c
          end
  | c => c
  end.

Definition le3 (a b : Z * Z * Z) : Prop :=
  a.1.1 < b.1.1 \/
  (a.1.1 = b.1.1 /\ (a.1.2 < b.1.2 \/ (a.1.2 = b.1.2 /\ a.2 <= b.2))).

Definition frank (x : float) : option (Z * Z * Z) := rank (Prim2SF x).

(** [x] is not nan. *)
Definition ordered (x : float) : Prop := exists a, frank x = Some a.

(** The least exponent of binary64. *)
Definition emin64 : Z := SpecFloat.emin prec emax.

(** [x] is a non-zero number or an infinity of sign [s]. *)
Definition signed (s : bool) (x : spec_float) : Prop :=
  match x with
  | S754_finite s' _ _ | S754_infinity s' => s' = s
  | _ => False
  end.

End FloatOrder.

(** ** Least and greatest element

    [o] is the least (greatest) element of [l] for the order of floats, and
    [None] when [l] is empty: what "the min (max) of the values found" means,
    whatever the order of the values in [l]. *)

Definition is_min_of (l : list float) (o : option float) : Prop :=
  match o with
  | None => l = []
  | Some x => In x l /\ forall y, In y l -> (x <=? y)%float = true
  end.

Definition is_max_of (l : list float) (o : option float) : Prop :=
  match o with
  | None => l = []
  | Some x => In x l /\ forall y, In y l -> (y <=? x)%float = true
  end.

(** ** Rows of the listing table

    [row_from threshold a r]: the row [r] was built from the anchor [a],
    whose two price texts both yield a number, and passes the filter. *)

Definition row_from (threshold : float) (a : anchor) (r : row) : Prop :=
  get_num (a_price_final a) = Ret (Some (r_price r)) /\
  get_num (a_price_original a) = Ret (Some (r_was r)) /\
  r_diff r = (r_was r - r_price r)%float /\
  Py.ge (r_diff r) threshold = true.

(** [r] was built from an anchor of a fetched page of the listing. *)
Definition scraped (set_page_param : string -> nat -> string) (w : web)
    (start_url : string) (threshold : float) (r : row) : Prop :=
  exists (page : nat) (items : list anchor) (a : anchor),
    get_listing w (_turn_page set_page_param start_url page) = Ret (Document items) /\
    In a items /\ row_from threshold a r.

(** [urljoin] returns on the link of the anchor [a]. *)
Definition href_resolves (urljoin : string -> string -> exc string) (a : anchor) : Prop :=
  exists u, urljoin "https://www.theiconic.com.au"%string (Str.strip (a_href a)) = Ret u.

(** The listing has [n] pages with products, numbered from [first]. *)
Definition pages_full (set_page_param : string -> nat -> string) (w : web)
    (start_url : string) (first n : nat) : Prop :=
  forall p, (first <= p < first + n)%nat ->
    exists items,
      get_listing w (_turn_page set_page_param start_url p) = Ret (Document items) /\
      items <> [].

(** [urljoin] returns on the links of these [n] pages. *)
Definition hrefs_resolve (urljoin : string -> string -> exc string)
    (set_page_param : string -> nat -> string) (w : web)
    (start_url : string) (first n : nat) : Prop :=
  forall p items a, (first <= p < first + n)%nat ->
    get_listing w (_turn_page set_page_param start_url p) = Ret (Document items) ->
    In a items -> href_resolves urljoin a.

(** [r1] precedes [r2] in a table sorted by a key, descending. *)
Definition desc {A : Type} (key : A -> float) (r1 r2 : A) : Prop :=
  Py.ge (key r1) (key r2) = true.

(** ** Rows of the comparison table

    [matched urljoin w title price was link]: the first entry of a search
    page that was fetched has this title and link, and these are its prices
    after the reconciliation with its offer. *)

Definition matched (urljoin : string -> string -> exc string) (w : web)
    (title : string) (price was : option float) (link : string) : Prop :=
  exists (url : string) (it : item) (items : list item)
         (price0 was0 : option float) (product_id : option string)
         (warn : list event),
    get_search w url = Ret (Document (it :: items)) /\
    get_product_info urljoin it = Ret (title, price0, was0, link, product_id) /\
    reconcile w price0 was0 product_id = (price, was, warn).

(** [soup], once assigned, is what a search returned. *)
Definition soup_fetched (w : web) (st : loop_state) : Prop :=
  forall s, soup st = Some s -> exists url, get_search w url = Ret s.

(** [c] was appended by the acceptance gate, applied to a matched product
    and a candidate of [pm]. *)
Definition emitted_by_gate (urljoin : string -> string -> exc string) (w : web)
    (sim_thresh : float) (pm : list row) (c : comparison_record) : Prop :=
  exists (i : row) (title : string) (price was : option float) (link : string)
         (notes : list event),
    In i pm /\ matched urljoin w title price was link /\
    gate sim_thresh title price was link i = Ret (Some c, notes).

(** ** Readable amounts

    The pattern of an amount, [[0-9,]+] then an optional point and digits,
    also matches commas alone.  [amount_has_digit label text]: the amount
    that follows [label] in [text], when there is one, holds a digit. *)



(** ** Sample inputs *)

Module Sample.

(** [urljoin] on a base without a path and a reference that is a path from
    the root; [ValueError] on a reference whose host opens a bracket and
    does not close it. *)
Definition urljoin (base ref : string) : exc string :=
  if Str.startswith "//[" ref && negb (Str.contains "]" ref)
  then Raise ValueError else Ret (base +:+ ref).
Definition quote (s : string) : string := s.
Definition set_page_param (url : string) (page : nat) : string :=
  url +:+ "?page=" +:+ pretty page.

Definition search_base : string := "https://www.davidjones.com/search?q=".

(** A search result whose link ends in a numeric segment, and one whose link
    does not. *)
Definition dress : item :=
  mkItem (Some "Zimmermann") (Some "Silk Dress")
    (Some (Some "/product/zimmermann-silk-dress-12345"))
    (Some (Some "Price is now $220.00, it was $443.00")).

Definition dress_without_id : item :=
  mkItem (Some "Zimmermann") (Some "Silk Dress")
    (Some (Some "/product/zimmermann-silk-dress"))
    (Some (Some "Price is now $220.00, it was $443.00")).


Definition dress_labels_swapped : item :=
  mkItem (Some "Zimmermann") (Some "Silk Dress")
    (Some (Some "/product/zimmermann-silk-dress-12345"))
    (Some (Some "Price is now $443.00, it was $220.00")).



(** Two candidates with the same tokens in their titles. *)
Definition candidate1 : row :=
  mkRow "Zimmermann Silk Dress" 100 443 343 "https://www.theiconic.com.au/a".
Definition candidate2 : row :=
  mkRow "Silk Dress Zimmermann" 90 443 353 "https://www.theiconic.com.au/b".

(** Every search request fails. *)
Definition web_down : web :=
  mkWeb (fun _ => Raise RuntimeError) (fun _ => Raise RuntimeError)
        (fun _ => Raise RuntimeError).

(** The search for the first candidate succeeds, every other search fails;
    there are no offers. *)
Definition web_first_only : web :=
  mkWeb (fun _ => Raise RuntimeError)
        (fun url => if String.eqb url (search_base +:+ "Zimmermann Silk Dress")
                    then Ret (Document [dress]) else Raise RuntimeError)
        (fun _ => Ret []).

(** Every search returns the entry whose link has no numeric segment. *)
Definition web_without_id : web :=
  mkWeb (fun _ => Raise RuntimeError) (fun _ => Ret (Document [dress_without_id]))
        (fun _ => Ret []).

(** A listing of one page with three anchors; the second costs more now
    than before, the third lacks its original price. *)
Definition listing_page : list anchor :=
  [mkAnchor (Some "$220.00") (Some "$443.00") (Some "Zimmermann") (Some "Silk Dress") "/a";
   mkAnchor (Some "$200.00") (Some "$150.00") (Some "Aje") (Some "Top") "/b";
   mkAnchor (Some "$99.00") None (Some "Aje") (Some "Skirt") "/c";
   mkAnchor (Some "$100.00") (Some "$1,100.00") (Some "Camilla") (Some "Kaftan") "/d"].

Definition web_listing : web :=
  mkWeb (fun url => if String.eqb url "https://www.theiconic.com.au/womens-sale"
                    then Ret (Document listing_page) else Ret (Document []))
        (fun _ => Raise RuntimeError) (fun _ => Raise RuntimeError).

End Sample.

(** ** Predicates of the further statements *)

(** *** What a pattern can match

    [sem r base w cs]: the pattern [r], started at position [base], can
    consume the word [w] and record the captures [cs] (latest first).  The
    assertions [\b] and [$] consume nothing; what they test of the context
    is not part of the relation.  It says what a successful run of the
    matcher consumed and captured. *)

Module ReSem.

(** [n] repetitions are allowed by the upper bound [hi]. *)
Definition within (hi : option nat) (n : nat) : Prop :=
  match hi with
  | Some h => (n <= h)%nat
  | None => True
  end.

(** The iterations of a repetition, each with the captures it recorded. *)
Fixpoint sem_iter (f : nat -> list ascii -> list (nat * (nat * nat)) -> Prop) (base : nat)
    (l : list (list ascii * list (nat * (nat * nat)))) : Prop :=
  match l with
  | [] => True
  | (w, cs) :: tl => f base w cs /\ sem_iter f (base + List.length w) tl
  end.

Fixpoint sem (r : Re.t) (base : nat) (w : list ascii)
    (cs : list (nat * (nat * nat))) : Prop :=
  match r with
  | Re.Eps => w = [] /\ cs = []
  | Re.Chr p => (exists c, w = [c] /\ p c = true) /\ cs = []
  | Re.Seq r1 r2 =>
      exists w1 w2 c1 c2,
        w = w1 ++ w2 /\ cs = c2 ++ c1 /\
        sem r1 base w1 c1 /\ sem r2 (base + List.length w1) w2 c2
  | Re.Alt r1 r2 => sem r1 base w cs \/ sem r2 base w cs
  | Re.Rep lo hi r1 =>
      exists l,
        w = concat (map fst l) /\ cs = concat (rev (map snd l)) /\
        sem_iter (sem r1) base l /\
        (lo <= List.length l)%nat /\ within hi (List.length l)
  | Re.Grp i r1 =>
      exists c1, cs = (i, (base, base + List.length w)%nat) :: c1 /\ sem r1 base w c1
  | Re.WordB => w = [] /\ cs = []
  | Re.EndS => w = [] /\ cs = []
  end.

(** What a successful run consumed and captured between two states. *)
Definition consumed (r : Re.t) (s s' : Re.state) : Prop :=
  exists w new,
    Re.rest s = w ++ Re.rest s' /\
    Re.pos s' = (Re.pos s + List.length w)%nat /\
    Re.caps s' = new ++ Re.caps s /\
    sem r (Re.pos s) w new.

(** The loop of [Re.run] on a repetition, as a function of its own. *)
Section RepLoop.
Variable body : Re.state -> (Re.state -> option Re.state) -> option Re.state.
Variable k : Re.state -> option Re.state.

Fixpoint rep_loop (fuel lo : nat) (hi : option nat) (s : Re.state) : option Re.state :=
  let stop := match lo with O => k s | S _ => None end in
  match fuel, hi with
  | O, _ => stop
  | _, Some O => stop
  | S fuel', _ =>
      match body s (fun s' =>
              if (Re.pos s' =? Re.pos s)%nat then None
              else rep_loop fuel' (Nat.pred lo) (option_map Nat.pred hi) s') with
      | Some x => Some x
      | None => stop
      end
  end.
End RepLoop.

End ReSem.

(** A float that is zero, positive or plus infinity. *)
Definition sf_nonneg (x : spec_float) : Prop :=
  match x with
  | S754_zero _ => True
  | S754_infinity s | S754_finite s _ _ => s = false
  | S754_nan => False
  end.

(** The characters an amount is made of: digits, and a point after them. *)
Definition is_point_or_nil (l : list ascii) : Prop := l = [] \/ l = ["."%char].

(** The amount that follows [label] in [text] has the text [g]: group 1 of
    the first match of the labelled pattern. *)
Definition amount_text (label text g : string) : Prop :=
  exists m, Re.search (labelled_re label) text = Some m /\ Re.group m 1 = Some g.

(** A continuation that never asks to backtrack. *)
Definition never_fails (k : Re.state -> option Re.state) : Prop := forall s, k s <> None.

(** A run of decimal digits. *)
Definition all_digits (l : list ascii) : Prop := Forall (fun c => Str.is_digit c = true) l.

(** Text in which no number can start: neither a digit nor a minus sign. *)
Definition no_number_start (l : list ascii) : bool :=
  forallb (fun c => negb (Str.is_digit c) && negb (Ascii.eqb c "-")) l.

(** [x] is a non-empty word of lower-case letters and digits that occurs
    in [text]. *)
Definition is_token_of (text x : string) : Prop :=
  exists pre w post : list ascii,
    Str.chars text = pre ++ w ++ post /\
    x = Str.of_chars w /\ w <> [] /\
    Forall (fun c => Str.is_lower c || Str.is_digit c = true) w.

(** The two tables are the same, or the two runs raised the same
    exception; what was printed is left out. *)
Definition same_table (r1 r2 : exc (list comparison_record * list event)) : Prop :=
  match r1, r2 with
  | Ret (o1, _), Ret (o2, _) => o1 = o2
  | Raise e1, Raise e2 => e1 = e2
  | _, _ => False
  end.

(** A row of the table, as appended for the candidate [i]. *)
Definition row_of (i : row) (c : comparison_record) : Prop :=
  title_pm c = r_title i /\ price_pm c = r_price i /\ link_pm c = r_link i /\
  price_diff c = (price_dj c - price_pm c)%float /\
  Py.gt (price_diff c) 100 = true.

(** The stars printed for a difference of prices [d]: three above 250, two
    above 200 and not 250, one above 150 and not 200. *)
Definition stars_for (d : float) (n : nat) : Prop :=
  (n = 3%nat /\ Py.gt d 250 = true) \/
  (n = 2%nat /\ Py.gt d 250 = false /\ Py.gt d 200 = true) \/
  (n = 1%nat /\ Py.gt d 200 = false /\ Py.gt d 150 = true).

(** Two states of the loop that differ only in what was printed. *)
Definition same_progress (s1 s2 : loop_state) : Prop :=
  soup s1 = soup s2 /\ matches s1 = matches s2.

(** [r] is a row that [scrape_anchor] builds for an anchor of one of the
    pages [first .. first + n - 1]. *)
Definition row_of_pages (urljoin : string -> string -> exc string)
    (set_page_param : string -> nat -> string) (w : web)
    (start_url : string) (threshold : float) (first n : nat) (r : row) : Prop :=
  exists (p : nat) (items : list anchor) (a : anchor) (new : list row),
    (first <= p < first + n)%nat /\
    get_listing w (_turn_page set_page_param start_url p) = Ret (Document items) /\
    In a items /\ scrape_anchor urljoin threshold a = Ret new /\ In r new.

(** A number that is neither zero nor nan. *)
Definition real_price (x : float) : Prop :=
  Py.truthy_float x = true /\ FloatOrder.ordered x.

(** *** Rounds of the request loop *)

Section Rounds.
Context {A : Type}.
Variable net : list action -> bool -> attempt_outcome A.

(** The attempts of a round that failed after the history [log]: a
    verified attempt that met an error other than an SSL error, or a
    verified attempt that met an SSL error and an unverified attempt that
    fetched nothing. *)
Definition failed_attempts (log acts : list action) : Prop :=
  (acts = [Attempt true] /\ net log true = OtherError) \/
  (acts = [Attempt true; Attempt false] /\ net log true = SSLError /\
   forall a, net (log ++ [Attempt true]) false <> Fetched a).

(** A round that failed after the history [log], with the sleep that
    follows it. *)
Definition failed_round (log round : list action) : Prop :=
  exists acts, round = acts ++ [Sleep] /\ failed_attempts log acts.

(** Successive failed rounds, starting after the history [log]. *)
Fixpoint failed_rounds (log : list action) (rounds : list (list action)) : Prop :=
  match rounds with
  | [] => True
  | r :: rest => failed_round log r /\ failed_rounds (log ++ r) rest
  end.

(** The round that returned [a] after the history [log]. *)
Definition last_round (log round : list action) (a : A) : Prop :=
  (round = [Attempt true] /\ net log true = Fetched a) \/
  (round = [Attempt true; Attempt false] /\ net log true = SSLError /\
   net (log ++ [Attempt true]) false = Fetched a).

End Rounds.

Definition is_sleep (x : action) : bool :=
  match x with Sleep => true | Attempt _ => false end.

Definition is_verified (x : action) : bool :=
  match x with Attempt true => true | _ => false end.

(** A charset name as [_sniff_charset] returns it: lower-case letters,
    digits, underscores and hyphens. *)
Definition is_charset_lower (c : ascii) : bool :=
  Str.is_lower c || Str.is_digit c || Ascii.eqb c "_" || Ascii.eqb c "-".

(** A pattern without groups. *)
Fixpoint no_groups (r : Re.t) : bool :=
  match r with
  | Re.Seq r1 r2 | Re.Alt r1 r2 => no_groups r1 && no_groups r2
  | Re.Rep _ _ r1 => no_groups r1
  | Re.Grp _ _ => false
  | _ => true
  end.

(** The word [w], matched from position [base], holds a charset name, which
    is the only capture, for group [i]. *)
Definition names_charset (i : nat) (base : nat) (w : list ascii)
    (cs : list (nat * (nat * nat))) : Prop :=
  exists u1 u u2,
    w = u1 ++ u ++ u2 /\
    cs = [(i, ((base + List.length u1)%nat, (base + List.length u1 + List.length u)%nat))] /\
    u <> [] /\ Forall (fun c => is_charset_char c = true) u.

(** The quantity of a BUY offer: group 1 of the first match of [buy_re]. *)
Definition buy_quantity (offer_text q : string) : Prop :=
  exists m, Re.search buy_re offer_text = Some m /\ Re.group m 1 = Some q.

(** The two prices are both absent or both present. *)
Definition both_or_none (price was : option float) : Prop :=
  (price = None /\ was = None) \/ (exists p x, price = Some p /\ was = Some x).

(** ** More sample inputs *)

Module Cases.

(** A search result whose price is a comma. *)
Definition dress_comma_price : item :=
  mkItem (Some "Zimmermann") (Some "Silk Dress")
    (Some (Some "/product/zimmermann-silk-dress-12345"))
    (Some (Some "Price $,")).

(** A search result whose link has a host that opens a bracket. *)
Definition dress_bad_link : item :=
  mkItem (Some "Zimmermann") (Some "Silk Dress")
    (Some (Some "//[x-1"))
    (Some (Some "Price $399.00")).

(** The offers service knows one offer, for product 12345. *)
Definition web_extra_offer : web :=
  mkWeb (fun _ => Raise RuntimeError) (fun _ => Ret (Document [Sample.dress]))
        (fun _ => Ret [mkOffer (Some "12345") (Some "EXTRA 20% OFF")]).

(** A candidate that costs 170 less than the David Jones entry, and one
    whose original price is not that of the David Jones entry. *)
Definition candidate_cheap : row :=
  mkRow "Zimmermann Silk Dress" 50 443 393 "https://www.theiconic.com.au/c".

Definition candidate_other_was : row :=
  mkRow "Zimmermann Silk Dress" 100 400 300 "https://www.theiconic.com.au/d".

(** A listing whose second page cannot be fetched. *)
Definition web_second_page_fails : web :=
  mkWeb (fun url => if String.eqb url "https://www.theiconic.com.au/womens-sale"
                    then Ret (Document Sample.listing_page) else Raise RuntimeError)
        (fun _ => Raise RuntimeError) (fun _ => Raise RuntimeError).

(** A listing whose second product has a link that opens a bracket. *)
Definition web_bad_href : web :=
  mkWeb (fun url => if String.eqb url "https://www.theiconic.com.au/womens-sale"
                    then Ret (Document
                                [mkAnchor (Some "$100.00") (Some "$443.00")
                                   (Some "Zimmermann") (Some "Silk Dress") "/a";
                                 mkAnchor (Some "$50.00") (Some "$250.00") (Some "Aje")
                                   (Some "Top") "//[x"])
                    else Ret (Document []))
        (fun _ => Raise RuntimeError) (fun _ => Raise RuntimeError).

(** A listing whose second page is not a page of html. *)
Definition web_second_page_text : web :=
  mkWeb (fun url => if String.eqb url "https://www.theiconic.com.au/womens-sale"
                    then Ret (Document Sample.listing_page) else Ret NotDocument)
        (fun _ => Raise RuntimeError) (fun _ => Raise RuntimeError).

(** A listing with a product that is free now. *)
Definition web_free_item : web :=
  mkWeb (fun url => if String.eqb url "https://www.theiconic.com.au/womens-sale"
                    then Ret (Document
                                [mkAnchor (Some "$0.00") (Some "$250.00") (Some "Aje")
                                   (Some "Scarf") "/s";
                                 mkAnchor (Some "$50.00") (Some "$250.00") (Some "Aje")
                                   (Some "Top") "/t"])
                    else Ret (Document []))
        (fun _ => Raise RuntimeError) (fun _ => Raise RuntimeError).

(** [time.sleep] on the delays used below: it returns after a delay of some
    seconds and raises [ValueError] on a negative one. *)
Definition time_sleep (secs : float) : exc unit :=
  if (secs <? 0)%float then Raise ValueError else Ret tt.

(** The first attempt meets an SSL error, everything else is refused. *)
Definition net_ssl_then_refused (log : list action) (verify : bool)
    : attempt_outcome string :=
  match log with
  | [] => SSLError
  | _ => OtherError
  end.

(** The certificate is bad, the page is served without verification. *)
Definition net_bad_certificate (log : list action) (verify : bool)
    : attempt_outcome string :=
  if verify then SSLError else Fetched "<html></html>"%string.

(** One listing page with one product, which every search finds at David
    Jones; no offers. *)
Definition web_full : web :=
  mkWeb (fun url => if String.eqb url "https://www.theiconic.com.au/womens-sale"
                    then Ret (Document
                                [mkAnchor (Some "$100.00") (Some "$443.00")
                                   (Some "Zimmermann") (Some "Silk Dress") "/a"])
                    else Ret (Document []))
        (fun _ => Ret (Document [Sample.dress])) (fun _ => Ret []).

(** One listing page with three products, two of them discounted by 200
    or more, all of which every search finds at David Jones; no offers. *)
Definition web_three : web :=
  mkWeb (fun url => if String.eqb url "https://www.theiconic.com.au/womens-sale"
                    then Ret (Document
                                [mkAnchor (Some "$100.00") (Some "$443.00")
                                   (Some "Zimmermann") (Some "Silk Dress") "/a";
                                 mkAnchor (Some "$300.00") (Some "$443.00")
                                   (Some "Zimmermann") (Some "Silk Dress") "/b";
                                 mkAnchor (Some "$50.00") (Some "$443.00")
                                   (Some "Zimmermann") (Some "Dress Silk") "/c"])
                    else Ret (Document []))
        (fun _ => Ret (Document [Sample.dress])) (fun _ => Ret []).

End Cases.

(** * Properties *)

Example float_of_ratio_two_thirds : Py.float_of_ratio 2 3 = (2 / 3)%float.
Proof. vm_compute. reflexivity. Qed.

Example float_of_ratio_tenth : Py.float_of_ratio 12345 10 = 1234.5%float.
Proof. vm_compute. reflexivity. Qed.

Example round2_exact : Py.round2 72%float = 72%float.
Proof. vm_compute. reflexivity. Qed.

Example round2_tie_even : Py.round2 0.125%float = 0.12%float.
Proof. vm_compute. reflexivity. Qed.

Example round2_binary : Py.round2 2.675%float = 2.67%float.
Proof. vm_compute. reflexivity. Qed.

(** Reduce the binds and the boolean connectives, leaving the calls folded. *)
Ltac step := cbv [mbind exc_bind negb andb orb].

(** *** Order of floats *)

Module FloatOrderFacts.
Import FloatOrder.

Lemma SFcompare_rank x y :
  SFcompare x y =
  match rank x, rank y with
  | Some a, Some b => Some (lex a b)
  | _, _ => None
  end.
Proof.
  destruct x as [sx|sx| |sx mx ex], y as [sy|sy| |sy my ey]; simpl;
    try reflexivity;
    repeat match goal with s : bool |- _ => destruct s end; simpl; try reflexivity.
  f_equal. rewrite Z.compare_opp, (Z.compare_antisym ex ey).
  destruct (ex ?= ey); reflexivity.
Qed.

Lemma lex_spec a b :
  match lex a b with
  | Eq => a = b
  | Lt => le3 a b /\ a <> b
  | Gt => le3 b a /\ a <> b
  end.
Proof.
  destruct a as [[a1 a2] a3], b as [[b1 b2] b3]; unfold le3; simpl.
  destruct (Z.compare_spec a1 b1), (Z.compare_spec a2 b2), (Z.compare_spec a3 b3);
    subst; try reflexivity; (split; [lia | intros [= ]; lia]).
Qed.

Lemma le3_refl a : le3 a a.
Proof. unfold le3. lia. Qed.

Lemma le3_trans a b c : le3 a b -> le3 b c -> le3 a c.
Proof. unfold le3. lia. Qed.

Lemma le3_total a b : le3 a b \/ le3 b a.
Proof. unfold le3. lia. Qed.

Lemma le3_antisym a b : le3 a b -> le3 b a -> a = b.
Proof.
  destruct a as [[a1 a2] a3], b as [[b1 b2] b3]. unfold le3; simpl.
  intros. f_equal; [f_equal|]; lia.
Qed.

Lemma SFleb_le3 x y a b :
  rank x = Some a -> rank y = Some b -> (SFleb x y = true <-> le3 a b).
Proof.
  intros Hx Hy. unfold SFleb. rewrite SFcompare_rank, Hx, Hy.
  pose proof (lex_spec a b) as H.
  destruct (lex a b); split; try discriminate; try reflexivity.
  - subst. intros _. apply le3_refl.
  - tauto.
  - intros Hab. destruct H as [Hba Hne]. destruct Hne. now apply le3_antisym.
Qed.

Section Ranked.
Variables (x y : float) (a b : Z * Z * Z).
Hypothesis Hx : frank x = Some a.
Hypothesis Hy : frank y = Some b.

Lemma leb_ranked : (x <=? y)%float = true <-> le3 a b.
Proof. rewrite FloatAxioms.leb_spec. now apply SFleb_le3. Qed.

Lemma ltb_ranked : (x <? y)%float = true <-> le3 a b /\ a <> b.
Proof.
  rewrite FloatAxioms.ltb_spec. unfold SFltb. rewrite SFcompare_rank.
  unfold frank in Hx, Hy. rewrite Hx, Hy.
  pose proof (lex_spec a b) as H.
  destruct (lex a b); split; try discriminate; try reflexivity; try tauto.
  intros [Hab Hne]. destruct H as [Hba _]. destruct Hne. now apply le3_antisym.
Qed.

Lemma eqb_ranked : (x =? y)%float = true <-> a = b.
Proof.
  rewrite FloatAxioms.eqb_spec. unfold SFeqb. rewrite SFcompare_rank.
  unfold frank in Hx, Hy. rewrite Hx, Hy.
  pose proof (lex_spec a b) as H.
  destruct (lex a b); split; try discriminate; try reflexivity; tauto.
Qed.
End Ranked.

Lemma leb_ordered x y : (x <=? y)%float = true -> ordered x /\ ordered y.
Proof.
  rewrite FloatAxioms.leb_spec. unfold SFleb, ordered, frank. rewrite SFcompare_rank.
  destruct (rank (Prim2SF x)), (rank (Prim2SF y)); try discriminate; eauto.
Qed.

Lemma ltb_ordered x y : (x <? y)%float = true -> ordered x /\ ordered y.
Proof.
  rewrite FloatAxioms.ltb_spec. unfold SFltb, ordered, frank. rewrite SFcompare_rank.
  destruct (rank (Prim2SF x)), (rank (Prim2SF y)); try discriminate; eauto.
Qed.

Lemma eqb_ordered x y : (x =? y)%float = true -> ordered x /\ ordered y.
Proof.
  rewrite FloatAxioms.eqb_spec. unfold SFeqb, ordered, frank. rewrite SFcompare_rank.
  destruct (rank (Prim2SF x)), (rank (Prim2SF y)); try discriminate; eauto.
Qed.

Lemma leb_refl x : ordered x -> (x <=? x)%float = true.
Proof. intros [a Ha]. apply (leb_ranked x x a a Ha Ha), le3_refl. Qed.

Lemma leb_trans x y z :
  (x <=? y)%float = true -> (y <=? z)%float = true -> (x <=? z)%float = true.
Proof.
  intros Hxy Hyz.
  destruct (leb_ordered _ _ Hxy) as [[a Ha] [b Hb]].
  destruct (leb_ordered _ _ Hyz) as [_ [c Hc]].
  apply (leb_ranked x y a b Ha Hb) in Hxy. apply (leb_ranked y z b c Hb Hc) in Hyz.
  apply (leb_ranked x z a c Ha Hc). eapply le3_trans; eassumption.
Qed.

Lemma leb_total x y :
  ordered x -> ordered y -> (x <=? y)%float = false -> (y <=? x)%float = true.
Proof.
  intros [a Ha] [b Hb] Hn. apply (leb_ranked y x b a Hb Ha).
  destruct (le3_total a b) as [H|H]; [|exact H].
  apply (leb_ranked x y a b Ha Hb) in H. congruence.
Qed.

Lemma ltb_leb x y : (x <? y)%float = true -> (x <=? y)%float = true.
Proof.
  intros H. destruct (ltb_ordered _ _ H) as [[a Ha] [b Hb]].
  apply (ltb_ranked x y a b Ha Hb) in H. apply (leb_ranked x y a b Ha Hb). tauto.
Qed.

Lemma not_ltb_leb x y :
  ordered x -> ordered y -> (x <? y)%float = false -> (y <=? x)%float = true.
Proof.
  intros [a Ha] [b Hb] Hn. apply (leb_ranked y x b a Hb Ha).
  destruct (le3_total b a) as [H|H]; [exact H|].
  destruct (decide (a = b)) as [->|Hne]; [apply le3_refl|].
  assert ((x <? y)%float = true) by (apply (ltb_ranked x y a b Ha Hb); tauto).
  congruence.
Qed.

Lemma ltb_not_leb x y : (x <? y)%float = true -> (y <=? x)%float = false.
Proof.
  intros H. destruct (ltb_ordered _ _ H) as [[a Ha] [b Hb]].
  apply (ltb_ranked x y a b Ha Hb) in H. destruct H as [Hab Hne].
  destruct (y <=? x)%float eqn:E; [|reflexivity].
  apply (leb_ranked y x b a Hb Ha) in E. destruct Hne. now apply le3_antisym.
Qed.

Lemma eqb_leb x y : (x =? y)%float = true -> (x <=? y)%float = true.
Proof.
  intros H. destruct (eqb_ordered _ _ H) as [[a Ha] [b Hb]].
  apply (eqb_ranked x y a b Ha Hb) in H. subst.
  apply (leb_ranked x y b b Ha Hb), le3_refl.
Qed.

End FloatOrderFacts.

(** *** Parsed numbers are never nan *)

Module Rounding.
Import FloatOrder.

Lemma shr_1_nonneg mrs : 0 <= shr_m mrs -> 0 <= shr_m (shr_1 mrs).
Proof.
  destruct mrs as [m r s]. destruct m as [|p|p]; simpl; try lia;
    destruct p; simpl; lia.
Qed.

Lemma iter_pos_invariant {A : Type} (P : A -> Prop) (f : A -> A) :
  (forall x, P x -> P (f x)) -> forall n x, P x -> P (SpecFloat.iter_pos f n x).
Proof.
  intros Hf. induction n as [n IH|n IH|]; intros x Hx; simpl; auto.
Qed.

Lemma shr_nonneg mrs e n : 0 <= shr_m mrs -> 0 <= shr_m (fst (shr mrs e n)).
Proof.
  intros H. destruct n as [|p|p]; simpl; try exact H.
  apply (iter_pos_invariant (fun x => 0 <= shr_m x)); [apply shr_1_nonneg|exact H].
Qed.

Lemma shr_record_of_loc_m m l : shr_m (shr_record_of_loc m l) = m.
Proof. destruct l as [|[]]; reflexivity. Qed.

Lemma shr_fexp_nonneg m e l : 0 <= m -> 0 <= shr_m (fst (shr_fexp prec emax m e l)).
Proof.
  intros H. unfold shr_fexp. apply shr_nonneg. now rewrite shr_record_of_loc_m.
Qed.

Lemma round_nearest_even_nonneg m l : 0 <= m -> 0 <= round_nearest_even m l.
Proof.
  intros H. destruct l as [|[]]; simpl; try lia. destruct (Z.even m); lia.
Qed.

Lemma binary_round_aux_not_nan sx mx ex lx :
  0 <= mx -> binary_round_aux prec emax sx mx ex lx <> S754_nan.
Proof.
  intros H. unfold binary_round_aux.
  pose proof (shr_fexp_nonneg mx ex lx H) as H1.
  destruct (shr_fexp prec emax mx ex lx) as [mrs' e']. simpl in H1.
  pose proof (shr_fexp_nonneg _ e' loc_Exact
                (round_nearest_even_nonneg _ (loc_of_shr_record mrs') H1)) as H2.
  destruct (shr_fexp prec emax _ e' loc_Exact) as [mrs'' e'']. simpl in H2.
  destruct (shr_m mrs'') as [|p|p]; try discriminate; [|lia].
  destruct (e'' <=? emax - prec); discriminate.
Qed.

Lemma binary_round_not_nan sx mx ex : binary_round prec emax sx mx ex <> S754_nan.
Proof.
  unfold binary_round. destruct (shl_align _ _ _) as [mz ez].
  apply binary_round_aux_not_nan. lia.
Qed.

Lemma binary_normalize_not_nan m e sz : binary_normalize prec emax m e sz <> S754_nan.
Proof.
  destruct m; simpl; try discriminate; apply binary_round_not_nan.
Qed.

Lemma rank_not_nan x : x <> S754_nan -> exists a, rank x = Some a.
Proof. destruct x; simpl; eauto. congruence. Qed.

Lemma ordered_iff x : ordered x <-> Prim2SF x <> S754_nan.
Proof.
  unfold ordered, frank. split.
  - intros [a Ha] E. rewrite E in Ha. discriminate.
  - apply rank_not_nan.
Qed.

Lemma ordered_opp x : ordered x -> ordered (- x)%float.
Proof.
  rewrite !ordered_iff, opp_spec. destruct (Prim2SF x); simpl; congruence.
Qed.

Lemma ordered_ldexp x e : ordered x -> ordered (Z.ldexp x e).
Proof.
  rewrite !ordered_iff, FloatLemmas.Z_ldexp_spec. unfold SFldexp.
  destruct (Prim2SF x); try congruence. intros _. apply binary_round_not_nan.
Qed.

Lemma ordered_of_uint63 n : ordered (of_uint63 n).
Proof. rewrite ordered_iff, of_uint63_spec. apply binary_normalize_not_nan. Qed.

Lemma ordered_SF2Prim x : x <> S754_nan -> ordered (SF2Prim x).
Proof.
  intros H. destruct x as [[]|[]| |s m e]; try congruence;
    [apply ordered_iff; vm_compute; discriminate ..|].
  unfold SF2Prim.
  assert (ordered (Z.ldexp (of_uint63 (Uint63.of_Z (Z.pos m))) e))
    by apply ordered_ldexp, ordered_of_uint63.
  destruct s; [apply ordered_opp|]; assumption.
Qed.

Lemma ordered_float_of_ratio n d : ordered (Py.float_of_ratio n d).
Proof. apply ordered_SF2Prim, binary_normalize_not_nan. Qed.

End Rounding.

(** *** The sign of a difference *)

Module Subtraction.
Import FloatOrder FloatOrderFacts Rounding.

Lemma digits2_pos_bounds m :
  2 ^ (Zpos (digits2_pos m) - 1) <= Zpos m < 2 ^ Zpos (digits2_pos m).
Proof.
  induction m as [m IH|m IH|]; simpl digits2_pos; [| |simpl; lia];
    set (d := Zpos (digits2_pos m)) in *;
    assert (2 ^ d = 2 * 2 ^ (d - 1)) as Hd
      by (rewrite <- Z.pow_succ_r by lia; f_equal; lia);
    rewrite Pos2Z.inj_succ; fold d;
    replace (Z.succ d - 1) with d by lia;
    rewrite Z.pow_succ_r by lia; lia.
Qed.

Lemma shr_1_div2 mrs : 0 <= shr_m mrs -> shr_m (shr_1 mrs) = shr_m mrs / 2.
Proof.
  destruct mrs as [m r s]. destruct m as [|p|p]; simpl; try lia; [reflexivity|].
  intros _. destruct p; simpl.
  - apply Z.div_unique with 1; lia.
  - apply Z.div_unique with 0; lia.
  - reflexivity.
Qed.

Lemma iter_shr_1_div n : forall mrs,
  0 <= shr_m mrs ->
  shr_m (SpecFloat.iter_pos shr_1 n mrs) = shr_m mrs / 2 ^ Zpos n.
Proof.
  assert (Hnn : forall mrs, 0 <= shr_m mrs -> 0 <= shr_m (shr_1 mrs)).
  { intros mrs H. rewrite shr_1_div2 by exact H. apply Z.div_pos; lia. }
  induction n as [n IH|n IH|]; intros mrs H; simpl SpecFloat.iter_pos.
  - assert (0 <= shr_m (shr_1 mrs)) as H1 by auto.
    assert (0 <= shr_m (SpecFloat.iter_pos shr_1 n (shr_1 mrs))) as H2.
    { rewrite IH by exact H1. apply Z.div_pos; lia. }
    rewrite IH, IH, shr_1_div2 by assumption.
    rewrite !Z.div_div by lia. f_equal.
    rewrite Pos2Z.inj_xI, Z.pow_add_r, Z.pow_mul_r by lia.
    change (2 ^ 2) with 4. rewrite Z.pow_1_r.
    replace (4 ^ Zpos n) with (2 ^ Zpos n * 2 ^ Zpos n).
    + lia.
    + rewrite <- Z.pow_add_r by lia. replace (Zpos n + Zpos n) with (2 * Zpos n) by lia.
      rewrite Z.pow_mul_r by lia. reflexivity.
  - assert (0 <= shr_m (SpecFloat.iter_pos shr_1 n mrs)) as H2.
    { rewrite IH by exact H. apply Z.div_pos; lia. }
    rewrite IH, IH by assumption.
    rewrite !Z.div_div by lia. f_equal.
    rewrite Pos2Z.inj_xO. rewrite <- Z.pow_add_r by lia. f_equal. lia.
  - rewrite shr_1_div2 by exact H. reflexivity.
Qed.

Lemma shr_fexp_pos m e l :
  1 <= m -> emin64 <= e ->
  1 <= shr_m (fst (shr_fexp prec emax m e l)) /\
  emin64 <= snd (shr_fexp prec emax m e l).
Proof.
  intros Hm He. unfold shr_fexp, shr.
  destruct m as [|p|p]; try lia. simpl Zdigits2.
  pose proof (digits2_pos_bounds p) as Hd.
  set (d := Zpos (digits2_pos p)) in *.
  assert (fexp prec emax (d + e) - e <= d - 1) as Hn
    by (unfold fexp, emin64, SpecFloat.emin, prec, emax in *; lia).
  destruct (fexp prec emax (d + e) - e) as [|n|n] eqn:En; simpl fst; simpl snd.
  - rewrite shr_record_of_loc_m. lia.
  - split; [|lia]. rewrite iter_shr_1_div by (rewrite shr_record_of_loc_m; lia).
    rewrite shr_record_of_loc_m. apply Z.div_le_lower_bound; [lia|].
    rewrite Z.mul_1_r. apply Z.le_trans with (2 ^ (d - 1)); [|lia].
    apply Z.pow_le_mono_r; lia.
  - rewrite shr_record_of_loc_m. lia.
Qed.

Lemma round_nearest_even_ge m l : m <= round_nearest_even m l.
Proof. destruct l as [|[]]; simpl; try lia. destruct (Z.even m); lia. Qed.

(** A non-zero mantissa at an exponent of the format rounds to a non-zero
    number of the same sign. *)
Lemma binary_round_aux_signed sx mx ex lx :
  1 <= mx -> emin64 <= ex -> signed sx (binary_round_aux prec emax sx mx ex lx).
Proof.
  intros Hm He. unfold binary_round_aux.
  destruct (shr_fexp_pos mx ex lx Hm He) as [H1 H1e].
  destruct (shr_fexp prec emax mx ex lx) as [mrs' e']. simpl in H1, H1e.
  pose proof (round_nearest_even_ge (shr_m mrs') (loc_of_shr_record mrs')) as Hr.
  destruct (shr_fexp_pos (round_nearest_even (shr_m mrs') (loc_of_shr_record mrs'))
              e' loc_Exact ltac:(lia) H1e) as [H2 _].
  destruct (shr_fexp prec emax _ e' loc_Exact) as [mrs'' e'']. simpl in H2.
  destruct (shr_m mrs'') as [|p|p]; try lia.
  destruct (e'' <=? emax - prec); reflexivity.
Qed.

Lemma shl_align_spec mx ex ez :
  ez <= ex ->
  Zpos (fst (shl_align mx ex ez)) = Zpos mx * 2 ^ (ex - ez) /\
  snd (shl_align mx ex ez) = ez.
Proof.
  intros H. unfold shl_align.
  destruct (ez - ex) as [|d|d] eqn:E; try lia.
  - replace (ex - ez) with 0 by lia. simpl. split; lia.
  - replace (ex - ez) with (Zpos d) by lia. simpl fst; simpl snd. split; [|reflexivity].
    clear E H. induction d as [|d IH] using Pos.peano_ind.
    + simpl. lia.
    + rewrite Pos.iter_succ, Pos2Z.inj_xO, IH, Pos2Z.inj_succ, Z.pow_succ_r by lia. lia.
Qed.

Lemma binary_round_signed sx mx ex :
  emin64 <= ex -> signed sx (binary_round prec emax sx mx ex).
Proof.
  intros He. unfold binary_round.
  destruct (shl_align mx ex (fexp prec emax (Zpos (digits2_pos mx) + ex))) as [mz ez] eqn:E.
  apply binary_round_aux_signed; [lia|].
  unfold shl_align in E.
  destruct (fexp prec emax (Zpos (digits2_pos mx) + ex) - ex) eqn:En; inversion E; subst;
    try exact He.
  unfold fexp, emin64, SpecFloat.emin, prec, emax in *. lia.
Qed.

Lemma valid_finite s m e :
  SpecFloat.valid_binary prec emax (S754_finite s m e) = true ->
  emin64 <= e /\ Zpos (digits2_pos m) <= prec /\
  (e = emin64 \/ Zpos (digits2_pos m) = prec).
Proof.
  unfold SpecFloat.valid_binary, bounded, canonical_mantissa. intros H.
  apply andb_prop in H. destruct H as [H _]. apply Z.eqb_eq in H.
  unfold fexp, emin64, SpecFloat.emin, prec, emax in *. lia.
Qed.

(** Of two canonical mantissas, the one with the larger exponent is the
    larger once both are written at the smaller exponent. *)
Lemma aligned_lt s1 m1 e1 s2 m2 e2 :
  SpecFloat.valid_binary prec emax (S754_finite s1 m1 e1) = true ->
  SpecFloat.valid_binary prec emax (S754_finite s2 m2 e2) = true ->
  e1 < e2 ->
  Zpos m1 < Zpos m2 * 2 ^ (e2 - e1).
Proof.
  intros H1 H2 Hlt.
  apply valid_finite in H1. apply valid_finite in H2.
  pose proof (digits2_pos_bounds m1) as B1. pose proof (digits2_pos_bounds m2) as B2.
  assert (Zpos (digits2_pos m2) = prec) as D2 by lia. rewrite D2 in B2.
  assert (2 ^ Zpos (digits2_pos m1) <= 2 ^ prec) as P1 by (apply Z.pow_le_mono_r; lia).
  assert (2 ^ 1 <= 2 ^ (e2 - e1)) as P2 by (apply Z.pow_le_mono_r; lia).
  assert (2 ^ prec = 2 ^ (prec - 1) * 2 ^ 1) as P3 by reflexivity.
  assert (2 ^ (prec - 1) * 2 ^ 1 <= Zpos m2 * 2 ^ (e2 - e1)) as P4
    by (apply Z.mul_le_mono_nonneg; lia).
  lia.
Qed.

Lemma SFsub_nonneg_le x y :
  SpecFloat.valid_binary prec emax x = true -> SpecFloat.valid_binary prec emax y = true ->
  SFleb (S754_zero false) (SFsub prec emax x y) = true -> SFleb y x = true.
Proof.
  intros Vx Vy.
  destruct x as [sx|sx| |sx mx ex], y as [sy|sy| |sy my ey];
    try (repeat match goal with s : bool |- _ => destruct s end;
         simpl; solve [reflexivity | discriminate]).
  unfold SFsub.
  pose proof (valid_finite _ _ _ Vx) as (Ex & _ & _).
  pose proof (valid_finite _ _ _ Vy) as (Ey & _ & _).
  set (ez := Z.min ex ey).
  destruct (shl_align_spec mx ex ez ltac:(lia)) as [Ax _].
  destruct (shl_align_spec my ey ez ltac:(lia)) as [Ay _].
  assert (ey < ex -> Zpos my < Zpos mx * 2 ^ (ex - ey)) as F1
    by (apply aligned_lt with sy sx; assumption).
  assert (ex < ey -> Zpos mx < Zpos my * 2 ^ (ey - ex)) as F2
    by (apply aligned_lt with sx sy; assumption).
  destruct (cond_Zopp sx (Zpos (fst (shl_align mx ex ez)))
            - cond_Zopp sy (Zpos (fst (shl_align my ey ez)))) as [|p|p] eqn:EM.
  3: { simpl binary_normalize. intros H. exfalso.
       pose proof (binary_round_signed true p ez ltac:(lia)) as S.
       destruct (binary_round prec emax true p ez) as [|s| |s m e]; simpl in S;
         try contradiction; subst; discriminate. }
  all: intros _; rewrite Ax, Ay in EM; clear Ax Ay;
    apply (SFleb_le3 (S754_finite sy my ey) (S754_finite sx mx ex) _ _ eq_refl eq_refl); unfold le3; subst ez;
    destruct (Z.lt_trichotomy ex ey) as [L|[E|G]];
    [rewrite Z.min_l in EM by lia; replace (ex - ex) with 0 in EM by lia
    |subst ey; rewrite Z.min_id in EM; replace (ex - ex) with 0 in EM by lia
    |rewrite Z.min_r in EM by lia; replace (ey - ey) with 0 in EM by lia];
    rewrite Z.pow_0_r in EM; destruct sx, sy; unfold cond_Zopp in EM; simpl; lia.
Qed.

Lemma sub_nonneg_le (x y : float) :
  (0 <=? x - y)%float = true -> (y <=? x)%float = true.
Proof.
  rewrite !FloatAxioms.leb_spec, sub_spec.
  replace (Prim2SF 0) with (S754_zero false) by (vm_compute; reflexivity).
  apply SFsub_nonneg_le; apply Prim2SF_valid.
Qed.

End Subtraction.

(** *** [min] and [max] *)

Module MinMax.
Import FloatOrder FloatOrderFacts.

Lemma fold_min l : forall acc,
  ordered acc -> Forall ordered l ->
  let m := fold_left (fun acc y => if (y <? acc)%float then y else acc) l acc in
  (m = acc \/ In m l) /\ (m <=? acc)%float = true /\
  (forall y, In y l -> (m <=? y)%float = true).
Proof.
  induction l as [|x l IH]; intros acc Hacc Hl; simpl.
  - split; [now left|]. split; [now apply leb_refl|]. intros y [].
  - inversion Hl as [|? ? Hx Hl']; subst.
    destruct (x <? acc)%float eqn:E.
    + destruct (IH x Hx Hl') as (Hin & Hle & Hall).
      split; [right; destruct Hin as [->|Hin]; [now left|now right]|].
      split; [eapply leb_trans; [exact Hle|now apply ltb_leb]|].
      intros y [<-|Hy]; [exact Hle|now apply Hall].
    + destruct (IH acc Hacc Hl') as (Hin & Hle & Hall).
      split; [destruct Hin as [->|Hin]; [now left|right; now right]|].
      split; [exact Hle|].
      intros y [<-|Hy]; [|now apply Hall].
      eapply leb_trans; [exact Hle|]. now apply not_ltb_leb.
Qed.

Lemma fold_max l : forall acc,
  ordered acc -> Forall ordered l ->
  let m := fold_left (fun acc y => if (acc <? y)%float then y else acc) l acc in
  (m = acc \/ In m l) /\ (acc <=? m)%float = true /\
  (forall y, In y l -> (y <=? m)%float = true).
Proof.
  induction l as [|x l IH]; intros acc Hacc Hl; simpl.
  - split; [now left|]. split; [now apply leb_refl|]. intros y [].
  - inversion Hl as [|? ? Hx Hl']; subst.
    destruct (acc <? x)%float eqn:E.
    + destruct (IH x Hx Hl') as (Hin & Hle & Hall).
      split; [right; destruct Hin as [->|Hin]; [now left|now right]|].
      split; [exact (leb_trans _ _ _ (ltb_leb _ _ E) Hle)|].
      intros y [<-|Hy]; [exact Hle|now apply Hall].
    + destruct (IH acc Hacc Hl') as (Hin & Hle & Hall).
      split; [destruct Hin as [->|Hin]; [now left|right; now right]|].
      split; [exact Hle|].
      intros y [<-|Hy]; [|now apply Hall].
      eapply leb_trans; [|exact Hle]. now apply not_ltb_leb.
Qed.

Lemma min_list_is_min l : Forall ordered l -> is_min_of l (Py.min_list l).
Proof.
  destruct l as [|x l]; [reflexivity|]. intros H.
  inversion H as [|? ? Hx Hl]; subst. simpl.
  destruct (fold_min l x Hx Hl) as (Hin & Hle & Hall).
  split; [destruct Hin as [->|Hin]; [now left|now right]|].
  intros y [<-|Hy]; [exact Hle|now apply Hall].
Qed.

Lemma max_list_is_max l : Forall ordered l -> is_max_of l (Py.max_list l).
Proof.
  destruct l as [|x l]; [reflexivity|]. intros H.
  inversion H as [|? ? Hx Hl]; subst. simpl.
  destruct (fold_max l x Hx Hl) as (Hin & Hle & Hall).
  split; [destruct Hin as [->|Hin]; [now left|now right]|].
  intros y [<-|Hy]; [exact Hle|now apply Hall].
Qed.

End MinMax.

(** *** Sorting *)

Module SortFacts.
Import FloatOrder FloatOrderFacts.

Section Sorting.
Context {A : Type} (key : A -> float).

Lemma insert_desc_In x y l : In y (insert_desc key x l) <-> y = x \/ In y l.
Proof.
  induction l as [|z l IH]; simpl.
  - intuition congruence.
  - destruct (Py.ge (key x) (key z)); simpl; [intuition congruence|].
    rewrite IH. intuition congruence.
Qed.

Lemma sort_values_desc_In y l : In y (sort_values_desc key l) <-> In y l.
Proof.
  induction l as [|x l IH]; simpl; [reflexivity|].
  rewrite insert_desc_In, IH. intuition congruence.
Qed.

Lemma desc_trans x y z : desc key x y -> desc key y z -> desc key x z.
Proof. unfold desc, Py.ge. intros Hxy Hyz. exact (leb_trans _ _ _ Hyz Hxy). Qed.

Lemma insert_desc_sorted x l :
  ordered (key x) -> Forall (fun y => ordered (key y)) l ->
  StronglySorted (desc key) l -> StronglySorted (desc key) (insert_desc key x l).
Proof.
  intros Hx. induction l as [|z l IH]; intros Hl Hs; simpl.
  - repeat constructor.
  - inversion Hl as [|? ? Hz Hl']; subst. inversion Hs as [|? ? Hs' Hzl]; subst.
    destruct (Py.ge (key x) (key z)) eqn:E.
    + constructor; [exact Hs|]. constructor; [exact E|].
      eapply Forall_impl; [exact Hzl|]. intros y Hy. now apply desc_trans with z.
    + constructor; [now apply IH|].
      apply List.Forall_forall. intros y Hy. apply (proj1 (insert_desc_In x y l)) in Hy.
      destruct Hy as [->|Hy].
      * unfold desc, Py.ge in *. now apply leb_total.
      * rewrite List.Forall_forall in Hzl. now apply Hzl.
Qed.

Lemma sort_values_desc_sorted l :
  Forall (fun y => ordered (key y)) l -> StronglySorted (desc key) (sort_values_desc key l).
Proof.
  induction l as [|x l IH]; intros Hl; simpl; [constructor|].
  inversion Hl as [|? ? Hx Hl']; subst.
  apply insert_desc_sorted; [exact Hx| |now apply IH].
  apply List.Forall_forall. intros y Hy.
  apply (proj1 (sort_values_desc_In y l)) in Hy.
  rewrite List.Forall_forall in Hl'. now apply Hl'.
Qed.

End Sorting.
End SortFacts.

(** *** Strings, patterns and the numeric extractor *)

Lemma startswith_truthy p s :
  Str.truthy p = true -> Str.startswith p s = true -> Str.truthy s = true.
Proof. destruct p, s; simpl; congruence. Qed.

Lemma contains_truthy p s :
  Str.truthy p = true -> Str.contains p s = true -> Str.truthy s = true.
Proof. destruct p, s; simpl; congruence. Qed.

Lemma startswith_head c p d q s :
  c <> d -> Str.startswith (String c p) s = true -> Str.startswith (String d q) s = false.
Proof.
  intros Hne. destruct s as [|a s]; simpl; [reflexivity|].
  destruct (Ascii.eqb_spec c a) as [->|]; simpl; [|discriminate].
  intros _. destruct (Ascii.eqb_spec d a); [congruence|reflexivity].
Qed.

Lemma run_rep_chr_stuck lo hi p s k :
  match Re.rest s with
  | c :: _ => p c = false
  | [] => True
  end ->
  Re.run (Re.Rep (S lo) hi (Re.Chr p)) s k = None.
Proof.
  intros H. simpl. destruct hi as [[|h]|]; [reflexivity| |];
    destruct (Re.rest s) as [|c tl]; simpl; try reflexivity; rewrite H; reflexivity.
Qed.

Lemma run_chr p s k :
  Re.run (Re.Chr p) s k =
  match Re.rest s with
  | c :: tl =>
      if p c then k (Re.mkState (S (Re.pos s)) (Some c) tl (Re.caps s)) else None
  | [] => None
  end.
Proof. reflexivity. Qed.

Lemma run_opt s r k :
  Re.run (Re.opt r) s k =
  match Re.run r s (fun s' => if (Re.pos s' =? Re.pos s)%nat then None else k s') with
  | Some x => Some x
  | None => k s
  end.
Proof.
  unfold Re.opt. simpl.
  f_equal. 
  destruct (length (Re.rest s)); reflexivity.
Qed.

Lemma no_digit_head l :
  no_digit l = true ->
  match l with
  | c :: _ => Str.is_digit c = false
  | [] => True
  end.
Proof.
  destruct l as [|c tl]; simpl; [trivial|].
  intros H. apply andb_prop in H. destruct H as [H _].
  now apply negb_true_iff in H.
Qed.

Lemma no_digit_tail c l : no_digit (c :: l) = true -> no_digit l = true.
Proof. simpl. intros H. apply andb_prop in H. tauto. Qed.

Lemma run_signed_digits_stuck lo hi r s k :
  no_digit (Re.rest s) = true ->
  Re.run (Re.Seq (Re.opt (Re.lit "-")) (Re.Seq (Re.Rep (S lo) hi Re.digit) r)) s k = None.
Proof.
  intros H.
  change (Re.run (Re.opt (Re.lit "-")) s
            (fun s' => Re.run (Re.Rep (S lo) hi Re.digit) s' (fun s'' => Re.run r s'' k)) = None).
  rewrite run_opt. unfold Re.digit.
  rewrite (run_rep_chr_stuck lo hi _ s) by (apply no_digit_head, H).
  unfold Re.lit. rewrite run_chr.
  destruct (Re.rest s) as [|c tl] eqn:E; [reflexivity|].
  destruct (Ascii.eqb "-" c); [|reflexivity].
  cbv beta. cbn [Re.pos]. rewrite (proj2 (Nat.eqb_neq _ _)) by lia.
  rewrite run_rep_chr_stuck; [reflexivity|].
  cbn [Re.rest]. apply no_digit_head. eapply no_digit_tail, H.
Qed.

Lemma run_num_re_no_digit s k :
  no_digit (Re.rest s) = true -> Re.run num_re s k = None.
Proof.
  intros H. unfold num_re.
  change (match Re.run (Re.seqs [Re.opt (Re.lit "-"); Re.Rep 1 (Some 3%nat) Re.digit;
                                 Re.star (Re.Seq (Re.lit ",") (Re.exactly 3 Re.digit));
                                 Re.opt (Re.Seq (Re.lit ".") (Re.plus Re.digit))]) s k with
          | Some x => Some x
          | None => Re.run (Re.seqs [Re.opt (Re.lit "-"); Re.plus Re.digit;
                                     Re.opt (Re.Seq (Re.lit ".") (Re.plus Re.digit))]) s k
          end = None).
  unfold Re.seqs, Re.plus.
  rewrite !run_signed_digits_stuck by exact H. reflexivity.
Qed.

Lemma search_from_eq r whole p pv l :
  Re.search_from r whole p pv l =
  match Re.run r (Re.mkState p pv l []) Some with
  | Some s => Some (Re.mkMatch whole (p, Re.pos s) (Re.caps s))
  | None =>
      match l with
      | [] => None
      | c :: tl => Re.search_from r whole (S p) (Some c) tl
      end
  end.
Proof. destruct l; reflexivity. Qed.

Lemma search_num_re_no_digit whole l p pv :
  no_digit l = true -> Re.search_from num_re whole p pv l = None.
Proof.
  revert p pv. induction l as [|c tl IH]; intros p pv H;
    rewrite search_from_eq, run_num_re_no_digit by exact H.
  - reflexivity.
  - apply IH. eapply no_digit_tail, H.
Qed.

(** [get_num] on the three sample texts: a price with a thousands separator,
    a text without a number, and a negative integer. *)
Theorem get_num_examples :
  get_num (Some "$1,234.50"%string) = Ret (Some 1234.5%float) /\
  get_num (Some "no numbers here"%string) = Ret None /\
  get_num (Some "-42"%string) = Ret (Some (-42)%float).
Proof. repeat split; vm_compute; reflexivity. Qed.

(** The first alternative of the pattern takes at most three leading digits
    and wins whenever it matches: a price of four or more integer digits
    written without separators is read as its first three digits. *)
Theorem get_num_unseparated_thousands :
  option_map (fun m => Re.group m 0) (Re.search num_re "$1234.50")
  = Some (Some "123"%string) /\
  get_num (Some "$1234.50"%string) = Ret (Some 123%float).
Proof. split; vm_compute; reflexivity. Qed.

Lemma get_num_never_raises text : exists r, get_num text = Ret r.
Proof.
  unfold get_num, try_except.
  destruct (get_num_body text ≫= _); eauto.
Qed.

(** C10: [get_num] is total: on every input, [None] and text without a
    number included, it returns a float or [None] and raises nothing; the
    listing scraper passes [None] for a missing price element, and the
    anchor is then skipped without an exception. *)
Theorem get_num_total :
  (forall text : option string,
      exists r : option float, get_num text = Ret r) /\
  get_num None = Ret None /\
  (forall s : string,
      no_digit (Str.chars s) = true -> get_num (Some s) = Ret None) /\
  (forall (urljoin : string -> string -> exc string) (threshold : float) (a : anchor),
      a_price_final a = None \/ a_price_original a = None ->
      scrape_anchor urljoin threshold a = Ret []).
Proof.
  split; [exact get_num_never_raises|].
  split; [reflexivity|].
  split.
  - intros s H. unfold get_num, get_num_body, Re.search.
    rewrite search_num_re_no_digit by exact H. reflexivity.
  - intros urljoin threshold a H. unfold scrape_anchor.
    destruct (get_num_never_raises (a_price_final a)) as [pf Hpf].
    destruct (get_num_never_raises (a_price_original a)) as [po Hpo].
    rewrite Hpf, Hpo. cbn.
    destruct H as [H|H]; rewrite H in *.
    + inversion Hpf. reflexivity.
    + inversion Hpo. destruct pf; reflexivity.
Qed.

Lemma get_num_total_witness :
  get_num (Some "no numbers here"%string) = Ret None /\
  scrape_anchor Sample.urljoin 0%float
    (mkAnchor None (Some "$443.00"%string) None None "/p"%string) = Ret [].
Proof.
  split.
  - apply (proj1 (proj2 (proj2 get_num_total))). reflexivity.
  - apply (proj2 (proj2 (proj2 get_num_total))). left. reflexivity.
Defined.

(** *** Listing scraper *)

Module ScrapeFacts.
Import FloatOrder FloatOrderFacts.

Section Scrape.
Variable urljoin : string -> string -> exc string.
Variable set_page_param : string -> nat -> string.
Variable w : web.

Lemma scrape_anchor_rows threshold a rows :
  scrape_anchor urljoin threshold a = Ret rows ->
  forall r, In r rows -> row_from threshold a r.
Proof.
  unfold scrape_anchor, row_from.
  destruct (get_num (a_price_final a)) as [pf|] eqn:Ef; [|discriminate].
  destruct (get_num (a_price_original a)) as [po|] eqn:Eo; [|discriminate].
  step.
  destruct pf as [pf|], po as [po|];
    [destruct (Py.truthy_float pf), (Py.truthy_float po);
      [destruct (Py.ge (po - pf) threshold) eqn:E;
        [destruct (if Str.truthy _ then _ else _) as [link|]; [|discriminate]|]|..]|..];
    intros [= <-] r Hr; simpl in Hr; try contradiction.
  destruct Hr as [<-|[]]. simpl. auto.
Qed.

(** An anchor whose link resolves gives its rows. *)
Lemma scrape_anchor_total threshold a :
  href_resolves urljoin a ->
  exists rows, scrape_anchor urljoin threshold a = Ret rows.
Proof.
  intros [u Hu]. unfold scrape_anchor.
  destruct (get_num_never_raises (a_price_final a)) as [pf ->].
  destruct (get_num_never_raises (a_price_original a)) as [po ->].
  step. destruct pf as [pf|], po as [po|]; eauto.
  destruct (Py.truthy_float pf), (Py.truthy_float po); eauto.
  destruct (Py.ge (po - pf) threshold); eauto.
  rewrite Hu. destruct (Str.truthy _); eauto.
Qed.

Lemma scrape_anchors_rows threshold items rows :
  scrape_anchors urljoin threshold items = Ret rows ->
  forall r, In r rows -> exists a, In a items /\ row_from threshold a r.
Proof.
  revert rows. induction items as [|a items IH]; intros rows; simpl.
  - intros [= <-] r [].
  - destruct (scrape_anchor urljoin threshold a) as [ra|] eqn:Ea; [|discriminate].
    destruct (scrape_anchors urljoin threshold items) as [rs|] eqn:Es; [|discriminate].
    step. intros [= <-] r Hr. apply in_app_or in Hr. destruct Hr as [Hr|Hr].
    + exists a. split; [now left|]. eapply scrape_anchor_rows; eassumption.
    + destruct (IH rs eq_refl r Hr) as (b & Hb & Hrow). exists b. split; [now right|exact Hrow].
Qed.

Lemma scrape_anchors_total threshold items :
  Forall (href_resolves urljoin) items ->
  exists rows, scrape_anchors urljoin threshold items = Ret rows.
Proof.
  induction 1 as [|a items Ha _ [rs IH]]; simpl; [eauto|].
  destruct (scrape_anchor_total threshold a Ha) as [ra ->]. rewrite IH. step. eauto.
Qed.

Lemma scrape_pages_rows start_url threshold fuel : forall page rows0 rows,
  scrape_pages urljoin set_page_param w fuel start_url threshold page rows0
  = Some (Ret rows) ->
  (forall r, In r rows0 -> scraped set_page_param w start_url threshold r) ->
  forall r, In r rows -> scraped set_page_param w start_url threshold r.
Proof.
  induction fuel as [|fuel IH]; intros page rows0 rows; simpl; [discriminate|].
  destruct (get_listing w (_turn_page set_page_param start_url page))
    as [[[|a items]|]|] eqn:Eg; try discriminate.
  - intros [= <-]. auto.
  - destruct (scrape_anchors urljoin threshold (a :: items)) as [new|] eqn:En;
      [|discriminate].
    intros Hrec H0. apply (IH _ _ _ Hrec).
    intros r Hr. apply in_app_or in Hr. destruct Hr as [Hr|Hr]; [now apply H0|].
    destruct (scrape_anchors_rows _ _ _ En r Hr) as (b & Hb & Hrow).
    exists page, (a :: items), b. auto.
Qed.

Lemma scrape_pages_returns start_url threshold k : forall page rows0 fuel,
  pages_full set_page_param w start_url page k ->
  hrefs_resolve urljoin set_page_param w start_url page k ->
  get_listing w (_turn_page set_page_param start_url (page + k)) = Ret (Document []) ->
  (k < fuel)%nat ->
  exists rows,
    scrape_pages urljoin set_page_param w fuel start_url threshold page rows0
    = Some (Ret rows).
Proof.
  induction k as [|k IH]; intros page rows0 fuel Hfull Hres Hend Hfuel;
    (destruct fuel as [|fuel]; [lia|]); simpl.
  - rewrite Nat.add_0_r in Hend. rewrite Hend. eauto.
  - destruct (Hfull page ltac:(lia)) as (items & Hitems & Hne). rewrite Hitems.
    destruct items as [|a items]; [congruence|].
    destruct (scrape_anchors_total threshold (a :: items)) as [new ->].
    { apply List.Forall_forall. intros b Hb. apply (Hres page (a :: items) b); auto. lia. }
    apply IH; [| | |lia].
    + intros p Hp. apply Hfull. lia.
    + intros p its b Hp. apply Hres. lia.
    + replace (S page + k)%nat with (page + S k)%nat by lia. exact Hend.
Qed.

End Scrape.
End ScrapeFacts.

Lemma scrape_iconic_inv urljoin set_page_param w fuel brand threshold rows :
  scrape_iconic urljoin set_page_param w fuel brand threshold = Some (Ret rows) ->
  exists rows0,
    scrape_pages urljoin set_page_param w fuel ("https://www.theiconic.com.au/" +:+ brand)
      threshold 1 [] = Some (Ret rows0) /\
    rows = sort_values_desc r_diff rows0.
Proof.
  unfold scrape_iconic.
  destruct (scrape_pages _ _ _ _ _ _ _ _) as [[rows0|]|]; try discriminate.
  intros [= <-]. eauto.
Qed.

Lemma scrape_iconic_scraped urljoin set_page_param w fuel brand threshold rows :
  scrape_iconic urljoin set_page_param w fuel brand threshold = Some (Ret rows) ->
  forall r, In r rows ->
    scraped set_page_param w ("https://www.theiconic.com.au/" +:+ brand) threshold r.
Proof.
  intros H r Hr. destruct (scrape_iconic_inv _ _ _ _ _ _ _ H) as (rows0 & H0 & ->).
  apply SortFacts.sort_values_desc_In in Hr.
  eapply ScrapeFacts.scrape_pages_rows; [exact H0| |exact Hr]. intros ? [].
Qed.

(** C7: every row of the table returned by [scrape_iconic] comes from an
    anchor of a fetched page whose two price texts both yield a number, its
    [diff] is [was - price] and is at least the threshold, and the rows are
    in descending order of [diff].  When [urljoin] returns on the links of
    the pages, the table is returned as soon as the fuel exceeds the number
    of non-empty pages before the first empty one. *)
Theorem scrape_iconic_rows :
  forall (urljoin : string -> string -> exc string)
         (set_page_param : string -> nat -> string) (w : web)
         (brand : string) (threshold : float),
    (forall (fuel : nat) (rows : list row),
        scrape_iconic urljoin set_page_param w fuel brand threshold = Some (Ret rows) ->
        Forall (scraped set_page_param w ("https://www.theiconic.com.au/" +:+ brand)
                  threshold) rows /\
        StronglySorted (desc r_diff) rows) /\
    (forall n : nat,
        (forall p, (1 <= p <= n)%nat ->
           exists items,
             get_listing w (_turn_page set_page_param
                              ("https://www.theiconic.com.au/" +:+ brand) p)
             = Ret (Document items)
             /\ items <> []) ->
        (forall p items a, (1 <= p <= n)%nat ->
           get_listing w (_turn_page set_page_param
                            ("https://www.theiconic.com.au/" +:+ brand) p)
           = Ret (Document items) ->
           In a items -> href_resolves urljoin a) ->
        get_listing w (_turn_page set_page_param
                         ("https://www.theiconic.com.au/" +:+ brand) (S n))
        = Ret (Document []) ->
        forall fuel : nat, (n < fuel)%nat ->
          exists rows,
            scrape_iconic urljoin set_page_param w fuel brand threshold = Some (Ret rows)).
Proof.
  intros urljoin set_page_param w brand threshold. split.
  - intros fuel rows H.
    pose proof (scrape_iconic_scraped _ _ _ _ _ _ _ H) as Hall.
    split; [apply List.Forall_forall; exact Hall|].
    destruct (scrape_iconic_inv _ _ _ _ _ _ _ H) as (rows0 & H0 & ->).
    apply SortFacts.sort_values_desc_sorted.
    apply List.Forall_forall. intros r Hr.
    apply (proj2 (SortFacts.sort_values_desc_In r_diff r rows0)) in Hr.
    destruct (Hall r Hr) as (page & items & a & _ & _ & _ & _ & _ & Hge).
    exact (proj2 (FloatOrderFacts.leb_ordered _ _ Hge)).
  - intros n Hfull Hres Hend fuel Hfuel. unfold scrape_iconic.
    destruct (ScrapeFacts.scrape_pages_returns urljoin set_page_param w
                ("https://www.theiconic.com.au/" +:+ brand) threshold n 1 [] fuel)
      as [rows ->]; eauto.
    + intros p Hp. apply Hfull. lia.
    + intros p items a Hp. apply Hres. lia.
Qed.

Lemma scrape_iconic_rows_witness :
  Forall (scraped Sample.set_page_param Sample.web_listing
            "https://www.theiconic.com.au/womens-sale" 200%float)
    [mkRow "Camilla Kaftan" 100 1100 1000 "https://www.theiconic.com.au/d";
     mkRow "Zimmermann Silk Dress" 220 443 223 "https://www.theiconic.com.au/a"] /\
  StronglySorted (desc r_diff)
    [mkRow "Camilla Kaftan" 100 1100 1000 "https://www.theiconic.com.au/d";
     mkRow "Zimmermann Silk Dress" 220 443 223 "https://www.theiconic.com.au/a"].
Proof.
  apply (proj1 (scrape_iconic_rows Sample.urljoin Sample.set_page_param
                  Sample.web_listing "womens-sale" 200%float) 3%nat).
  vm_compute. reflexivity.
Defined.

(** C8, as the code has it: with the threshold -100 the anchor priced 200.00
    now and 150.00 before passes the filter, and the table holds a row whose
    [diff] is -50. *)
Lemma negative_diff_row :
  scrape_iconic Sample.urljoin Sample.set_page_param Sample.web_listing 3
    "womens-sale" (-100)%float
  = Some (Ret [mkRow "Camilla Kaftan" 100 1100 1000 "https://www.theiconic.com.au/d";
               mkRow "Zimmermann Silk Dress" 220 443 223 "https://www.theiconic.com.au/a";
               mkRow "Aje Top" 200 150 (-50) "https://www.theiconic.com.au/b"]) /\
  Py.ge (-50)%float 0%float = false /\
  (200 <=? 150)%float = false.
Proof. repeat split; vm_compute; reflexivity. Qed.

(** C8, amended: every row returned by [scrape_iconic] has
    [diff = was - price] at least the threshold passed in; hence, whenever
    the threshold is itself at least 0 (as are the defaults 0 and 200),
    [diff >= 0] and [price <= was]. *)
Theorem diff_at_least_threshold :
  forall (urljoin : string -> string -> exc string)
         (set_page_param : string -> nat -> string) (w : web)
         (fuel : nat) (brand : string) (threshold : float) (rows : list row),
    scrape_iconic urljoin set_page_param w fuel brand threshold = Some (Ret rows) ->
    forall r : row, In r rows ->
      r_diff r = (r_was r - r_price r)%float /\
      Py.ge (r_diff r) threshold = true /\
      (Py.ge threshold 0 = true ->
       Py.ge (r_diff r) 0 = true /\ (r_price r <=? r_was r)%float = true).
Proof.
  intros urljoin set_page_param w fuel brand threshold rows H r Hr.
  destruct (scrape_iconic_scraped _ _ _ _ _ _ _ H r Hr)
    as (page & items & a & _ & _ & _ & _ & Hdiff & Hge).
  split; [exact Hdiff|]. split; [exact Hge|].
  unfold Py.ge in *. intros H0.
  pose proof (FloatOrderFacts.leb_trans _ _ _ H0 Hge) as Hpos.
  split; [exact Hpos|].
  rewrite Hdiff in Hpos. now apply Subtraction.sub_nonneg_le.
Qed.

Lemma diff_at_least_threshold_witness :
  r_diff (mkRow "Zimmermann Silk Dress" 220 443 223 "https://www.theiconic.com.au/a")
  = (443 - 220)%float /\
  Py.ge 223 200 = true /\
  Py.ge 223 0 = true /\
  (220 <=? 443)%float = true.
Proof.
  assert (r_diff (mkRow "Zimmermann Silk Dress" 220 443 223 "https://www.theiconic.com.au/a")
          = (443 - 220)%float /\
          Py.ge 223 200 = true /\
          (Py.ge 200 0 = true ->
           Py.ge 223 0 = true /\ (220 <=? 443)%float = true)) as (H1 & H2 & H3).
  { refine (diff_at_least_threshold Sample.urljoin Sample.set_page_param
              Sample.web_listing 3%nat "womens-sale" 200%float _ _
              (mkRow "Zimmermann Silk Dress" 220 443 223 "https://www.theiconic.com.au/a") _).
    - vm_compute. reflexivity.
    - right. left. reflexivity. }
  split; [exact H1|]. split; [exact H2|]. apply H3. reflexivity.
Defined.

(** *** Product detail extractor *)

Lemma product_id_missing urljoin (it : item) (u link : string) :
  i_yotpo it = Some (Some u) ->
  urljoin "https://www.davidjones.com"%string u = Ret link ->
  Re.search id_re link = None ->
  get_product_info urljoin it = Raise AttributeError.
Proof.
  intros Hu Hl Hid. unfold get_product_info. rewrite Hu. step. rewrite Hl, Hid.
  reflexivity.
Qed.

(** C3, as the code has it: on a search result whose link has no trailing
    numeric segment, [get_product_info] raises [AttributeError] (from
    [id_match.group] on [None]) instead of returning an absent product id,
    and the exception leaves [compare_search]. *)
Theorem missing_product_id_raises :
  Re.search id_re "https://www.davidjones.com/product/zimmermann-silk-dress" = None /\
  get_product_info Sample.urljoin Sample.dress_without_id = Raise AttributeError /\
  compare_search Sample.urljoin Sample.quote Sample.web_without_id
    [Sample.candidate1; Sample.candidate2] default_sim_thresh
  = Raise AttributeError.
Proof. repeat split; vm_compute; reflexivity. Qed.

Module Prices.
Import FloatOrder Rounding.

Lemma ordered_zero : ordered 0%float.
Proof. apply ordered_iff. vm_compute. discriminate. Qed.

Lemma ordered_neg_zero : ordered (-0)%float.
Proof. apply ordered_iff. vm_compute. discriminate. Qed.

Lemma float_of_decimal_ordered s x : Str.float_of_decimal s = Ret x -> ordered x.
Proof.
  unfold Str.float_of_decimal.
  destruct (match Str.chars s with
            | "-"%char :: r => (true, r)
            | "+"%char :: r => (false, r)
            | _ => (false, Str.chars s)
            end) as [neg l1].
  destruct (Str.span_digits l1) as [ip l2].
  destruct (match l2 with
            | "."%char :: r => Str.span_digits r
            | _ => ([], l2)
            end) as [fp l3].
  destruct l3; [|discriminate].
  destruct (ip ++ fp); [discriminate|].
  destruct (_ =? 0).
  - destruct neg; intros [= <-]; [apply ordered_neg_zero|apply ordered_zero].
  - intros [= <-]. apply ordered_float_of_ratio.
Qed.



End Prices.


(** *** Offer-discount evaluator *)

(** The tiers of the gift-card rule. *)
Lemma gift_card_rule price_plain price_now offer_text discount :
  Str.contains "GIFT CARD" offer_text = true ->
  Str.startswith "EXTRA" offer_text = false ->
  Str.startswith "SAVE" offer_text = false ->
  Str.startswith "BUY" offer_text = false ->
  get_num (Some offer_text) = Ret (Some discount) ->
  Py.truthy_float discount = true ->
  apply_offer_discount (Some price_plain) price_now offer_text =
  Ret (if Py.ge price_plain 600 then Some (price_plain - 150)%float
       else if Py.ge price_plain 300 then Some (price_plain - 50)%float
       else if Py.ge price_plain 150 then Some (price_plain - 20)%float
       else None).
Proof.
  intros Hgc He Hs Hb Hnum Hd. unfold apply_offer_discount.
  rewrite (contains_truthy "GIFT CARD" offer_text eq_refl Hgc), Hnum. step.
  rewrite Hd, He, Hs, Hb, Hgc. step.
  unfold Py.ge.
  repeat match goal with
         | |- context [(?a <=? price_plain)%float] => destruct (a <=? price_plain)%float
         end; reflexivity.
Qed.

Lemma no_number_no_offer price_plain price_now offer_text :
  get_num (Some offer_text) = Ret None ->
  apply_offer_discount price_plain price_now offer_text = Ret None.
Proof.
  intros Hnum. unfold apply_offer_discount.
  destruct (Str.truthy offer_text); [|reflexivity].
  rewrite Hnum. reflexivity.
Qed.

(** C1, as the code has it: the text of the claim's example, "GIFT CARD
    OFFER", holds no number, so the evaluator returns [None] for it before
    any rule is tried. *)
Lemma gift_card_offer_without_number :
  get_num (Some "GIFT CARD OFFER"%string) = Ret None /\
  apply_offer_discount (Some 700%float) None "GIFT CARD OFFER" = Ret None.
Proof. split; vm_compute; reflexivity. Qed.

(** C1, amended: for an offer text that contains "GIFT CARD", does not start
    with EXTRA, SAVE or BUY, and from which [get_num] extracts a non-zero
    number, the tiered flat discount is taken off a present [price_plain]:
    150 from 600 up, 50 from 300 up, 20 from 150 up, [None] below; so
    700 with "$150 GIFT CARD OFFER" gives 550.  A text with no extractable
    number gives [None], and "GIFT CARD OFFER" is such a text. *)
Theorem gift_card_tiers :
  (forall (price_plain : float) (price_now : option float) (offer_text : string)
          (discount : float),
      Str.contains "GIFT CARD" offer_text = true ->
      Str.startswith "EXTRA" offer_text = false ->
      Str.startswith "SAVE" offer_text = false ->
      Str.startswith "BUY" offer_text = false ->
      get_num (Some offer_text) = Ret (Some discount) ->
      Py.truthy_float discount = true ->
      (Py.ge price_plain 600 = true ->
       apply_offer_discount (Some price_plain) price_now offer_text
       = Ret (Some (price_plain - 150)%float)) /\
      (Py.ge price_plain 600 = false -> Py.ge price_plain 300 = true ->
       apply_offer_discount (Some price_plain) price_now offer_text
       = Ret (Some (price_plain - 50)%float)) /\
      (Py.ge price_plain 300 = false -> Py.ge price_plain 150 = true ->
       apply_offer_discount (Some price_plain) price_now offer_text
       = Ret (Some (price_plain - 20)%float)) /\
      (Py.ge price_plain 150 = false ->
       Py.ge price_plain 300 = false -> Py.ge price_plain 600 = false ->
       apply_offer_discount (Some price_plain) price_now offer_text = Ret None)) /\
  apply_offer_discount (Some 700%float) None "$150 GIFT CARD OFFER"
  = Ret (Some 550%float) /\
  (forall (price_plain price_now : option float) (offer_text : string),
      get_num (Some offer_text) = Ret None ->
      apply_offer_discount price_plain price_now offer_text = Ret None) /\
  apply_offer_discount (Some 700%float) None "GIFT CARD OFFER" = Ret None.
Proof.
  split; [|split; [vm_compute; reflexivity|split; [|vm_compute; reflexivity]]].
  - intros pp pn text d Hgc He Hs Hb Hnum Hd.
    rewrite (gift_card_rule pp pn text d Hgc He Hs Hb Hnum Hd).
    repeat split.
    + intros ->. reflexivity.
    + intros -> ->. reflexivity.
    + intros H3 H1. destruct (Py.ge pp 600) eqn:H6.
      * (* 600 <= pp contradicts pp < 300 *)
        exfalso. unfold Py.ge in *.
        assert ((300 <=? 600)%float = true) as H by (vm_compute; reflexivity).
        pose proof (FloatOrderFacts.leb_trans 300 600 pp H H6). congruence.
      * rewrite H3, H1. reflexivity.
    + intros -> -> ->. reflexivity.
  - intros pp pn text. apply no_number_no_offer.
Qed.

Lemma gift_card_tiers_witness :
  apply_offer_discount (Some 320%float) (Some 300%float) "GET A $50 GIFT CARD"
  = Ret (Some 270%float).
Proof.
  refine (proj1 (proj2 (proj1 gift_card_tiers 320%float (Some 300%float)
                          "GET A $50 GIFT CARD"%string 50%float _ _ _ _ _ _)) _ _);
    vm_compute; reflexivity.
Defined.

Lemma save_not_extra s :
  Str.startswith "SAVE" s = true -> Str.startswith "EXTRA" s = false.
Proof. apply startswith_head. discriminate. Qed.

Lemma buy_not_extra s :
  Str.startswith "BUY" s = true -> Str.startswith "EXTRA" s = false.
Proof. apply startswith_head. discriminate. Qed.

Lemma buy_not_save s :
  Str.startswith "BUY" s = true -> Str.startswith "SAVE" s = false.
Proof. apply startswith_head. discriminate. Qed.

(** C4: the evaluator tries its rules in order and the first that matches
    decides: EXTRA with a percent sign takes the percentage off the current
    price when there is one, otherwise off the plain price; SAVE with a
    percent sign takes it off the plain price even when the text also holds a
    dollar sign; SAVE with a dollar sign takes the flat amount off; BUY is
    the per-unit rule even when the text also mentions a gift card.  The four
    examples evaluate to 72.0, 80.0, 50.0 and [None]. *)
Theorem apply_offer_discount_dispatch :
  apply_offer_discount (Some 100%float) (Some 90%float) "EXTRA 20% OFF"
  = Ret (Some 72%float) /\
  apply_offer_discount (Some 100%float) None "SAVE $20" = Ret (Some 80%float) /\
  apply_offer_discount None None "BUY 2 FOR $100" = Ret (Some 50%float) /\
  apply_offer_discount (Some 100%float) (Some 90%float) EmptyString = Ret None /\
  (forall (price_plain price_now : option float) (offer_text : string)
          (discount : float),
      get_num (Some offer_text) = Ret (Some discount) ->
      Py.truthy_float discount = true ->
      (Str.startswith "EXTRA" offer_text = true ->
       Str.contains "%" offer_text = true ->
       apply_offer_discount price_plain price_now offer_text =
       Ret (match Py.if_true price_now, Py.if_true price_plain with
            | Some pn, _ => Some (percent_off pn discount)
            | None, Some pp => Some (percent_off pp discount)
            | None, None => None
            end)) /\
      (Str.startswith "SAVE" offer_text = true ->
       Str.contains "%" offer_text = true ->
       apply_offer_discount price_plain price_now offer_text =
       Ret (option_map (fun pp => percent_off pp discount) (Py.if_true price_plain))) /\
      (Str.startswith "SAVE" offer_text = true ->
       Str.contains "%" offer_text = false ->
       Str.contains "$" offer_text = true ->
       apply_offer_discount price_plain price_now offer_text =
       Ret (option_map (fun pp => Py.round2 (pp - discount)%float)
              (Py.if_true price_plain))) /\
      (Str.startswith "BUY" offer_text = true ->
       Re.search buy_re offer_text = None ->
       apply_offer_discount price_plain price_now offer_text = Ret None)).
Proof.
  do 4 (split; [vm_compute; reflexivity|]).
  intros pp pn text d Hnum Hd. unfold apply_offer_discount.
  split; [|split; [|split]].
  - intros He Hp. rewrite (startswith_truthy "EXTRA" text eq_refl He), Hnum. step.
    rewrite Hd, He, Hp. step.
    destruct (Py.if_true pn), (Py.if_true pp); reflexivity.
  - intros Hs Hp. rewrite (startswith_truthy "SAVE" text eq_refl Hs), Hnum. step.
    rewrite Hd, (save_not_extra _ Hs), Hs, Hp. step.
    destruct (Py.if_true pp); reflexivity.
  - intros Hs Hp Hdol. rewrite (startswith_truthy "SAVE" text eq_refl Hs), Hnum. step.
    rewrite Hd, (save_not_extra _ Hs), Hs, Hp, Hdol. step.
    destruct (Py.if_true pp); reflexivity.
  - intros Hb Hm. rewrite (startswith_truthy "BUY" text eq_refl Hb), Hnum. step.
    rewrite Hd, (buy_not_extra _ Hb), (buy_not_save _ Hb), Hb, Hm. reflexivity.
Qed.

Lemma apply_offer_discount_dispatch_witness :
  apply_offer_discount (Some 100%float) (Some 90%float) "SAVE 10% OR $5"
  = Ret (Some 90%float).
Proof.
  refine (proj1 (proj2 (proj2 (proj2 (proj2 (proj2 apply_offer_discount_dispatch)))
                          (Some 100%float) (Some 90%float) "SAVE 10% OR $5"%string
                          10%float _ _)) _ _);
    vm_compute; reflexivity.
Defined.

(** *** Similarity *)

Lemma float_of_ratio_zero d : Py.float_of_ratio 0 d = 0%float.
Proof.
  unfold Py.float_of_ratio.
  rewrite Z.abs_0, Z.shiftl_0_l, Z.div_0_l, Z.mod_0_l by discriminate.
  reflexivity.
Qed.

Lemma union_size_pos (a b : gset string) : a <> ∅ -> size (a ∪ b) <> 0%nat.
Proof.
  intros Ha Hs. apply size_empty_iff in Hs. apply Ha.
  apply leibniz_equiv. set_solver.
Qed.

Lemma jaccard_nonempty (a b : gset string) :
  a <> ∅ -> b <> ∅ ->
  _jaccard a b =
  Py.float_of_ratio (Z.of_nat (size (a ∩ b))) (Pos.of_nat (size (a ∪ b))).
Proof.
  intros Ha Hb. unfold _jaccard.
  rewrite !bool_decide_eq_false_2 by assumption. cbn [orb].
  rewrite (proj2 (Nat.eqb_neq _ _)) by (apply union_size_pos, Ha).
  reflexivity.
Qed.

Lemma jaccard_sym (a b : gset string) : _jaccard a b = _jaccard b a.
Proof.
  unfold _jaccard.
  assert (a ∩ b = b ∩ a) as Hi by set_solver.
  assert (a ∪ b = b ∪ a) as Hu by set_solver.
  rewrite Hi, Hu, orb_comm. reflexivity.
Qed.

Lemma jaccard_empty_l (b : gset string) : _jaccard ∅ b = 0%float.
Proof. unfold _jaccard. rewrite bool_decide_eq_true_2 by reflexivity. reflexivity. Qed.

(** C6: [_jaccard] is the Jaccard index, the size of the intersection
    divided (as Python divides two ints) by the size of the union; it is
    symmetric, it is 0.0 when either set is empty, and on red, dress against
    red, dress, silk it is 2/3. *)
Theorem jaccard_is_index :
  (forall a b : gset string,
      a <> ∅ -> b <> ∅ ->
      _jaccard a b =
      Py.float_of_ratio (Z.of_nat (size (a ∩ b))) (Pos.of_nat (size (a ∪ b)))) /\
  (forall a b : gset string, _jaccard a b = _jaccard b a) /\
  (forall a b : gset string, a = ∅ \/ b = ∅ -> _jaccard a b = 0%float) /\
  _jaccard {["red"%string; "dress"%string]}
           {["red"%string; "dress"%string; "silk"%string]} = (2 / 3)%float.
Proof.
  split; [exact jaccard_nonempty|].
  split; [exact jaccard_sym|].
  split.
  - intros a b [-> | ->]; [|rewrite jaccard_sym]; apply jaccard_empty_l.
  - vm_compute. reflexivity.
Qed.

Lemma jaccard_is_index_witness :
  _jaccard {["red"%string]} {["red"%string; "silk"%string]} = (1 / 2)%float /\
  _jaccard ∅ {["a"%string]} = 0%float.
Proof.
  split.
  - rewrite (proj1 jaccard_is_index) by (apply non_empty_inhabited_L with "red"%string; set_solver).
    vm_compute. reflexivity.
  - apply (proj1 (proj2 (proj2 jaccard_is_index))). left. reflexivity.
Defined.

(** *** Matcher *)

Module MatchFacts.

Lemma gate_emits sim_thresh title price was link i c notes :
  gate sim_thresh title price was link i = Ret (Some c, notes) ->
  was_equal was (r_was i) = true /\
  Py.ge (_jaccard (_tokens (Some title)) (_tokens (Some (r_title i)))) sim_thresh = true /\
  exists p,
    price = Some p /\
    Py.gt (p - r_price i) 100 = true /\
    c = mkComparison title (r_title i) (p - r_price i) p (r_price i) link (r_link i).
Proof.
  unfold gate.
  destruct (was_equal was (r_was i)); [|discriminate].
  destruct (Py.ge _ sim_thresh); [|discriminate]. cbn [andb].
  destruct price as [p|]; [|discriminate].
  destruct (Py.gt (p - r_price i) 100) eqn:E; intros [= <- <-].
  repeat split; try reflexivity. exists p. auto.
Qed.

Lemma gate_accepts sim_thresh title p was link i :
  was_equal was (r_was i) = true ->
  Py.ge (_jaccard (_tokens (Some title)) (_tokens (Some (r_title i)))) sim_thresh = true ->
  Py.gt (p - r_price i) 100 = true ->
  gate sim_thresh title (Some p) was link i =
  Ret (Some (mkComparison title (r_title i) (p - r_price i) p (r_price i) link (r_link i)),
       notify title (p - r_price i)%float).
Proof.
  intros Hw Hj Hd. unfold gate. rewrite Hw, Hj. cbn [andb]. rewrite Hd. reflexivity.
Qed.

Lemma gate_rejects_dissimilar sim_thresh title price was link i :
  Py.ge (_jaccard (_tokens (Some title)) (_tokens (Some (r_title i)))) sim_thresh = false ->
  gate sim_thresh title price was link i = Ret (None, []).
Proof.
  intros Hj. unfold gate. rewrite Hj, andb_false_r. reflexivity.
Qed.

Section Loop.
Variable urljoin : string -> string -> exc string.
Variable quote : string -> string.
Variable w : web.

Lemma compare_one_matches sim_thresh total st idx i st' :
  soup_fetched w st ->
  compare_one urljoin quote w sim_thresh total st idx i = Ret st' ->
  soup_fetched w st' /\
  (matches st' = matches st \/
   exists c title price was link notes,
     matched urljoin w title price was link /\
     gate sim_thresh title price was link i = Ret (Some c, notes) /\
     matches st' = matches st ++ [c]).
Proof.
  intros Hsoup. unfold compare_one. cbv zeta. cbn [soup matches printed].
  remember (match get_search w _ with Ret s => _ | Raise _ => _ end) as st1 eqn:Hst1.
  assert (matches st1 = matches st /\ soup_fetched w st1) as [Hm Hs1].
  { subst st1. destruct (get_search w _) as [s|] eqn:Es; split; try reflexivity;
      try exact Hsoup.
    intros s' [= <-]. eauto. }
  clear Hst1. destruct (soup st1) as [[[|it items]|]|] eqn:Esoup; step; try discriminate.
  - intros [= <-]. split; [exact Hs1|now left].
  - destruct (get_product_info urljoin it) as [[[[[title price] was] link] pid]|] eqn:Einfo;
      [|discriminate].
    destruct (reconcile w price was pid) as [[price' was'] warn] eqn:Erec.
    destruct (gate sim_thresh title price' was' link i) as [[new notes]|] eqn:Eg;
      [|discriminate].
    intros [= <-]. split.
    + intros s Hs. apply Hs1. rewrite Esoup. exact Hs.
    + cbn [matches]. rewrite Hm.
      destruct new as [c|]; [right|left; apply app_nil_r].
      exists c, title, price', was', link, notes. repeat split; try assumption.
      destruct (Hs1 _ Esoup) as [url Hurl].
      exists url, it, items, price, was, pid, warn. auto.
Qed.

Lemma compare_loop_matches sim_thresh total pm : forall st idx st',
  soup_fetched w st ->
  compare_loop urljoin quote w sim_thresh total st idx pm = Ret st' ->
  forall c, In c (matches st') ->
    In c (matches st) \/ emitted_by_gate urljoin w sim_thresh pm c.
Proof.
  induction pm as [|i pm IH]; intros st idx st' Hsoup; simpl.
  - intros [= <-]. auto.
  - destruct (compare_one urljoin quote w sim_thresh total st idx i) as [st1|] eqn:E1;
      [|discriminate].
    step. intros Hloop c Hc.
    destruct (compare_one_matches _ _ _ _ _ _ Hsoup E1) as [Hs1 Hone].
    destruct (IH _ _ _ Hs1 Hloop c Hc) as [Hin|(j & t & p & x & l & n & Hj & Hmat & Hg)].
    + destruct Hone as [Heq|(c1 & t & p & x & l & n & Hmat & Hg & Heq)];
        rewrite Heq in Hin; [now left|].
      apply in_app_or in Hin. destruct Hin as [Hin|[<-|[]]]; [now left|].
      right. exists i, t, p, x, l, n. split; [now left|auto].
    + right. exists j, t, p, x, l, n. split; [now right|auto].
Qed.

Lemma compare_search_emitted pm sim_thresh out printed :
  compare_search urljoin quote w pm sim_thresh = Ret (out, printed) ->
  forall c, In c out -> emitted_by_gate urljoin w sim_thresh pm c.
Proof.
  unfold compare_search.
  destruct (compare_loop urljoin quote w sim_thresh _ _ _ pm) as [st|] eqn:E;
    [|discriminate].
  step. intros [= <- <-] c Hc.
  apply (proj1 (SortFacts.sort_values_desc_In price_diff c (matches st))) in Hc.
  assert (soup_fetched w (mkLoop None [] [])) as H0 by (intros s [=]).
  destruct (compare_loop_matches _ _ _ _ _ _ H0 E c Hc) as [[]|H]. exact H.
Qed.

End Loop.
End MatchFacts.

(** C9: a row is appended for a candidate only through the acceptance gate,
    applied to the first entry of a fetched search page with its reconciled
    prices, and the gate yields a row exactly when the matched product's [was]
    equals the candidate's [was] as floats, the Jaccard similarity of the two
    titles' token sets is at least [sim_thresh], and
    [price_diff = price - price_pm] is greater than 100.  With the default
    threshold 0.9 a pair of similarity 0.5 yields no row, whatever its
    prices. *)
Theorem gate_conditions :
  (forall (urljoin : string -> string -> exc string) (quote : string -> string) (w : web)
          (pm : list row) (sim_thresh : float)
          (out : list comparison_record) (printed : list event),
      compare_search urljoin quote w pm sim_thresh = Ret (out, printed) ->
      forall c, In c out -> emitted_by_gate urljoin w sim_thresh pm c) /\
  (forall (sim_thresh : float) (title : string) (price was : option float)
          (link : string) (i : row) (c : comparison_record) (notes : list event),
      gate sim_thresh title price was link i = Ret (Some c, notes) <->
      (was_equal was (r_was i) = true /\
       Py.ge (_jaccard (_tokens (Some title)) (_tokens (Some (r_title i)))) sim_thresh
       = true /\
       exists p,
         price = Some p /\
         Py.gt (p - r_price i) 100 = true /\
         c = mkComparison title (r_title i) (p - r_price i) p (r_price i) link (r_link i) /\
         notes = notify title (p - r_price i)%float)) /\
  (forall (title : string) (price was : option float) (link : string) (i : row),
      _jaccard (_tokens (Some title)) (_tokens (Some (r_title i))) = 0.5%float ->
      gate default_sim_thresh title price was link i = Ret (None, [])).
Proof.
  split; [exact MatchFacts.compare_search_emitted|]. split.
  - intros sim_thresh title price was link i c notes. split.
    + intros H. destruct (MatchFacts.gate_emits _ _ _ _ _ _ _ _ H) as (Hw & Hj & p & -> & Hd & ->).
      repeat split; try assumption. exists p. repeat split; try assumption.
      rewrite (MatchFacts.gate_accepts _ _ _ _ _ _ Hw Hj Hd) in H. congruence.
    + intros (Hw & Hj & p & -> & Hd & -> & ->). now apply MatchFacts.gate_accepts.
  - intros title price was link i H. apply MatchFacts.gate_rejects_dissimilar.
    rewrite H. vm_compute. reflexivity.
Qed.

Lemma gate_conditions_witness :
  emitted_by_gate Sample.urljoin Sample.web_first_only default_sim_thresh
    [Sample.candidate1]
    (mkComparison "Zimmermann Silk Dress" "Zimmermann Silk Dress" 120 220 100
       "https://www.davidjones.com/product/zimmermann-silk-dress-12345"
       "https://www.theiconic.com.au/a").
Proof.
  refine (proj1 gate_conditions Sample.urljoin Sample.quote Sample.web_first_only
            [Sample.candidate1] default_sim_thresh _ [Progress 1 1] _ _ _).
  - vm_compute. reflexivity.
  - left. reflexivity.
Defined.

(** C2, as the code has it: when the search request of the first candidate
    fails, the handler prints and leaves [soup] unassigned, and the next
    statement raises [UnboundLocalError], which ends the batch; when the
    request of a later candidate fails, [soup] still holds the previous
    candidate's results and the candidate is compared against them. *)
Theorem search_failure_not_contained :
  compare_search Sample.urljoin Sample.quote Sample.web_down
    [Sample.candidate1; Sample.candidate2] default_sim_thresh
  = Raise UnboundLocalError /\
  get_search Sample.web_first_only (Sample.search_base +:+ Sample.quote "Silk Dress Zimmermann")
  = Raise RuntimeError /\
  compare_search Sample.urljoin Sample.quote Sample.web_first_only
    [Sample.candidate1; Sample.candidate2] default_sim_thresh
  = Ret ([mkComparison "Zimmermann Silk Dress" "Silk Dress Zimmermann" 130 220 90
            "https://www.davidjones.com/product/zimmermann-silk-dress-12345"
            "https://www.theiconic.com.au/b";
          mkComparison "Zimmermann Silk Dress" "Zimmermann Silk Dress" 120 220 100
            "https://www.davidjones.com/product/zimmermann-silk-dress-12345"
            "https://www.theiconic.com.au/a"],
         [Progress 1 2; Progress 2 2; LogErr "Silk Dress Zimmermann"]).
Proof. repeat split; vm_compute; reflexivity. Qed.

(** *** Soundness of the matcher *)

Module ReFacts.
Import ReSem.

Lemma consumed_nil r s :
  sem r (Re.pos s) [] [] -> consumed r s s.
Proof. intros H. exists [], []. simpl. repeat split; auto. Qed.

Lemma consumed_rep_stop (k : Re.state -> option Re.state) hi r1 s res :
  k s = Some res ->
  exists s', consumed (Re.Rep 0 hi r1) s s' /\ k s' = Some res.
Proof.
  intros H. exists s. split; [|exact H]. apply consumed_nil.
  exists []. simpl. repeat split; auto. destruct hi; simpl; lia.
Qed.

Lemma consumed_rep_step lo hi r1 s s1 s2 :
  hi <> Some 0%nat ->
  consumed r1 s s1 ->
  consumed (Re.Rep (Nat.pred lo) (option_map Nat.pred hi) r1) s1 s2 ->
  consumed (Re.Rep lo hi r1) s s2.
Proof.
  intros Hhi (w1 & n1 & R1 & P1 & C1 & L1)
         (w2 & n2 & R2 & P2 & C2 & (l & -> & -> & Hl & Hlo & Hh)).
  exists (w1 ++ concat (map fst l)), (concat (rev (map snd l)) ++ n1).
  split; [rewrite R1, R2, app_assoc; reflexivity|].
  split; [rewrite P2, P1, length_app; lia|].
  split; [rewrite C2, C1, app_assoc; reflexivity|].
  exists ((w1, n1) :: l). simpl.
  split; [reflexivity|].
  split; [rewrite concat_app; simpl; rewrite app_nil_r; reflexivity|].
  split; [split; [exact L1|rewrite <- P1; exact Hl]|].
  split; [lia|].
  destruct hi as [[|h]|]; simpl in *; [congruence|lia|exact I].
Qed.

Lemma run_rep lo hi r1 s k :
  Re.run (Re.Rep lo hi r1) s k =
  rep_loop (Re.run r1) k (S (List.length (Re.rest s))) lo hi s.
Proof. reflexivity. Qed.

Lemma rep_loop_sound r1 (k : Re.state -> option Re.state) res :
  (forall s k res, Re.run r1 s k = Some res ->
                   exists s', consumed r1 s s' /\ k s' = Some res) ->
  forall fuel lo hi s,
    rep_loop (Re.run r1) k fuel lo hi s = Some res ->
    exists s', consumed (Re.Rep lo hi r1) s s' /\ k s' = Some res.
Proof.
  intros IH1. induction fuel as [|fuel IHf]; intros lo hi s H.
  - destruct lo; simpl in H; [|discriminate]. apply consumed_rep_stop. exact H.
  - assert (Hstop : match lo with O => k s | S _ => None end = Some res ->
                    exists s', consumed (Re.Rep lo hi r1) s s' /\ k s' = Some res).
    { destruct lo; [|discriminate]. apply consumed_rep_stop. }
    assert (Hiter : hi <> Some 0%nat ->
               match Re.run r1 s (fun s' =>
                       if (Re.pos s' =? Re.pos s)%nat then None
                       else rep_loop (Re.run r1) k fuel (Nat.pred lo)
                              (option_map Nat.pred hi) s') with
               | Some x => Some x
               | None => match lo with O => k s | S _ => None end
               end = Some res ->
               exists s', consumed (Re.Rep lo hi r1) s s' /\ k s' = Some res).
    { intros Hhi H'. destruct (Re.run r1 s _) as [x|] eqn:E1; [|now apply Hstop].
      inversion H'; subst x. apply IH1 in E1. destruct E1 as (s1 & C1 & K1).
      destruct (Re.pos s1 =? Re.pos s)%nat; [discriminate|].
      apply IHf in K1. destruct K1 as (s2 & C2 & K2).
      exists s2. split; [|exact K2]. eapply consumed_rep_step; eassumption. }
    simpl in H.
    destruct hi as [[|h]|]; [now apply Hstop|apply Hiter; [discriminate|exact H]..].
Qed.

(** Whatever the continuation, a run that succeeds handed it a state reached
    by consuming a word the pattern accepts. *)
Lemma run_sound r : forall s k res,
  Re.run r s k = Some res ->
  exists s', consumed r s s' /\ k s' = Some res.
Proof.
  induction r as [|p|r1 IH1 r2 IH2|r1 IH1 r2 IH2|lo hi r1 IH1|i r1 IH1| |];
    intros s k res H.
  - exists s. split; [|exact H]. apply consumed_nil. simpl. auto.
  - simpl in H. destruct (Re.rest s) as [|c tl] eqn:E; [discriminate|].
    destruct (p c) eqn:Ep; [|discriminate].
    eexists. split; [|exact H]. exists [c], []. simpl. repeat split; auto; try lia.
    exists c. auto.
  - simpl in H. apply IH1 in H. destruct H as (s1 & (w1 & n1 & R1 & P1 & C1 & L1) & H).
    apply IH2 in H. destruct H as (s2 & (w2 & n2 & R2 & P2 & C2 & L2) & H).
    exists s2. split; [|exact H]. exists (w1 ++ w2), (n2 ++ n1).
    split; [rewrite R1, R2, app_assoc; reflexivity|].
    split; [rewrite P2, P1, length_app; lia|].
    split; [rewrite C2, C1, app_assoc; reflexivity|].
    exists w1, w2, n1, n2. rewrite <- P1. auto.
  - simpl in H. destruct (Re.run r1 s k) as [x|] eqn:E1.
    + inversion H; subst. apply IH1 in E1. destruct E1 as (s1 & (w & n & R & P & C & L) & Hk).
      exists s1. split; [|exact Hk]. exists w, n. repeat split; auto. simpl; auto.
    + apply IH2 in H. destruct H as (s1 & (w & n & R & P & C & L) & Hk).
      exists s1. split; [|exact Hk]. exists w, n. repeat split; auto. simpl; auto.
  - rewrite run_rep in H. eapply rep_loop_sound; [exact IH1|exact H].
  - simpl in H. apply IH1 in H. destruct H as (s1 & (w & n & R & P & C & L) & K1).
    eexists. split; [|exact K1].
    exists w, ((i, (Re.pos s, Re.pos s1)) :: n). simpl.
    repeat split; auto; [rewrite C; reflexivity|].
    exists n. rewrite <- P. auto.
  - simpl in H. destruct (xorb _ _); [|discriminate].
    exists s. split; [|exact H]. apply consumed_nil. simpl. auto.
  - simpl in H. exists s. split; [apply consumed_nil; simpl; auto|].
    destruct (Re.rest s) as [|c [|c' tl]]; try discriminate; [exact H|].
    destruct (Ascii.eqb c _); [exact H|discriminate].
Qed.

Lemma skipn_cons_inv {A : Type} (whole : list A) p c tl :
  c :: tl = skipn p whole -> tl = skipn (S p) whole /\ (S p <= List.length whole)%nat.
Proof.
  revert p. induction whole as [|a whole IH]; intros p H.
  - destruct p; discriminate.
  - destruct p as [|p]; simpl in *.
    + inversion H; subst. split; [destruct whole; reflexivity|lia].
    + apply IH in H. destruct H as [H1 H2]. split; [exact H1|lia].
Qed.

Lemma slice_middle (pre w post : list ascii) :
  Re.slice (pre ++ w ++ post)
    (List.length pre, (List.length pre + List.length w)%nat) = Str.of_chars w.
Proof.
  unfold Re.slice. simpl.
  replace (List.length pre + List.length w - List.length pre)%nat
    with (List.length w) by lia.
  rewrite drop_app_length, take_app_length. reflexivity.
Qed.

Lemma slice_at whole (pre w post : list ascii) a b :
  whole = pre ++ w ++ post -> a = List.length pre -> b = (a + List.length w)%nat ->
  Re.slice whole (a, b) = Str.of_chars w.
Proof. intros -> -> ->. apply slice_middle. Qed.

Lemma search_from_sound r whole : forall l p pv m,
  l = skipn p whole -> (p <= List.length whole)%nat ->
  Re.search_from r whole p pv l = Some m ->
  exists pre w post,
    whole = pre ++ w ++ post /\
    (p <= List.length pre)%nat /\
    m = Re.mkMatch whole (List.length pre, (List.length pre + List.length w)%nat)
          (Re.groups m) /\
    sem r (List.length pre) w (Re.groups m).
Proof.
  induction l as [|c tl IH]; intros p pv m Hl Hp H; rewrite search_from_eq in H;
    destruct (Re.run r _ Some) as [s|] eqn:E; try discriminate.
  1, 2: inversion H; subst m; clear H; apply run_sound in E;
    destruct E as (s' & (w & new & R & P & C & L) & [= ->]);
    simpl in R, P, C, L;
    exists (firstn p whole), w, (Re.rest s); rewrite length_firstn, Nat.min_l by exact Hp;
    simpl; rewrite <- R, Hl, firstn_skipn, P, C, app_nil_r in *; auto.
  destruct (skipn_cons_inv _ _ _ _ Hl) as [Htl Hp'].
  destruct (IH _ _ _ Htl Hp' H) as (pre & w & post & Hw & Hpl & Hm & Hs).
  exists pre, w, post. repeat split; auto. lia.
Qed.

(** A successful search found a word the pattern accepts, at the span of
    the match object, with the captures of that word as its groups. *)
Lemma search_sound r text m :
  Re.search r text = Some m ->
  exists pre w post,
    Str.chars text = pre ++ w ++ post /\
    m = Re.mkMatch (Str.chars text)
          (List.length pre, (List.length pre + List.length w)%nat) (Re.groups m) /\
    sem r (List.length pre) w (Re.groups m).
Proof.
  unfold Re.search. intros H.
  apply search_from_sound in H; [|reflexivity|lia].
  destruct H as (pre & w & post & Hw & _ & Hm & Hs).
  exists pre, w, post. auto.
Qed.

Lemma group0 whole pre w post cs :
  whole = pre ++ w ++ post ->
  Re.group (Re.mkMatch whole (List.length pre, (List.length pre + List.length w)%nat) cs) 0
  = Some (Str.of_chars w).
Proof. intros ->. simpl. f_equal. apply slice_middle. Qed.

End ReFacts.

Module PatternFacts.
Import ReSem ReFacts.

Lemma sem_iter_chr p l : forall base,
  sem_iter (sem (Re.Chr p)) base l ->
  Forall (fun c => p c = true) (concat (map fst l)) /\
  concat (rev (map snd l)) = [] /\
  List.length (concat (map fst l)) = List.length l.
Proof.
  induction l as [|[w cs] l IH]; intros base H; simpl in *.
  - auto.
  - destruct H as [[(c & -> & Hc) ->] Hl]. apply IH in Hl.
    destruct Hl as (F & C & N). simpl.
    split; [constructor; assumption|].
    split; [rewrite concat_app, C; reflexivity|].
    now rewrite N.
Qed.

(** A repetition of a character class consumes characters of the class,
    within the bounds, and captures nothing. *)
Lemma sem_rep_chr lo hi p base w cs :
  sem (Re.Rep lo hi (Re.Chr p)) base w cs ->
  Forall (fun c => p c = true) w /\ cs = [] /\
  (lo <= List.length w)%nat /\ within hi (List.length w).
Proof.
  intros (l & -> & -> & Hl & Hlo & Hhi). apply sem_iter_chr in Hl.
  destruct Hl as (F & C & N). rewrite N. auto.
Qed.

Lemma sem_lit c base w cs : sem (Re.lit c) base w cs -> w = [c] /\ cs = [].
Proof.
  intros [(d & -> & Hd) ->]. apply Ascii.eqb_eq in Hd. subst. auto.
Qed.

(** What [id_re] matches: a hyphen, digits, then nothing or a question
    mark; its only capture is the run of digits. *)
Lemma sem_id_re base w cs :
  sem id_re base w cs ->
  exists ds tl,
    w = "-"%char :: ds ++ tl /\ ds <> [] /\
    Forall (fun c => Str.is_digit c = true) ds /\
    cs = [(1%nat, (S base, (S base + List.length ds)%nat))].
Proof.
  intros (w1 & w2 & c1 & c2 & -> & -> & H1 & H2).
  apply sem_lit in H1. destruct H1 as [-> ->].
  destruct H2 as (w3 & w4 & c3 & c4 & -> & -> & (c' & -> & H3) & H4).
  apply sem_rep_chr in H3. destruct H3 as (F & -> & Hlo & _).
  assert (c4 = []) as ->.
  { destruct H4 as [H4|H4]; [apply sem_lit in H4|simpl in H4]; destruct H4; assumption. }
  exists w3, w4. simpl. repeat split; auto.
  - intros ->. simpl in Hlo. lia.
  - repeat f_equal; lia.
Qed.

End PatternFacts.

Lemma chars_of_chars l : Str.chars (Str.of_chars l) = l.
Proof. apply list_ascii_of_string_of_list_ascii. Qed.

Lemma of_chars_chars s : Str.of_chars (Str.chars s) = s.
Proof. apply string_of_list_ascii_of_string. Qed.

(** What a returned tuple of [get_product_info] was computed from. *)
Lemma get_product_info_inv urljoin it title price was link pid :
  get_product_info urljoin it = Ret (title, price, was, link, pid) ->
  exists u m t plain now,
    i_yotpo it = Some (Some u) /\
    urljoin "https://www.davidjones.com"%string u = Ret link /\
    Re.search id_re link = Some m /\ pid = Re.group m 1 /\
    i_price_root it = Some t /\
    parse_prices t = Ret (plain, now) /\
    price = Py.min_list (present [plain; now]) /\
    was = Py.max_list (present [plain; now]) /\
    title = Str.strip (text_or_empty (i_brand it) +:+ " " +:+ text_or_empty (i_name it)).
Proof.
  unfold get_product_info. intros H.
  destruct (i_yotpo it) as [[u|]|]; try discriminate.
  revert H. step.
  destruct (urljoin _ u) as [link'|] eqn:El; [|discriminate].
  destruct (Re.search id_re _) as [m|] eqn:Em; [|discriminate].
  destruct (i_price_root it) as [t|]; [|discriminate].
  destruct (parse_prices t) as [[plain now]|e] eqn:Ep; [|discriminate].
  intros [= <- <- <- <- <-].
  exists u, m, t, plain, now. repeat split; auto.
Qed.

(** X3: the product id that [get_product_info] returns is never [None]: it
    is a non-empty run of digits that follows a hyphen in the link. *)
Theorem product_id_is_digits :
  forall (urljoin : string -> string -> exc string) (it : item) (title : string)
         (price was : option float) (link : string) (pid : option string),
    get_product_info urljoin it = Ret (title, price, was, link, pid) ->
    exists pre ds post : list ascii,
      pid = Some (Str.of_chars ds) /\ ds <> [] /\
      Forall (fun c => Str.is_digit c = true) ds /\
      Str.chars link = pre ++ "-"%char :: ds ++ post.
Proof.
  intros urljoin it title price was link pid H.
  apply get_product_info_inv in H.
  destruct H as (u & m & t & plain & now & _ & _ & Hs & -> & _).
  apply ReFacts.search_sound in Hs. destruct Hs as (pre & w & post & Hw & Hm & Hsem).
  apply PatternFacts.sem_id_re in Hsem. destruct Hsem as (ds & tl & -> & Hne & Hd & Hc).
  exists pre, ds, (tl ++ post). rewrite Hm, Hc.
  split; [|split; [exact Hne|split; [exact Hd|]]].
  - simpl. f_equal.
    apply (ReFacts.slice_at _ (pre ++ ["-"%char]) ds (tl ++ post)).
    + rewrite Hw, <- !app_assoc. simpl. rewrite <- app_assoc. reflexivity.
    + rewrite length_app. simpl. lia.
    + lia.
  - rewrite Hw. simpl. rewrite <- app_assoc. reflexivity.
Qed.

Lemma product_id_is_digits_witness :
  exists pre ds post : list ascii,
    Some "12345"%string = Some (Str.of_chars ds) /\ ds <> [] /\
    Forall (fun c => Str.is_digit c = true) ds /\
    Str.chars "https://www.davidjones.com/product/zimmermann-silk-dress-12345"
    = pre ++ "-"%char :: ds ++ post.
Proof.
  apply (product_id_is_digits Sample.urljoin Sample.dress "Zimmermann Silk Dress"
           (Some 220%float) (Some 443%float)).
  vm_compute. reflexivity.
Defined.

(** *** Numbers that are not negative *)

Module Sign.
Import FloatOrder Rounding.

Lemma leb_zero_sf x : sf_nonneg (Prim2SF x) -> (0 <=? x)%float = true.
Proof.
  rewrite FloatAxioms.leb_spec. change (Prim2SF 0) with (S754_zero false).
  destruct (Prim2SF x) as [s|s| |s m e]; simpl; try tauto; intros ->; reflexivity.
Qed.

Lemma binary_round_aux_nonneg mx ex lx :
  0 <= mx -> sf_nonneg (binary_round_aux prec emax false mx ex lx).
Proof.
  intros H. unfold binary_round_aux.
  pose proof (shr_fexp_nonneg mx ex lx H) as H1.
  destruct (shr_fexp prec emax mx ex lx) as [mrs' e']. simpl in H1.
  pose proof (shr_fexp_nonneg _ e' loc_Exact
                (round_nearest_even_nonneg _ (loc_of_shr_record mrs') H1)) as H2.
  destruct (shr_fexp prec emax _ e' loc_Exact) as [mrs'' e'']. simpl in H2.
  destruct (shr_m mrs'') as [|p|p]; simpl; auto; try lia.
  destruct (e'' <=? emax - prec); simpl; reflexivity.
Qed.

Lemma binary_round_nonneg mx ex : sf_nonneg (binary_round prec emax false mx ex).
Proof.
  unfold binary_round. destruct (shl_align _ _ _) as [mz ez].
  apply binary_round_aux_nonneg. lia.
Qed.

Lemma binary_normalize_nonneg m e sz :
  0 <= m -> sf_nonneg (binary_normalize prec emax m e sz).
Proof.
  destruct m; simpl; intros H; auto; [apply binary_round_nonneg|lia].
Qed.

Lemma nonneg_of_uint63 n : sf_nonneg (Prim2SF (of_uint63 n)).
Proof.
  rewrite of_uint63_spec. apply binary_normalize_nonneg.
  apply Uint63.to_Z_bounded.
Qed.

Lemma nonneg_ldexp x e : sf_nonneg (Prim2SF x) -> sf_nonneg (Prim2SF (Z.ldexp x e)).
Proof.
  rewrite FloatLemmas.Z_ldexp_spec. unfold SFldexp.
  destruct (Prim2SF x) as [s|s| |s m ex]; auto. simpl. intros ->.
  apply binary_round_nonneg.
Qed.

Lemma nonneg_SF2Prim x : sf_nonneg x -> sf_nonneg (Prim2SF (SF2Prim x)).
Proof.
  destruct x as [[]|[]| |[] m e]; simpl; try discriminate; try tauto; intros _;
    try (vm_compute; auto; fail).
  apply nonneg_ldexp, nonneg_of_uint63.
Qed.

Lemma float_of_ratio_nonneg n d : 0 <= n -> (0 <=? Py.float_of_ratio n d)%float = true.
Proof.
  intros H. apply leb_zero_sf. unfold Py.float_of_ratio.
  apply nonneg_SF2Prim.
  destruct (Z.ltb_spec n 0) as [Hn|_]; [lia|].
  apply binary_normalize_nonneg.
  assert (0 <= Z.shiftl (Z.abs n) (Z.max 0 (Z.log2 (Z.pos d) + 64 - Z.log2 (Z.abs n))) / Z.pos d).
  { apply Z.div_pos; [|lia]. apply Z.shiftl_nonneg. lia. }
  destruct (_ =? 0); lia.
Qed.

End Sign.

(** *** Decimal literals *)

Module Decimal.

Lemma span_digits_app d r :
  Forall (fun c => Str.is_digit c = true) d ->
  match r with c :: _ => Str.is_digit c = false | [] => True end ->
  Str.span_digits (d ++ r) = (d, r).
Proof.
  intros Hd Hr. induction Hd as [|c d Hc Hd IH]; simpl.
  - destruct r as [|c r]; [reflexivity|]. simpl. now rewrite Hr.
  - rewrite Hc, IH. reflexivity.
Qed.

Lemma span_digits_all d :
  Forall (fun c => Str.is_digit c = true) d -> Str.span_digits d = (d, []).
Proof.
  intros Hd. rewrite <- (app_nil_r d) at 1. now apply span_digits_app.
Qed.

Lemma unsigned_head (l : list ascii) :
  match l with c :: _ => Str.is_digit c = true \/ c = "."%char | [] => True end ->
  match l with
  | "-"%char :: r => (true, r)
  | "+"%char :: r => (false, r)
  | _ => (false, l)
  end = (false, l).
Proof.
  destruct l as [|c r]; [reflexivity|].
  intros [H| ->]; [|reflexivity].
  destruct c as [[] [] [] [] [] [] [] []]; try reflexivity; discriminate H.
Qed.

(** The value of an unsigned literal: digits [d], a point or nothing, digits
    [f]. *)
Lemma float_of_decimal_unsigned_eq d pt f :
  Forall (fun c => Str.is_digit c = true) d ->
  is_point_or_nil pt ->
  Forall (fun c => Str.is_digit c = true) f ->
  Str.float_of_decimal (Str.of_chars (d ++ pt ++ f)) =
  match d ++ f with
  | [] => Raise ValueError
  | _ :: _ =>
      let n := Str.digits_value (d ++ f) in
      Ret (if n =? 0 then PrimFloat.zero
           else Py.float_of_ratio n
                  (Z.to_pos (10 ^ Z.of_nat (match pt with
                                            | [] => 0%nat
                                            | _ :: _ => List.length f
                                            end))))
  end.
Proof.
  intros Hd Hpt Hf. unfold Str.float_of_decimal. rewrite chars_of_chars.
  rewrite unsigned_head.
  2:{ destruct Hd as [|c d Hc Hd]; simpl; [|now left].
      destruct Hpt as [-> | ->]; simpl; [|now right].
      destruct Hf; simpl; auto. }
  destruct Hpt as [-> | ->].
  - simpl app at 1. rewrite span_digits_all by (apply Forall_app; auto).
    cbv beta iota. rewrite app_nil_r. destruct (d ++ f); [reflexivity|].
    cbv zeta. destruct (_ =? 0); reflexivity.
  - rewrite span_digits_app by (auto; reflexivity).
    cbv beta iota. simpl app at 1. cbv beta iota.
    rewrite span_digits_all by exact Hf. cbv beta iota.
    destruct (d ++ f); [reflexivity|].
    cbv zeta. destruct (_ =? 0); reflexivity.
Qed.

Lemma float_of_decimal_unsigned d pt f :
  Forall (fun c => Str.is_digit c = true) d ->
  is_point_or_nil pt ->
  Forall (fun c => Str.is_digit c = true) f ->
  exists k : nat,
    Str.float_of_decimal (Str.of_chars (d ++ pt ++ f)) =
    match d ++ f with
    | [] => Raise ValueError
    | _ :: _ =>
        let n := Str.digits_value (d ++ f) in
        Ret (if n =? 0 then PrimFloat.zero
             else Py.float_of_ratio n (Z.to_pos (10 ^ Z.of_nat k)))
    end.
Proof.
  intros Hd Hpt Hf. eexists. apply float_of_decimal_unsigned_eq; assumption.
Qed.

Lemma digits_value_nonneg l : 0 <= Str.digits_value l.
Proof.
  unfold Str.digits_value.
  assert (H : forall acc, 0 <= acc ->
            0 <= fold_left (fun acc c => 10 * acc + Z.of_nat (Str.code c - 48)) l acc).
  { induction l as [|c l IH]; intros acc Hacc; simpl; [exact Hacc|]. apply IH. lia. }
  apply H. lia.
Qed.

Lemma float_of_decimal_raises s e : Str.float_of_decimal s = Raise e -> e = ValueError.
Proof.
  unfold Str.float_of_decimal.
  destruct (match Str.chars s with
            | "-"%char :: r => (true, r)
            | "+"%char :: r => (false, r)
            | _ => (false, Str.chars s)
            end) as [neg l1].
  destruct (Str.span_digits l1) as [ip l2].
  destruct (match l2 with "."%char :: r => Str.span_digits r | _ => ([], l2) end)
    as [fp l3].
  destruct l3; [|congruence]. destruct (ip ++ fp); [congruence|].
  cbv zeta. destruct (_ =? 0); discriminate.
Qed.

End Decimal.

Module AmountFacts.
Import ReSem ReFacts PatternFacts.

Lemma sem_seqs_nocap rs : 
  Forall (fun r => forall b w c, sem r b w c -> c = []) rs ->
  forall base w cs, sem (Re.seqs rs) base w cs -> cs = [].
Proof.
  induction 1 as [|r rs Hr Hrs IH]; intros base w cs H.
  - simpl in H. tauto.
  - destruct rs as [|r' rs]; [eapply Hr; exact H|].
    change (Re.seqs (r :: r' :: rs)) with (Re.Seq r (Re.seqs (r' :: rs))) in H.
    destruct H as (w1 & w2 & c1 & c2 & -> & -> & H1 & H2).
    apply Hr in H1. apply IH in H2. subst. reflexivity.
Qed.

Lemma sem_iword label base w cs : sem (Re.iword label) base w cs -> cs = [].
Proof.
  apply sem_seqs_nocap. apply List.Forall_forall. intros r Hr.
  apply in_map_iff in Hr. destruct Hr as (c & <- & _).
  intros b w' c' [_ ->]. reflexivity.
Qed.

(** What the amount pattern matches after the dollar sign, which is its
    group 1: digits and commas, an optional point, digits. *)
Lemma sem_amount_re base w cs :
  sem amount_re base w cs ->
  exists g1 pt g3,
    w = "$"%char :: g1 ++ pt ++ g3 /\
    cs = [(1%nat, (S base, (S base + List.length (g1 ++ pt ++ g3))%nat))] /\
    g1 <> [] /\
    Forall (fun c => Str.is_digit c || Ascii.eqb c "," = true) g1 /\
    is_point_or_nil pt /\
    Forall (fun c => Str.is_digit c = true) g3.
Proof.
  intros (w1 & w2 & c1 & c2 & -> & -> & H1 & (c' & -> & H2)).
  apply sem_lit in H1. destruct H1 as [-> ->].
  destruct H2 as (g1 & w3 & d1 & d2 & -> & -> & Hg1 & pt & g3 & d3 & d4 & -> & -> & Hpt & Hg3).
  apply sem_rep_chr in Hg1. destruct Hg1 as (F1 & -> & Hlo & _).
  apply sem_rep_chr in Hg3. destruct Hg3 as (F3 & -> & _).
  destruct Hpt as (l & -> & -> & Hl & _ & Hhi). simpl in Hhi.
  assert (Hl' : is_point_or_nil (concat (map fst l)) /\ concat (rev (map snd l)) = []).
  { destruct l as [|[x cx] [|? ?]]; [| |simpl in Hhi; lia].
    - split; [now left|reflexivity].
    - destruct Hl as [Hx _]. apply sem_lit in Hx. destruct Hx as [-> ->].
      split; [now right|reflexivity]. }
  destruct Hl' as [Hpt ->].
  exists g1, (concat (map fst l)), g3. simpl.
  repeat split; auto.
  - repeat f_equal; lia.
  - intros ->. simpl in Hlo. lia.
Qed.

Lemma sem_labelled_re label base w cs :
  sem (labelled_re label) base w cs ->
  exists w0 g1 pt g3,
    w = w0 ++ g1 ++ pt ++ g3 /\
    cs = [(1%nat, ((base + List.length w0)%nat,
                   (base + List.length w0 + List.length (g1 ++ pt ++ g3))%nat))] /\
    g1 <> [] /\
    Forall (fun c => Str.is_digit c || Ascii.eqb c "," = true) g1 /\
    is_point_or_nil pt /\
    Forall (fun c => Str.is_digit c = true) g3.
Proof.
  unfold labelled_re.
  change (Re.seqs [Re.iword label; Re.plus Re.space; amount_re])
    with (Re.Seq (Re.iword label) (Re.Seq (Re.plus Re.space) amount_re)).
  intros (w1 & w2 & c1 & c2 & -> & -> & H1 & w3 & w4 & c3 & c4 & -> & -> & H3 & H4).
  apply sem_iword in H1. subst c1.
  apply sem_rep_chr in H3. destruct H3 as (_ & -> & _).
  apply sem_amount_re in H4.
  destruct H4 as (g1 & pt & g3 & -> & -> & Hne & F1 & Hpt & F3).
  exists (w1 ++ w3 ++ ["$"%char]), g1, pt, g3.
  split; [rewrite <- !app_assoc; reflexivity|].
  split; [|auto].
  rewrite !length_app. simpl. repeat f_equal; lia.
Qed.

Lemma filter_digits g :
  Forall (fun c => Str.is_digit c = true) g ->
  filter (fun x => negb (Ascii.eqb x ",")) g = g.
Proof.
  induction 1 as [|c g Hc Hg IH]; [reflexivity|].
  rewrite filter_cons, IH. destruct (decide _) as [|Hn]; [reflexivity|].
  destruct (Ascii.eqb_spec c ","); [subst; discriminate Hc|]. destruct Hn. exact I.
Qed.

Lemma filter_commas g :
  Forall (fun c => Str.is_digit c || Ascii.eqb c "," = true) g ->
  Forall (fun c => Str.is_digit c = true) (filter (fun x => negb (Ascii.eqb x ",")) g) /\
  (filter (fun x => negb (Ascii.eqb x ",")) g = [] <-> no_digit g = true).
Proof.
  induction 1 as [|c g Hc Hg [IH1 IH2]]; [split; [constructor|split; reflexivity]|].
  rewrite filter_cons. unfold no_digit in *. simpl forallb.
  destruct (Ascii.eqb_spec c ",") as [->|Hne].
  - destruct (decide _) as [Hd|_]; [destruct Hd|]. split; [exact IH1|exact IH2].
  - rewrite orb_false_r in Hc. rewrite Hc.
    destruct (decide _) as [_|Hd]; [|destruct Hd; exact I].
    split; [constructor; assumption|]. split; discriminate.
Qed.

(** [.replace(',', '')] on a captured amount. *)
Lemma remove_commas g1 pt g3 :
  Forall (fun c => Str.is_digit c || Ascii.eqb c "," = true) g1 ->
  is_point_or_nil pt ->
  Forall (fun c => Str.is_digit c = true) g3 ->
  exists d,
    Str.remove_char "," (Str.of_chars (g1 ++ pt ++ g3)) = Str.of_chars (d ++ pt ++ g3) /\
    Forall (fun c => Str.is_digit c = true) d /\
    (d = [] <-> no_digit g1 = true).
Proof.
  intros F1 Hpt F3. unfold Str.remove_char. rewrite chars_of_chars.
  exists (filter (fun x => negb (Ascii.eqb x ",")) g1).
  rewrite !filter_app, (filter_digits g3) by exact F3.
  destruct (filter_commas g1 F1) as [Hd Hn].
  split; [|split; assumption].
  destruct Hpt as [-> | ->]; reflexivity.
Qed.

End AmountFacts.

Module PriceFacts.
Import ReSem ReFacts PatternFacts Decimal AmountFacts Sign FloatOrderFacts.

Lemma no_digit_app l1 l2 : no_digit (l1 ++ l2) = no_digit l1 && no_digit l2.
Proof. unfold no_digit. apply forallb_app. Qed.

Lemma no_digit_digits g :
  Forall (fun c => Str.is_digit c = true) g -> (no_digit g = true <-> g = []).
Proof.
  intros [|c g' Hc Hg]; [split; reflexivity|].
  unfold no_digit. simpl. rewrite Hc. simpl. split; discriminate.
Qed.

Lemma no_digit_point pt : is_point_or_nil pt -> no_digit pt = true.
Proof. intros [-> | ->]; reflexivity. Qed.

(** What [labelled_price] does with the amount it finds: [ValueError] when
    the amount holds no digit, a number that is not negative otherwise. *)
Lemma labelled_price_spec label text :
  match Re.search (labelled_re label) text with
  | None => labelled_price label text = Ret None
  | Some m =>
      exists g, Re.group m 1 = Some g /\
        if no_digit (Str.chars g) then labelled_price label text = Raise ValueError
        else exists x, labelled_price label text = Ret (Some x) /\
                       (0 <=? x)%float = true
  end.
Proof.
  unfold labelled_price.
  destruct (Re.search (labelled_re label) text) as [m|] eqn:Es; [|reflexivity].
  apply search_sound in Es. destruct Es as (pre & w & post & Hw & Hm & Hsem).
  apply sem_labelled_re in Hsem.
  destruct Hsem as (w0 & g1 & pt & g3 & -> & Hc & Hne & F1 & Hpt & F3).
  assert (Hg : Re.group m 1 = Some (Str.of_chars (g1 ++ pt ++ g3))).
  { rewrite Hm, Hc. simpl. f_equal.
    apply (slice_at _ (pre ++ w0) (g1 ++ pt ++ g3) post).
    - rewrite Hw, <- !app_assoc. reflexivity.
    - rewrite length_app. reflexivity.
    - reflexivity. }
  exists (Str.of_chars (g1 ++ pt ++ g3)). split; [exact Hg|].
  rewrite Hg. unfold text_or_empty. simpl default.
  destruct (remove_commas g1 pt g3 F1 Hpt F3) as (d & -> & Fd & Hd).
  destruct (float_of_decimal_unsigned d pt g3 Fd Hpt F3) as [k ->].
  rewrite chars_of_chars, !no_digit_app, (no_digit_point pt Hpt), andb_true_l.
  destruct (no_digit g1) eqn:N1.
  - rewrite (proj2 Hd eq_refl). simpl app. simpl andb.
    destruct F3 as [|c g3 Hc3 F3]; [reflexivity|].
    unfold no_digit. simpl forallb. rewrite Hc3. simpl.
    eexists. split; [reflexivity|].
    destruct (_ =? 0) eqn:E0; [reflexivity|].
    apply float_of_ratio_nonneg, digits_value_nonneg.
  - simpl andb. destruct d as [|c d]; [destruct Hd as [Hd _]; specialize (Hd eq_refl); congruence|].
    simpl app. cbv beta iota zeta. step.
    eexists. split; [reflexivity|].
    destruct (_ =? 0) eqn:E0; [reflexivity|].
    apply float_of_ratio_nonneg, digits_value_nonneg.
Qed.

Lemma labelled_price_nonneg label text x :
  labelled_price label text = Ret (Some x) -> (0 <=? x)%float = true.
Proof.
  intros H. pose proof (labelled_price_spec label text) as S.
  destruct (Re.search (labelled_re label) text) as [m|]; [|congruence].
  destruct S as (g & _ & S). destruct (no_digit (Str.chars g)); [congruence|].
  destruct S as (y & Hy & Hpos). congruence.
Qed.

Lemma labelled_price_raises label text e :
  labelled_price label text = Raise e ->
  e = ValueError /\ exists g, amount_text label text g /\ no_digit (Str.chars g) = true.
Proof.
  intros H. pose proof (labelled_price_spec label text) as S. unfold amount_text.
  destruct (Re.search (labelled_re label) text) as [m|] eqn:Es; [|congruence].
  destruct S as (g & Hg & S). destruct (no_digit (Str.chars g)) eqn:N.
  - split; [congruence|]. exists g. split; [exists m; auto|exact N].
  - destruct S as (y & Hy & _). congruence.
Qed.

Lemma parse_prices_nonneg t plain now :
  parse_prices t = Ret (plain, now) ->
  Forall (fun x => (0 <=? x)%float = true) (present [plain; now]).
Proof.
  unfold parse_prices. destruct t as [text|]; [|intros [= <- <-]; constructor].
  destruct (Str.contains "it was" (Str.lower text)).
  - step. destruct (labelled_price "now" text) as [n|] eqn:En; [|discriminate].
    destruct (labelled_price "was" text) as [p|] eqn:Ep; [|discriminate].
    intros [= <- <-].
    destruct p as [p|], n as [n|]; repeat constructor;
      eapply labelled_price_nonneg; eassumption.
  - step. destruct (labelled_price "Price" text) as [p|] eqn:Ep; [|discriminate].
    intros [= <- <-]. destruct p as [p|]; repeat constructor.
    eapply labelled_price_nonneg; eassumption.
Qed.

Lemma parse_prices_raises t e :
  parse_prices t = Raise e ->
  e = ValueError /\
  exists text label g, t = Some text /\ amount_text label text g /\
                       no_digit (Str.chars g) = true.
Proof.
  unfold parse_prices. destruct t as [text|]; [|discriminate].
  destruct (Str.contains "it was" (Str.lower text)).
  - step. destruct (labelled_price "now" text) as [n|e1] eqn:En.
    + destruct (labelled_price "was" text) as [p|e2] eqn:Ep; [discriminate|].
      intros [= <-]. apply labelled_price_raises in Ep. destruct Ep as [-> (g & Hg & N)].
      split; [reflexivity|]. exists text, "was"%string, g. auto.
    + intros [= <-]. apply labelled_price_raises in En. destruct En as [-> (g & Hg & N)].
      split; [reflexivity|]. exists text, "now"%string, g. auto.
  - step. destruct (labelled_price "Price" text) as [p|e1] eqn:Ep; [discriminate|].
    intros [= <-]. apply labelled_price_raises in Ep. destruct Ep as [-> (g & Hg & N)].
    split; [reflexivity|]. exists text, "Price"%string, g. auto.
Qed.



End PriceFacts.




Lemma product_prices :
  forall (urljoin : string -> string -> exc string) (it : item) (title : string)
         (price was : option float) (link : string) (pid : option string),
    get_product_info urljoin it = Ret (title, price, was, link, pid) ->
    (price = None /\ was = None) \/
    (exists p x : float,
        price = Some p /\ was = Some x /\
        (0 <=? p)%float = true /\ (p <=? x)%float = true).
Proof.
  intros urljoin it title price was link pid H.
  apply get_product_info_inv in H.
  destruct H as (u & m & t & plain & now & _ & _ & _ & _ & _ & Hp & -> & -> & _).
  apply PriceFacts.parse_prices_nonneg in Hp.
  assert (Ho : Forall FloatOrder.ordered (present [plain; now])).
  { eapply List.Forall_impl; [|exact Hp]. intros x Hx.
    apply FloatOrderFacts.leb_ordered in Hx. tauto. }
  pose proof (MinMax.min_list_is_min _ Ho) as Hmin.
  pose proof (MinMax.max_list_is_max _ Ho) as Hmax.
  destruct (Py.min_list (present [plain; now])) as [p|] eqn:Emin.
  - destruct (Py.max_list (present [plain; now])) as [x|] eqn:Emax.
    + right. exists p, x. destruct Hmin as [Hin Hle], Hmax as [Hin' _].
      rewrite List.Forall_forall in Hp. auto.
    + unfold is_max_of in Hmax. rewrite Hmax in Emin. discriminate.
  - left. unfold is_min_of in Hmin. rewrite Hmin. auto.
Qed.

(** X4: the prices of a product are both absent or both present; when
    present, neither is negative and [price] is at most [was]. *)
Theorem prices_nonneg_and_ordered :
  forall (urljoin : string -> string -> exc string) (it : item) (title : string)
         (price was : option float) (link : string) (pid : option string),
    get_product_info urljoin it = Ret (title, price, was, link, pid) ->
    (price = None /\ was = None) \/
    (exists p x : float,
        price = Some p /\ was = Some x /\
        (0 <=? p)%float = true /\ (p <=? x)%float = true).
Proof.
  intros urljoin it title price was link pid H.
  apply get_product_info_inv in H.
  destruct H as (u & m & t & plain & now & _ & _ & _ & _ & _ & Hp & -> & -> & _).
  apply PriceFacts.parse_prices_nonneg in Hp.
  assert (Ho : Forall FloatOrder.ordered (present [plain; now])).
  { eapply List.Forall_impl; [|exact Hp]. intros x Hx.
    apply FloatOrderFacts.leb_ordered in Hx. tauto. }
  pose proof (MinMax.min_list_is_min _ Ho) as Hmin.
  pose proof (MinMax.max_list_is_max _ Ho) as Hmax.
  destruct (Py.min_list (present [plain; now])) as [p|] eqn:Emin.
  - destruct (Py.max_list (present [plain; now])) as [x|] eqn:Emax.
    + right. exists p, x. destruct Hmin as [Hin Hle], Hmax as [Hin' _].
      rewrite List.Forall_forall in Hp. auto.
    + unfold is_max_of in Hmax. rewrite Hmax in Emin. discriminate.
  - left. unfold is_min_of in Hmin. rewrite Hmin. auto.
Qed.

Lemma prices_nonneg_and_ordered_witness :
  (Some 220%float = None /\ Some 443%float = None) \/
  (exists p x : float,
      Some 220%float = Some p /\ Some 443%float = Some x /\
      (0 <=? p)%float = true /\ (p <=? x)%float = true).
Proof.
  apply (prices_nonneg_and_ordered Sample.urljoin Sample.dress_labels_swapped
           "Zimmermann Silk Dress" _ _
           "https://www.davidjones.com/product/zimmermann-silk-dress-12345"
           (Some "12345"%string)).
  vm_compute. reflexivity.
Defined.

(** X5: the exceptions of [get_product_info], in the order the code meets
    them: [TypeError] without the review widget, [KeyError] without its
    [data-yotpo-url], whatever [urljoin] raises on that link,
    [AttributeError] when the joined link has no id or the price block is
    missing, and [ValueError] only when an amount after the dollar sign
    holds no digit.  It raises in no other case. *)
Theorem get_product_info_exceptions :
  forall (urljoin : string -> string -> exc string) (it : item),
    (i_yotpo it = None -> get_product_info urljoin it = Raise TypeError) /\
    (i_yotpo it = Some None -> get_product_info urljoin it = Raise KeyError) /\
    (forall u e, i_yotpo it = Some (Some u) ->
       urljoin "https://www.davidjones.com"%string u = Raise e ->
       get_product_info urljoin it = Raise e) /\
    (forall u link, i_yotpo it = Some (Some u) ->
       urljoin "https://www.davidjones.com"%string u = Ret link ->
       Re.search id_re link = None \/ i_price_root it = None ->
       get_product_info urljoin it = Raise AttributeError) /\
    (forall e, get_product_info urljoin it = Raise e ->
       (e = TypeError /\ i_yotpo it = None) \/
       (e = KeyError /\ i_yotpo it = Some None) \/
       (exists u, i_yotpo it = Some (Some u) /\
          urljoin "https://www.davidjones.com"%string u = Raise e) \/
       (e = AttributeError /\
        exists u link, i_yotpo it = Some (Some u) /\
          urljoin "https://www.davidjones.com"%string u = Ret link /\
          (Re.search id_re link = None \/ i_price_root it = None)) \/
       (e = ValueError /\
        exists text label g,
          i_price_root it = Some (Some text) /\ amount_text label text g /\
          no_digit (Str.chars g) = true)) /\
    get_product_info Sample.urljoin Cases.dress_comma_price = Raise ValueError /\
    get_product_info Sample.urljoin Cases.dress_bad_link = Raise ValueError.
Proof.
  intros urljoin it. unfold get_product_info.
  split; [intros ->; reflexivity|].
  split; [intros ->; reflexivity|].
  split; [intros u e -> H; step; rewrite H; reflexivity|].
  split.
  { intros u link -> Hl [H|H]; step; rewrite Hl; [rewrite H; reflexivity|].
    destruct (Re.search id_re _); [|reflexivity]. rewrite H. reflexivity. }
  split; [|split; vm_compute; reflexivity].
  intros e. destruct (i_yotpo it) as [[u|]|]; [|intros [= <-]; auto..].
  step. destruct (urljoin _ u) as [link|e1] eqn:El.
  2:{ intros [= <-]. do 2 right. left. exists u. auto. }
  destruct (Re.search id_re _) as [m|] eqn:Es.
  2:{ intros [= <-]. do 3 right. left. split; [reflexivity|]. exists u, link. auto. }
  destruct (i_price_root it) as [t|] eqn:Er.
  2:{ intros [= <-]. do 3 right. left. split; [reflexivity|]. exists u, link. auto. }
  destruct (parse_prices t) as [[plain now]|e'] eqn:Ep; [discriminate|].
  intros [= <-]. apply PriceFacts.parse_prices_raises in Ep.
  destruct Ep as [-> (text & label & g & -> & Hg & N)].
  do 4 right. split; [reflexivity|]. exists text, label, g. auto.
Qed.

Lemma get_product_info_exceptions_witness :
  get_product_info Sample.urljoin
    (mkItem (Some "Zimmermann") (Some "Silk Dress") None (Some (Some "Price $399.00")))
  = Raise TypeError.
Proof.
  apply (proj1 (get_product_info_exceptions Sample.urljoin
    (mkItem (Some "Zimmermann") (Some "Silk Dress") None (Some (Some "Price $399.00"))))).
  reflexivity.
Defined.

(** *** The numeric extractor finds every number *)

Module NumFacts.
Import ReSem ReFacts PatternFacts Decimal AmountFacts PriceFacts.

(** One step of a repetition of a character class. *)
Lemma run_rep_chr_eq lo hi p s k :
  Re.run (Re.Rep lo hi (Re.Chr p)) s k =
  let stop := match lo with O => k s | S _ => None end in
  match hi with
  | Some O => stop
  | _ =>
      match Re.rest s with
      | c :: tl =>
          if p c then
            match Re.run (Re.Rep (Nat.pred lo) (option_map Nat.pred hi) (Re.Chr p))
                    (Re.mkState (S (Re.pos s)) (Some c) tl (Re.caps s)) k with
            | Some x => Some x
            | None => stop
            end
          else stop
      | [] => stop
      end
  end.
Proof.
  rewrite !run_rep. destruct s as [ps pv rs cs]. simpl Re.rest. simpl Re.pos. simpl Re.caps.
  assert (Hne : (S ps =? ps)%nat = false) by (apply Nat.eqb_neq; lia).
  destruct hi as [[|h]|]; [destruct rs; reflexivity| |];
    (destruct rs as [|c tl]; [reflexivity|]);
    cbn [rep_loop Re.run Re.rest Re.pos Re.caps Nat.pred option_map List.length];
    destruct (p c); try reflexivity; rewrite Hne; reflexivity.
Qed.

Lemma rep_loop_total body k hi : never_fails k -> forall fuel s, rep_loop body k fuel 0 hi s <> None.
Proof.
  intros Hk fuel s. destruct fuel; simpl; [apply Hk|].
  destruct hi as [[|h]|]; try apply Hk; destruct (body s _); try discriminate; apply Hk.
Qed.

(** A repetition that may be empty never fails before a continuation that
    never fails. *)
Lemma run_rep0_total hi r k : never_fails k -> never_fails (fun s => Re.run (Re.Rep 0 hi r) s k).
Proof. intros Hk s. rewrite run_rep. now apply rep_loop_total. Qed.

Lemma never_fails_Some : never_fails Some.
Proof. intros s. discriminate. Qed.

Lemma run_num_re_digit_head s c tl :
  Re.rest s = c :: tl -> Str.is_digit c = true -> Re.run num_re s Some <> None.
Proof.
  intros Hr Hc. unfold num_re.
  change (Re.run (Re.Alt ?a ?b) s Some)
    with (match Re.run a s Some with Some x => Some x | None => Re.run b s Some end).
  match goal with |- context [Re.run (Re.seqs [?a; ?b; ?c; ?d]) s Some] =>
    change (Re.run (Re.seqs [a; b; c; d]) s Some)
      with (Re.run a s (fun s1 => Re.run b s1 (fun s2 =>
              Re.run c s2 (fun s3 => Re.run d s3 Some)))) end.
  assert (H : Re.run (Re.opt (Re.lit "-")) s
    (fun s1 => Re.run (Re.Rep 1 (Some 3%nat) Re.digit) s1 (fun s2 =>
       Re.run (Re.star (Re.Seq (Re.lit ",") (Re.exactly 3 Re.digit))) s2 (fun s3 =>
         Re.run (Re.opt (Re.Seq (Re.lit ".") (Re.plus Re.digit))) s3 Some))) <> None).
  { rewrite run_opt. destruct (Re.run (Re.lit "-") s _); [discriminate|].
    unfold Re.digit. rewrite run_rep_chr_eq. cbv zeta. rewrite Hr, Hc.
    match goal with |- context [Re.run (Re.Rep ?lo ?hi ?r) ?s1 ?k] =>
      pose proof (run_rep0_total hi r k) as T end.
    simpl Nat.pred in *. simpl option_map in *.
    match type of T with ?P -> _ => assert (HP : P) end.
    { intros s2. apply run_rep0_total. intros s3. apply run_rep0_total, never_fails_Some. }
    specialize (T HP). 
    match goal with |- match ?X with _ => _ end <> None =>
      destruct X eqn:E; [discriminate|] end.
    exfalso. eapply T. exact E. }
  destruct (Re.run (Re.opt (Re.lit "-")) s _); [discriminate|]. destruct H. reflexivity.
Qed.

Lemma search_num_re_digit whole : forall l p pv,
  no_digit l = false -> Re.search_from num_re whole p pv l <> None.
Proof.
  induction l as [|c tl IH]; intros p pv H; [discriminate|].
  rewrite search_from_eq.
  destruct (Re.run num_re _ Some) eqn:E; [discriminate|].
  apply IH. unfold no_digit in *. simpl in H.
  destruct (Str.is_digit c) eqn:Hc; [|exact H].
  exfalso. eapply run_num_re_digit_head; [| exact Hc | exact E]. reflexivity.
Qed.

(** A repetition whose body captures nothing. *)
Lemma sem_rep_nocap (P : list ascii -> Prop) lo hi r base w cs :
  (forall b w c, sem r b w c -> P w /\ c = []) ->
  sem (Re.Rep lo hi r) base w cs ->
  exists ws, w = concat ws /\ Forall P ws /\ cs = [] /\
             (lo <= List.length ws)%nat /\ within hi (List.length ws).
Proof.
  intros Hr (l & -> & -> & Hl & Hlo & Hhi).
  exists (map fst l). rewrite length_map.
  assert (H : Forall P (map fst l) /\ concat (rev (map snd l)) = []).
  { clear Hlo Hhi. revert base Hl. induction l as [|[w c] l IH]; intros base Hl.
    - split; [constructor|reflexivity].
    - destruct Hl as [H1 H2]. apply Hr in H1. destruct H1 as [Hw ->].
      apply IH in H2. destruct H2 as [F C]. simpl.
      split; [constructor; assumption|]. rewrite concat_app, C. reflexivity. }
  destruct H as [F C]. auto.
Qed.

Lemma sem_opt_nocap (P : list ascii -> Prop) r base w cs :
  (forall b w c, sem r b w c -> P w /\ c = []) ->
  sem (Re.opt r) base w cs -> (w = [] \/ P w) /\ cs = [].
Proof.
  intros Hr H. apply (sem_rep_nocap P) in H; [|exact Hr].
  destruct H as (ws & -> & F & -> & _ & Hhi). simpl in Hhi.
  split; [|reflexivity].
  destruct ws as [|x [|y ws]]; simpl in *; [now left| |lia].
  right. rewrite app_nil_r. now inversion F.
Qed.

Lemma sem_sign base w cs :
  sem (Re.opt (Re.lit "-")) base w cs -> (w = [] \/ w = ["-"%char]) /\ cs = [].
Proof.
  apply (sem_opt_nocap (fun w => w = ["-"%char])).
  intros b w' c H. apply sem_lit in H. exact H.
Qed.

Lemma sem_fraction base w cs :
  sem (Re.opt (Re.Seq (Re.lit ".") (Re.plus Re.digit))) base w cs ->
  (exists pt f, w = pt ++ f /\ is_point_or_nil pt /\ all_digits f) /\ cs = [].
Proof.
  intros H.
  apply (sem_opt_nocap (fun w => exists f, w = "."%char :: f /\ all_digits f)) in H.
  - destruct H as [[->|(f & -> & Hf)] ->]; (split; [|reflexivity]).
    + exists [], []. repeat split; [now left|constructor].
    + exists ["."%char], f. repeat split; [now right|exact Hf].
  - intros b w' c (w1 & w2 & c1 & c2 & -> & -> & H1 & H2).
    apply sem_lit in H1. destruct H1 as [-> ->].
    apply sem_rep_chr in H2. destruct H2 as (F & -> & _).
    split; [|reflexivity]. exists w2. auto.
Qed.

(** What [num_re] matches: an optional minus sign, a digit, then digits and
    commas, then an optional point with digits; it has no groups. *)
Lemma sem_num_re base w cs :
  sem num_re base w cs ->
  exists sg c g1 pt f,
    w = sg ++ (c :: g1) ++ pt ++ f /\
    (sg = [] \/ sg = ["-"%char]) /\
    Str.is_digit c = true /\
    Forall (fun c => Str.is_digit c || Ascii.eqb c "," = true) g1 /\
    is_point_or_nil pt /\ all_digits f.
Proof.
  unfold num_re. intros [H|H].
  - change (Re.seqs [?a; ?b; ?c; ?d]) with (Re.Seq a (Re.Seq b (Re.Seq c d))) in H.
    destruct H as (w1 & w' & c1 & c' & -> & -> & H1 & w2 & w'' & c2 & c'' & -> & -> & H2
                   & w3 & w4 & c3 & c4 & -> & -> & H3 & H4).
    apply sem_sign in H1. destruct H1 as [Hsg ->].
    apply sem_rep_chr in H2. destruct H2 as (F2 & -> & Hlo & _).
    apply (sem_rep_nocap (Forall (fun c => Str.is_digit c || Ascii.eqb c "," = true))) in H3.
    2:{ intros b w c (u1 & u2 & d1 & d2 & -> & -> & U1 & U2).
        apply sem_lit in U1. destruct U1 as [-> ->].
        apply sem_rep_chr in U2. destruct U2 as (F & -> & _).
        split; [|reflexivity]. constructor; [reflexivity|].
        eapply List.Forall_impl; [|exact F]. intros a Ha. simpl in Ha. now rewrite Ha. }
    destruct H3 as (ws & -> & F3 & -> & _).
    apply sem_fraction in H4. destruct H4 as [(pt & f & -> & Hpt & Hf) ->].
    destruct w2 as [|c w2]; [simpl in Hlo; lia|].
    exists w1, c, (w2 ++ concat ws), pt, f.
    split; [simpl; rewrite <- !app_assoc; reflexivity|].
    split; [exact Hsg|]. inversion F2; subst.
    split; [assumption|]. split; [|auto].
    apply Forall_app. split.
    + eapply List.Forall_impl; [|eassumption]. intros a Ha. simpl in Ha. now rewrite Ha.
    + apply Forall_concat. exact F3.
  - change (Re.seqs [?a; ?b; ?c]) with (Re.Seq a (Re.Seq b c)) in H.
    destruct H as (w1 & w' & c1 & c' & -> & -> & H1 & w2 & w4 & c2 & c4 & -> & -> & H2 & H4).
    apply sem_sign in H1. destruct H1 as [Hsg ->].
    apply sem_rep_chr in H2. destruct H2 as (F2 & -> & Hlo & _).
    apply sem_fraction in H4. destruct H4 as [(pt & f & -> & Hpt & Hf) ->].
    destruct w2 as [|c w2]; [simpl in Hlo; lia|].
    exists w1, c, w2, pt, f.
    split; [reflexivity|]. split; [exact Hsg|]. inversion F2; subst.
    split; [assumption|]. split; [|auto].
    eapply List.Forall_impl; [|eassumption]. intros a Ha. simpl in Ha. now rewrite Ha.
Qed.

(** [float] reads a literal with a minus sign. *)
Lemma float_of_decimal_minus c d pt f :
  Str.is_digit c = true -> all_digits d -> is_point_or_nil pt -> all_digits f ->
  exists x, Str.float_of_decimal (Str.of_chars ("-"%char :: (c :: d) ++ pt ++ f)) = Ret x.
Proof.
  intros Hc Hd Hpt Hf. unfold Str.float_of_decimal. rewrite chars_of_chars.
  cbv beta iota.
  destruct Hpt as [-> | ->].
  - simpl app at 2. rewrite span_digits_all by (constructor; [exact Hc|apply Forall_app; auto]).
    cbv beta iota. simpl app. cbv beta iota zeta.
    destruct (Str.digits_value _ =? 0); eauto.
  - rewrite span_digits_app; [|constructor; assumption|reflexivity].
    cbv beta iota. simpl app at 1. cbv beta iota.
    rewrite span_digits_all by exact Hf. cbv beta iota. simpl app.
    cbv beta iota zeta. destruct (Str.digits_value _ =? 0); eauto.
Qed.

Lemma float_of_decimal_plain c d pt f :
  Str.is_digit c = true -> all_digits d -> is_point_or_nil pt -> all_digits f ->
  exists x, Str.float_of_decimal (Str.of_chars ((c :: d) ++ pt ++ f)) = Ret x.
Proof.
  intros Hc Hd Hpt Hf.
  assert (Hcd : Forall (fun c => Str.is_digit c = true) (c :: d))
    by (constructor; assumption).
  destruct (float_of_decimal_unsigned (c :: d) pt f Hcd Hpt Hf) as [k ->].
  simpl app. cbv beta iota zeta. eauto.
Qed.

Lemma get_num_digit s : no_digit (Str.chars s) = false -> exists x, get_num (Some s) = Ret (Some x).
Proof.
  intros H. unfold get_num, get_num_body. step.
  destruct (Re.search num_re s) as [m|] eqn:Es.
  2:{ exfalso. eapply (search_num_re_digit _ _ _ _ H). exact Es. }
  apply search_sound in Es. destruct Es as (pre & w & post & Hw & Hm & Hsem).
  apply sem_num_re in Hsem.
  destruct Hsem as (sg & c & g1 & pt & f & -> & Hsg & Hc & F1 & Hpt & Hf).
  rewrite Hm, (group0 _ _ _ _ _ Hw). simpl default.
  assert (E : exists d, all_digits d /\
            Str.remove_char "," (Str.of_chars (sg ++ c :: g1 ++ pt ++ f))
            = Str.of_chars (sg ++ c :: d ++ pt ++ f)).
  { exists (filter (fun x => negb (Ascii.eqb x ",")) g1).
    split; [apply filter_commas, F1|].
    unfold Str.remove_char. rewrite chars_of_chars. f_equal.
    rewrite filter_app, filter_cons, !filter_app, (filter_digits f Hf).
    assert (Ept : filter (fun x => negb (Ascii.eqb x ",")) pt = pt)
      by (destruct Hpt as [-> | ->]; reflexivity).
    assert (Esg : filter (fun x => negb (Ascii.eqb x ",")) sg = sg)
      by (destruct Hsg as [-> | ->]; reflexivity).
    rewrite Ept, Esg.
    destruct (decide _) as [|Hn]; [reflexivity|].
    destruct (Ascii.eqb_spec c ","); [subst; discriminate Hc|]. destruct Hn. exact I. }
  destruct E as (d & Hd & ->).
  destruct Hsg as [-> | ->].
  - destruct (float_of_decimal_plain c d pt f Hc Hd Hpt Hf) as [x Hx].
    change ([] ++ c :: d ++ pt ++ f) with ((c :: d) ++ pt ++ f).
    rewrite Hx. simpl. eauto.
  - destruct (float_of_decimal_minus c d pt f Hc Hd Hpt Hf) as [x Hx].
    change (["-"%char] ++ c :: d ++ pt ++ f) with ("-"%char :: (c :: d) ++ pt ++ f).
    rewrite Hx. simpl. eauto.
Qed.

End NumFacts.

(** X1: on ASCII text, [get_num] returns [None] exactly for text without a
    digit; from any ASCII text with a digit it returns a number, which is
    never nan. *)
Theorem get_num_none_iff_no_digit :
  forall s : string,
    Str.is_ascii s = true ->
    (get_num (Some s) = Ret None <-> no_digit (Str.chars s) = true) /\
    (no_digit (Str.chars s) = false ->
     exists x : float, get_num (Some s) = Ret (Some x) /\ FloatOrder.ordered x).
Proof.
  intros s _.
  assert (Hd : no_digit (Str.chars s) = false ->
               exists x, get_num (Some s) = Ret (Some x) /\ FloatOrder.ordered x).
  { intros H. destruct (NumFacts.get_num_digit s H) as [x Hx]. exists x.
    split; [exact Hx|]. unfold get_num, get_num_body in Hx. revert Hx. step.
    destruct (Re.search num_re s); [|discriminate].
    destruct (Str.float_of_decimal _) as [y|] eqn:E; [|discriminate].
    simpl. intros [= <-]. eapply Prices.float_of_decimal_ordered. exact E. }
  split; [|exact Hd]. split.
  - intros H. destruct (no_digit (Str.chars s)) eqn:N; [reflexivity|].
    destruct (Hd eq_refl) as (x & Hx & _). congruence.
  - intros H. unfold get_num, get_num_body. step.
    unfold Re.search. rewrite search_num_re_no_digit by exact H. reflexivity.
Qed.

Lemma get_num_none_iff_no_digit_witness :
  exists x : float, get_num (Some "was $1,234.50 each"%string) = Ret (Some x) /\
                    FloatOrder.ordered x.
Proof.
  apply (proj2 (get_num_none_iff_no_digit "was $1,234.50 each" eq_refl)).
  vm_compute. reflexivity.
Defined.

Module Thousands.
Import ReSem ReFacts NumFacts.

(** A repetition that may be empty is skipped when its body cannot start. *)
Lemma run_rep0_skip hi r s k :
  (forall k', Re.run r s k' = None) -> Re.run (Re.Rep 0 hi r) s k = k s.
Proof.
  intros H. rewrite run_rep. cbn [rep_loop List.length].
  destruct hi as [[|h]|]; try reflexivity; rewrite H; reflexivity.
Qed.

Lemma run_lit_other c s k :
  match Re.rest s with d :: _ => d <> c | [] => True end ->
  Re.run (Re.lit c) s k = None.
Proof.
  intros H. unfold Re.lit. rewrite run_chr. destruct (Re.rest s) as [|d tl]; [reflexivity|].
  destruct (Ascii.eqb_spec c d); [subst; contradiction|reflexivity].
Qed.

Lemma digit_not c d : Str.is_digit c = true -> Str.is_digit d = false -> c <> d.
Proof. intros Hc Hd ->. congruence. Qed.

(** The tail of [num_re] after the leading digits, before a character that
    is neither a comma nor a point. *)
Lemma run_tail_stops s :
  match Re.rest s with d :: _ => d <> ","%char /\ d <> "."%char | [] => True end ->
  Re.run (Re.star (Re.Seq (Re.lit ",") (Re.exactly 3 Re.digit))) s
    (fun s3 => Re.run (Re.opt (Re.Seq (Re.lit ".") (Re.plus Re.digit))) s3 Some) = Some s.
Proof.
  intros H. unfold Re.star, Re.opt.
  rewrite run_rep0_skip.
  - rewrite run_rep0_skip; [reflexivity|].
    intros k'. change (Re.run (Re.Seq ?a ?b) s k') with (Re.run a s (fun s' => Re.run b s' k')).
    apply run_lit_other. destruct (Re.rest s); tauto.
  - intros k'. change (Re.run (Re.Seq ?a ?b) s k') with (Re.run a s (fun s' => Re.run b s' k')).
    apply run_lit_other. destruct (Re.rest s); tauto.
Qed.

(** At three digits followed by a fourth, the first alternative of
    [num_re] takes the three digits and stops. *)
Lemma run_num_re_four_digits p pv d1 d2 d3 d4 rest :
  Str.is_digit d1 = true -> Str.is_digit d2 = true ->
  Str.is_digit d3 = true -> Str.is_digit d4 = true ->
  Re.run num_re (Re.mkState p pv (d1 :: d2 :: d3 :: d4 :: rest) []) Some
  = Some (Re.mkState (S (S (S p))) (Some d3) (d4 :: rest) []).
Proof.
  intros H1 H2 H3 H4. unfold num_re.
  change (Re.run (Re.Alt ?a ?b) ?s Some)
    with (match Re.run a s Some with Some x => Some x | None => Re.run b s Some end).
  match goal with |- context [Re.run (Re.seqs [?a; ?b; ?c; ?d]) ?s Some] =>
    change (Re.run (Re.seqs [a; b; c; d]) s Some)
      with (Re.run a s (fun s1 => Re.run b s1 (fun s2 =>
              Re.run c s2 (fun s3 => Re.run d s3 Some)))) end.
  rewrite run_opt, run_lit_other.
  2:{ simpl. apply digit_not; [exact H1|reflexivity]. }
  unfold Re.digit.
  rewrite run_rep_chr_eq. cbn [Re.rest Re.pos Re.caps Nat.pred option_map]. rewrite H1.
  rewrite run_rep_chr_eq. cbn [Re.rest Re.pos Re.caps Nat.pred option_map]. rewrite H2.
  rewrite run_rep_chr_eq. cbn [Re.rest Re.pos Re.caps Nat.pred option_map]. rewrite H3.
  rewrite run_rep_chr_eq. cbn [Re.rest Re.pos Re.caps Nat.pred option_map].
  rewrite run_tail_stops; [reflexivity|].
  simpl. split; apply digit_not; auto.
Qed.

Lemma run_num_re_no_start s k :
  match Re.rest s with
  | c :: _ => Str.is_digit c = false /\ c <> "-"%char
  | [] => True
  end ->
  Re.run num_re s k = None.
Proof.
  intros H. unfold num_re.
  change (Re.run (Re.Alt ?a ?b) s k)
    with (match Re.run a s k with Some x => Some x | None => Re.run b s k end).
  assert (Hd : match Re.rest s with c :: _ => Str.is_digit c = false | [] => True end)
    by (destruct (Re.rest s); tauto).
  assert (Hm : match Re.rest s with c :: _ => c <> "-"%char | [] => True end)
    by (destruct (Re.rest s); tauto).
  match goal with |- context [Re.run (Re.seqs [?a; ?b; ?c; ?d]) s k] =>
    change (Re.run (Re.seqs [a; b; c; d]) s k)
      with (Re.run a s (fun s1 => Re.run (Re.Seq b (Re.Seq c d)) s1 k)) end.
  match goal with |- context [Re.run (Re.seqs [?a; ?b; ?c]) s k] =>
    change (Re.run (Re.seqs [a; b; c]) s k)
      with (Re.run a s (fun s1 => Re.run (Re.Seq b c) s1 k)) end.
  rewrite !run_opt, !run_lit_other by exact Hm.
  repeat match goal with |- context [Re.run (Re.Seq ?a ?b) s k] =>
    change (Re.run (Re.Seq a b) s k) with (Re.run a s (fun s' => Re.run b s' k)) end.
  unfold Re.plus, Re.digit. rewrite !run_rep_chr_stuck by exact Hd. reflexivity.
Qed.

Lemma search_skips_no_start whole pre : forall p pv l,
  no_number_start pre = true ->
  match l with c :: _ => Str.is_digit c = true | [] => False end ->
  Re.search_from num_re whole p pv (pre ++ l)
  = Re.search_from num_re whole (p + List.length pre)
      (match rev pre with c :: _ => Some c | [] => pv end) l.
Proof.
  induction pre as [|c pre IH]; intros p pv l Hpre Hl.
  - simpl. rewrite Nat.add_0_r. reflexivity.
  - simpl in Hpre. apply andb_prop in Hpre. destruct Hpre as [Hc Hpre].
    apply andb_prop in Hc. destruct Hc as [Hc1 Hc2].
    simpl app. rewrite search_from_eq, run_num_re_no_start.
    2:{ simpl. split; [now destruct (Str.is_digit c)|].
        intros ->. discriminate Hc2. }
    rewrite IH by assumption. simpl List.length. rewrite Nat.add_succ_r. simpl "+"%nat.
    f_equal. simpl rev. destruct (rev pre); reflexivity.
Qed.

End Thousands.

(** X2: a number written with four or more digits and no thousands separator
    is cut after its third digit: when the text before it holds no digit and
    no minus sign, [get_num] returns the value of the first three digits. *)
Theorem get_num_cuts_unseparated_digits :
  forall (pre rest : list ascii) (d1 d2 d3 d4 : ascii),
    no_number_start pre = true ->
    forallb Str.is_digit [d1; d2; d3; d4] = true ->
    get_num (Some (Str.of_chars (pre ++ d1 :: d2 :: d3 :: d4 :: rest)))
    = Ret (Some (let n := Str.digits_value [d1; d2; d3] in
                 if n =? 0 then PrimFloat.zero else Py.float_of_ratio n 1)).
Proof.
  intros pre rest d1 d2 d3 d4 Hpre Hd.
  simpl in Hd. rewrite andb_true_r in Hd.
  apply andb_prop in Hd. destruct Hd as [H1 Hd].
  apply andb_prop in Hd. destruct Hd as [H2 Hd].
  apply andb_prop in Hd. destruct Hd as [H3 H4].
  unfold get_num, get_num_body. step. unfold Re.search. rewrite chars_of_chars.
  rewrite Thousands.search_skips_no_start by assumption.
  rewrite search_from_eq, Thousands.run_num_re_four_digits by assumption.
  cbn [Re.pos Re.caps Re.group Re.subject Re.span default].
  rewrite (ReFacts.slice_at _ pre [d1; d2; d3] (d4 :: rest)); [|reflexivity|lia|simpl; lia].
  assert (Hf : Forall (fun c => Str.is_digit c = true) [d1; d2; d3])
    by (repeat constructor; assumption).
  unfold id, Str.remove_char. rewrite chars_of_chars, (AmountFacts.filter_digits _ Hf).
  pose proof (Decimal.float_of_decimal_unsigned_eq [d1; d2; d3] [] [] Hf
                (or_introl eq_refl) (List.Forall_nil _)) as Hk.
  simpl app in Hk. rewrite Hk. reflexivity.
Qed.

Lemma get_num_cuts_unseparated_digits_witness :
  get_num (Some "now $1234.50"%string) = Ret (Some 123%float).
Proof.
  apply (get_num_cuts_unseparated_digits (Str.chars "now $") (Str.chars ".50")
           "1" "2" "3" "4"); reflexivity.
Defined.

(** *** Tokens and similarity *)

Module TokenFacts.
Import ReSem ReFacts PatternFacts.

(** Every element of [findall] is a word the pattern accepts, for a pattern
    that never matches the empty word. *)
Lemma findall_from_sound r whole :
  (forall b w c, sem r b w c -> w <> []) ->
  forall fuel p, (p <= List.length whole)%nat ->
    Forall (fun t => exists pre w post c,
                       whole = pre ++ w ++ post /\ t = Str.of_chars w /\
                       sem r (List.length pre) w c)
           (Re.findall_from fuel r whole p).
Proof.
  intros Hne. induction fuel as [|fuel IH]; intros p Hp; simpl; [constructor|].
  destruct (Re.search_from r whole p _ _) as [m|] eqn:Es; [|constructor].
  apply search_from_sound in Es; [|reflexivity|exact Hp].
  destruct Es as (pre & w & post & Hw & Hpl & Hm & Hsem).
  rewrite Hm. cbn [Re.span fst snd].
  constructor.
  - exists pre, w, post, (Re.groups m). split; [exact Hw|]. split; [|exact Hsem].
    apply (slice_at _ pre w post); auto.
  - assert (Hlen : List.length w <> 0%nat).
    { intros H0. apply (Hne _ _ _ Hsem). now destruct w. }
    destruct (Nat.eqb_spec (List.length pre + List.length w) (List.length pre)); [lia|].
    apply IH. rewrite Hw, !length_app. lia.
Qed.

Lemma findall_token_re text :
  Forall (is_token_of text) (Re.findall token_re text).
Proof.
  unfold Re.findall.
  eapply List.Forall_impl; [|apply (findall_from_sound token_re)].
  - intros t (pre & w & post & c & Hw & -> & H). apply sem_rep_chr in H.
    destruct H as (F & _ & Hlo & _). exists pre, w, post. repeat split; auto.
    intros ->. simpl in Hlo. lia.
  - intros b w c H. apply sem_rep_chr in H. destruct H as (_ & _ & Hlo & _).
    intros ->. simpl in Hlo. lia.
  - lia.
Qed.

Lemma float_of_ratio_one p : Py.float_of_ratio (Zpos p) p = 1%float.
Proof.
  unfold Py.float_of_ratio.
  change (Z.abs (Z.pos p)) with (Z.pos p).
  replace (Z.log2 (Z.pos p) + 64 - Z.log2 (Z.pos p)) with 64 by lia.
  change (Z.max 0 64) with 64.
  rewrite Z.shiftl_mul_pow2 by lia.
  rewrite (Z.mul_comm (Z.pos p) (2 ^ 64)), Z.div_mul, Z.mod_mul by lia.
  vm_compute. reflexivity.
Qed.

End TokenFacts.

(** X7: every token of a title is a non-empty word of lower-case letters and
    digits that occurs in the lower-cased title. *)
Theorem tokens_are_lowercase_words :
  forall (title x : string),
    x ∈ _tokens (Some title) -> is_token_of (Str.lower title) x.
Proof.
  intros title x Hx. unfold _tokens in Hx. apply elem_of_list_to_set in Hx.
  pose proof (TokenFacts.findall_token_re (Str.lower title)) as F.
  rewrite Forall_forall in F. apply F. exact Hx.
Qed.

Lemma tokens_are_lowercase_words_witness :
  is_token_of (Str.lower "Zimmermann Silk-Dress (NEW)") "zimmermann".
Proof.
  apply (tokens_are_lowercase_words "Zimmermann Silk-Dress (NEW)").
  vm_compute. reflexivity.
Defined.

(** X8: the similarity of a non-empty token set with itself is exactly 1.0,
    the similarity of two sets without a common token is exactly 0.0, and a
    similarity is never negative and never nan. *)
Theorem jaccard_bounds :
  forall a b : gset string,
    (a <> ∅ -> _jaccard a a = 1%float) /\
    (a ∩ b = ∅ -> _jaccard a b = 0%float) /\
    (0 <=? _jaccard a b)%float = true.
Proof.
  intros a b. split; [|split].
  - intros Ha. rewrite jaccard_nonempty by assumption.
    replace (a ∩ a) with a by set_solver. replace (a ∪ a) with a by set_solver.
    assert (Hs : size a <> 0%nat) by (intros H; apply size_empty_inv in H; apply Ha; set_solver).
    replace (Z.of_nat (size a)) with (Zpos (Pos.of_nat (size a))) by lia.
    apply TokenFacts.float_of_ratio_one.
  - intros Hab. unfold _jaccard.
    destruct (bool_decide (a = ∅) || bool_decide (b = ∅)); [reflexivity|].
    destruct (size (a ∪ b) =? 0)%nat; [reflexivity|].
    rewrite Hab, size_empty. apply float_of_ratio_zero.
  - unfold _jaccard.
    destruct (bool_decide (a = ∅) || bool_decide (b = ∅)); [reflexivity|].
    destruct (size (a ∪ b) =? 0)%nat; [reflexivity|].
    apply Sign.float_of_ratio_nonneg. lia.
Qed.

Lemma jaccard_bounds_witness :
  _jaccard (_tokens (Some "Silk Dress"%string)) (_tokens (Some "Silk Dress"%string)) = 1%float.
Proof.
  apply (proj1 (jaccard_bounds (_tokens (Some "Silk Dress"%string)) ∅)).
  vm_compute. discriminate.
Defined.

(** *** Reconciliation with an offer *)

Module ReconcileFacts.
Import FloatOrder FloatOrderFacts.

Lemma min3_le y p o :
  ordered y -> ordered p ->
  exists m, Py.min_list [y; p; o] = Some m /\ (m <=? p)%float = true.
Proof.
  intros Hy Hp. eexists. split; [reflexivity|]. simpl.
  set (acc1 := if (p <? y)%float then p else y).
  assert (H1 : (acc1 <=? p)%float = true).
  { unfold acc1. destruct (p <? y)%float eqn:E; [now apply leb_refl|].
    now apply not_ltb_leb. }
  destruct (o <? acc1)%float eqn:E2; [|exact H1].
  eapply leb_trans; [apply ltb_leb; exact E2|exact H1].
Qed.

Lemma max3_ge y p o :
  ordered y -> ordered p ->
  exists m, Py.max_list [y; p; o] = Some m /\ (y <=? m)%float = true.
Proof.
  intros Hy Hp. eexists. split; [reflexivity|]. simpl.
  set (acc1 := if (y <? p)%float then p else y).
  assert (H1 : (y <=? acc1)%float = true).
  { unfold acc1. destruct (y <? p)%float eqn:E; [now apply ltb_leb|now apply leb_refl]. }
  destruct (acc1 <? o)%float eqn:E2; [|exact H1].
  eapply leb_trans; [exact H1|apply ltb_leb; exact E2].
Qed.

End ReconcileFacts.

Lemma reconcile_bounds :
  forall (w : web) (p x : float) (pid : option string)
         (price' was' : option float) (warn : list event),
    (0 <=? p)%float = true -> (p <=? x)%float = true ->
    reconcile w (Some p) (Some x) pid = (price', was', warn) ->
    exists p' x' : float,
      price' = Some p' /\ was' = Some x' /\
      (p' <=? p)%float = true /\ (x <=? x')%float = true.
Proof.
  intros w p x pid price' was' warn H0 Hpx.
  destruct (FloatOrderFacts.leb_ordered _ _ Hpx) as [Op Ox].
  assert (Hsame : (price', was') = (Some p, Some x) ->
                  exists p' x' : float,
                    price' = Some p' /\ was' = Some x' /\
                    (p' <=? p)%float = true /\ (x <=? x')%float = true).
  { intros [= -> ->]. exists p, x. repeat split; auto using FloatOrderFacts.leb_refl. }
  unfold reconcile, reconcile_body.
  destruct (post_special_offers w pid) as [offers|e]; step;
    [|intros [= <- <- _]; now apply Hsame].
  destruct (find_offer_text pid offers) as [text|];
    [|intros [= <- <- _]; now apply Hsame].
  destruct (Str.truthy text); [|intros [= <- <- _]; now apply Hsame].
  destruct (apply_offer_discount _ _ text) as [[o|]|e];
    [|intros [= <- <- _]; now apply Hsame..].
  simpl Py.truthy. destruct (Py.truthy_float o); [|intros [= <- <- _]; now apply Hsame].
  unfold Py.or_else, Py.truthy. unfold present. cbn [omap list_omap id].
  set (y := if Py.truthy_float x then x else p).
  assert (Oy : FloatOrder.ordered y) by (unfold y; destruct (Py.truthy_float x); assumption).
  assert (Hxy : (x <=? y)%float = true).
  { unfold y. destruct (Py.truthy_float x) eqn:Et; [now apply FloatOrderFacts.leb_refl|].
    unfold Py.truthy_float in Et. apply negb_false_iff in Et.
    eapply FloatOrderFacts.leb_trans; [apply FloatOrderFacts.eqb_leb; exact Et|exact H0]. }
  replace (match (if Py.truthy_float x then Some x else Some p) with
           | Some y0 => y0 :: [p; o]
           | None => [p; o]
           end) with [y; p; o] by (unfold y; destruct (Py.truthy_float x); reflexivity).
  destruct (ReconcileFacts.min3_le y p o Oy Op) as (m1 & -> & Hm1).
  destruct (ReconcileFacts.max3_ge y p o Oy Op) as (m2 & -> & Hm2).
  intros [= <- <- _]. exists m1, m2. repeat split; auto.
  eapply FloatOrderFacts.leb_trans; eassumption.
Qed.

(** X9: the reconciliation with an offer never raises the price and never
    lowers the original price: for a product with prices [0 <= p <= x], the
    reconciled prices are present and satisfy [p' <= p] and [x <= x'],
    whatever the offers service answers. *)
Theorem reconcile_never_raises_price :
  forall (w : web) (p x : float) (pid : option string)
         (price' was' : option float) (warn : list event),
    (0 <=? p)%float = true -> (p <=? x)%float = true ->
    reconcile w (Some p) (Some x) pid = (price', was', warn) ->
    exists p' x' : float,
      price' = Some p' /\ was' = Some x' /\
      (p' <=? p)%float = true /\ (x <=? x')%float = true.
Proof.
  intros w p x pid price' was' warn H0 Hpx.
  destruct (FloatOrderFacts.leb_ordered _ _ Hpx) as [Op Ox].
  assert (Hsame : (price', was') = (Some p, Some x) ->
                  exists p' x' : float,
                    price' = Some p' /\ was' = Some x' /\
                    (p' <=? p)%float = true /\ (x <=? x')%float = true).
  { intros [= -> ->]. exists p, x. repeat split; auto using FloatOrderFacts.leb_refl. }
  unfold reconcile, reconcile_body.
  destruct (post_special_offers w pid) as [offers|e]; step;
    [|intros [= <- <- _]; now apply Hsame].
  destruct (find_offer_text pid offers) as [text|];
    [|intros [= <- <- _]; now apply Hsame].
  destruct (Str.truthy text); [|intros [= <- <- _]; now apply Hsame].
  destruct (apply_offer_discount _ _ text) as [[o|]|e];
    [|intros [= <- <- _]; now apply Hsame..].
  simpl Py.truthy. destruct (Py.truthy_float o); [|intros [= <- <- _]; now apply Hsame].
  unfold Py.or_else, Py.truthy. unfold present. cbn [omap list_omap id].
  set (y := if Py.truthy_float x then x else p).
  assert (Oy : FloatOrder.ordered y) by (unfold y; destruct (Py.truthy_float x); assumption).
  assert (Hxy : (x <=? y)%float = true).
  { unfold y. destruct (Py.truthy_float x) eqn:Et; [now apply FloatOrderFacts.leb_refl|].
    unfold Py.truthy_float in Et. apply negb_false_iff in Et.
    eapply FloatOrderFacts.leb_trans; [apply FloatOrderFacts.eqb_leb; exact Et|exact H0]. }
  replace (match (if Py.truthy_float x then Some x else Some p) with
           | Some y0 => y0 :: [p; o]
           | None => [p; o]
           end) with [y; p; o] by (unfold y; destruct (Py.truthy_float x); reflexivity).
  destruct (ReconcileFacts.min3_le y p o Oy Op) as (m1 & -> & Hm1).
  destruct (ReconcileFacts.max3_ge y p o Oy Op) as (m2 & -> & Hm2).
  intros [= <- <- _]. exists m1, m2. repeat split; auto.
  eapply FloatOrderFacts.leb_trans; eassumption.
Qed.

Lemma reconcile_never_raises_price_witness :
  exists p' x' : float,
    Some 176%float = Some p' /\ Some 443%float = Some x' /\
    (p' <=? 220)%float = true /\ (443 <=? x')%float = true.
Proof.
  apply (reconcile_never_raises_price Cases.web_extra_offer 220 443 (Some "12345"%string)
           _ _ []); vm_compute; reflexivity.
Defined.

(** *** The comparison loop *)

Module LoopFacts.
Import FloatOrder FloatOrderFacts.

Lemma ltb_weaken a b d :
  (a <=? b)%float = true -> (b <? d)%float = true -> (a <? d)%float = true.
Proof.
  intros Hab Hbd.
  destruct (leb_ordered _ _ Hab) as [Oa Ob]. destruct (ltb_ordered _ _ Hbd) as [_ Od].
  destruct (a <? d)%float eqn:E; [reflexivity|].
  apply not_ltb_leb in E; [|assumption..].
  pose proof (leb_trans _ _ _ E Hab) as H. apply ltb_not_leb in Hbd. congruence.
Qed.

(** The notification printed for a difference of prices, if any. *)
Lemma notify_stars title d n t :
  In (Notify n t) (notify title d) <-> t = title /\ stars_for d n.
Proof.
  unfold notify, stars_for, Py.gt.
  destruct (250 <? d)%float eqn:E3.
  { assert (E2 : (200 <? d)%float = true)
      by (apply (ltb_weaken 200 250 d); [reflexivity|exact E3]).
    rewrite E2. split.
    - intros [[= <- <-]|[]]. split; [reflexivity|left; auto].
    - intros [-> [[-> _]|[[_ [H _]]|[_ [H _]]]]]; [now left|discriminate..]. }
  destruct (200 <? d)%float eqn:E2.
  { split.
    - intros [[= <- <-]|[]]. split; [reflexivity|right; left; auto].
    - intros [-> [[_ H]|[[-> _]|[_ [H _]]]]]; [discriminate|now left|discriminate]. }
  destruct (150 <? d)%float eqn:E1.
  { split.
    - intros [[= <- <-]|[]]. split; [reflexivity|right; right; auto].
    - intros [-> [[_ H]|[[_ [_ H]]|[-> _]]]]; [discriminate..|now left]. }
  split; [intros []|].
  intros [_ [[_ H]|[[_ [_ H]]|[_ [_ H]]]]]; discriminate.
Qed.

Lemma stars_gt_100 d n : stars_for d n -> Py.gt d 100 = true.
Proof.
  unfold stars_for, Py.gt.
  intros [[_ H]|[[_ [_ H]]|[_ [_ H]]]].
  - apply (ltb_weaken 100 250 d); [reflexivity|exact H].
  - apply (ltb_weaken 100 200 d); [reflexivity|exact H].
  - apply (ltb_weaken 100 150 d); [reflexivity|exact H].
Qed.

(** What the gate returns: nothing, or the row and the notification that
    the difference of prices commands. *)
Lemma gate_inv sim_thresh title price was link i new notes :
  gate sim_thresh title price was link i = Ret (new, notes) ->
  (new = None /\ notes = []) \/
  exists p, price = Some p /\
    new = (if Py.gt (p - r_price i) 100
           then Some (mkComparison title (r_title i) (p - r_price i) p (r_price i)
                        link (r_link i))
           else None) /\
    notes = notify title (p - r_price i)%float.
Proof.
  unfold gate. destruct (was_equal was (r_was i) && _); [|intros [= <- <-]; now left].
  destruct price as [p|]; [|discriminate]. intros [= <- <-]. right. exists p. auto.
Qed.

Section Loop.
Variable urljoin : string -> string -> exc string.
Variable quote : string -> string.
Variable w : web.

(** One iteration appends at most one row, which belongs to the candidate,
    and prints a notification exactly for a row whose difference of prices
    commands one. *)
Lemma compare_one_inv sim_thresh total st idx i st' :
  compare_one urljoin quote w sim_thresh total st idx i = Ret st' ->
  exists new notes,
    matches st' = matches st ++ new /\ printed st' = printed st ++ notes /\
    (new = [] \/ exists c, new = [c] /\ row_of i c) /\
    (forall n t, In (Notify n t) notes ->
       exists c, In c new /\ title_dj c = t /\ stars_for (price_diff c) n) /\
    (forall c n, In c new -> stars_for (price_diff c) n ->
       In (Notify n (title_dj c)) notes).
Proof.
  unfold compare_one. cbv zeta. cbn [soup matches printed].
  set (st1 := match get_search w _ with Ret s => _ | Raise _ => _ end).
  assert (H1 : exists pre, matches st1 = matches st /\ printed st1 = printed st ++ pre /\
                           forall n t, ~ In (Notify n t) pre).
  { unfold st1. destruct (get_search w _).
    - exists [Progress idx total]. repeat split; auto.
      intros n t [H|[]]. discriminate.
    - exists [Progress idx total; LogErr (r_title i)]. cbn [matches printed].
      rewrite <- app_assoc. repeat split; auto.
      intros n t [H|[H|[]]]; discriminate. }
  destruct H1 as (pre & Hm & Hp & Hpre). clearbody st1.
  destruct (soup st1) as [[[|it items]|]|]; step; try discriminate.
  - intros [= <-]. exists [], pre. rewrite app_nil_r. repeat split; auto.
    + intros n t H. destruct (Hpre _ _ H).
    + intros c n [].
  - destruct (get_product_info urljoin it) as [[[[[title price] was] link] pid]|];
      [|discriminate].
    destruct (reconcile w price was pid) as [[price' was'] warn] eqn:Erec.
    assert (Hwarn : forall n t, ~ In (Notify n t) warn).
    { unfold reconcile in Erec. destruct (reconcile_body _ _ _ _) as [[? ?]|];
        inversion Erec; subst; intros n t; [intros []|intros [H|[]]; discriminate]. }
    destruct (gate sim_thresh title price' was' link i) as [[new notes]|] eqn:Eg;
      [|discriminate].
    intros [= <-]. cbn [matches printed].
    exists (match new with Some c => [c] | None => [] end), (pre ++ warn ++ notes).
    rewrite Hm, Hp, <- app_assoc.
    split; [reflexivity|]. split; [reflexivity|].
    assert (Hnotes : forall n t, In (Notify n t) (pre ++ warn ++ notes) ->
                                 In (Notify n t) notes).
    { intros n t H. apply in_app_or in H. destruct H as [H|H]; [destruct (Hpre _ _ H)|].
      apply in_app_or in H. destruct H as [H|H]; [destruct (Hwarn _ _ H)|exact H]. }
    apply gate_inv in Eg.
    destruct Eg as [[-> ->]|(p & -> & -> & ->)].
    + split; [now left|]. split; [|intros c n []].
      intros n t H. apply Hnotes in H. destruct H.
    + split; [|split].
      * destruct (Py.gt _ 100) eqn:E; [right|now left].
        eexists. split; [reflexivity|]. repeat split; auto.
      * intros n t H. apply Hnotes, notify_stars in H. destruct H as [-> Hs].
        rewrite (stars_gt_100 _ _ Hs). eexists. split; [left; reflexivity|]. auto.
      * intros c n Hc Hs. apply in_or_app. right. apply in_or_app. right.
        destruct (Py.gt _ 100); [|destruct Hc].
        destruct Hc as [<-|[]]. cbn [title_dj price_diff] in *.
        apply notify_stars. auto.
Qed.

(** The loop appends one row for each candidate of a sublist of the
    candidates, in their order. *)
Lemma compare_loop_inv sim_thresh total pm : forall st idx st',
  compare_loop urljoin quote w sim_thresh total st idx pm = Ret st' ->
  exists kept new notes,
    matches st' = matches st ++ new /\ printed st' = printed st ++ notes /\
    sublist kept pm /\ Forall2 row_of kept new /\
    (forall n t, In (Notify n t) notes ->
       exists c, In c new /\ title_dj c = t /\ stars_for (price_diff c) n) /\
    (forall c n, In c new -> stars_for (price_diff c) n ->
       In (Notify n (title_dj c)) notes).
Proof.
  induction pm as [|i pm IH]; intros st idx st'; simpl.
  - intros [= <-]. exists [], [], []. rewrite !app_nil_r.
    split; [reflexivity|]. split; [reflexivity|].
    split; [constructor|]. split; [constructor|].
    split; [intros n t []|intros c n []].
  - destruct (compare_one urljoin quote w sim_thresh total st idx i) as [st1|] eqn:E1;
      [|discriminate].
    step. intros Hloop.
    apply compare_one_inv in E1. destruct E1 as (n1 & p1 & M1 & P1 & L1 & N1 & R1).
    apply IH in Hloop. destruct Hloop as (kept & n2 & p2 & M2 & P2 & S2 & F2 & N2 & R2).
    exists (match n1 with [] => kept | _ => i :: kept end), (n1 ++ n2), (p1 ++ p2).
    rewrite M2, M1, P2, P1, <- !app_assoc.
    split; [reflexivity|]. split; [reflexivity|].
    split; [|split; [|split]].
    + destruct L1 as [->|(c & -> & _)]; [now apply sublist_cons|now apply sublist_skip].
    + destruct L1 as [->|(c & -> & Hc)]; [exact F2|]. constructor; assumption.
    + intros n t H. apply in_app_or in H. destruct H as [H|H].
      * destruct (N1 _ _ H) as (c & Hc & Hr). exists c. split; [|exact Hr].
        apply in_or_app. now left.
      * destruct (N2 _ _ H) as (c & Hc & Hr). exists c. split; [|exact Hr].
        apply in_or_app. now right.
    + intros c n Hc Hs. apply in_or_app. apply in_app_or in Hc.
      destruct Hc as [Hc|Hc]; [left; now apply R1|right; now apply R2].
Qed.

End Loop.

Lemma insert_desc_perm {A : Type} (key : A -> float) x l :
  Permutation (insert_desc key x l) (x :: l).
Proof.
  induction l as [|y l IH]; simpl; [reflexivity|].
  destruct (Py.ge (key x) (key y)); [reflexivity|].
  transitivity (y :: x :: l); [constructor; exact IH|apply perm_swap].
Qed.

Lemma sort_values_desc_perm {A : Type} (key : A -> float) l :
  Permutation (sort_values_desc key l) l.
Proof.
  unfold sort_values_desc. induction l as [|x l IH]; simpl; [reflexivity|].
  transitivity (x :: fold_right (insert_desc key) [] l);
    [apply insert_desc_perm|constructor; exact IH].
Qed.

Lemma sublist_In {A : Type} (l1 l2 : list A) x : sublist l1 l2 -> In x l1 -> In x l2.
Proof.
  induction 1 as [|y l1 l2 _ IH|y l1 l2 _ IH]; simpl; intros H0;
    [destruct H0|destruct H0; auto|auto].
Qed.

Lemma Forall2_row_of kept new :
  Forall2 row_of kept new -> forall c, In c new -> exists i, In i kept /\ row_of i c.
Proof.
  induction 1 as [|i c kept new Hic _ IH]; intros c' Hc'; [destruct Hc'|].
  destruct Hc' as [<-|Hc'].
  - exists i. split; [now left|exact Hic].
  - destruct (IH _ Hc') as (j & Hj & Hr). exists j. split; [now right|exact Hr].
Qed.

End LoopFacts.

Lemma compare_search_rows :
  forall (urljoin : string -> string -> exc string) (quote : string -> string) (w : web)
         (pm : list row) (sim_thresh : float)
         (out : list comparison_record) (printed : list event),
    compare_search urljoin quote w pm sim_thresh = Ret (out, printed) ->
    StronglySorted (desc price_diff) out /\
    forall c, In c out ->
      price_diff c = (price_dj c - price_pm c)%float /\
      Py.gt (price_diff c) 100 = true /\
      exists i, In i pm /\ title_pm c = r_title i /\ price_pm c = r_price i /\
                link_pm c = r_link i.
Proof.
  intros urljoin quote w pm sim_thresh out printed. unfold compare_search.
  destruct (compare_loop urljoin quote w sim_thresh _ _ _ pm) as [st|] eqn:E;
    [|discriminate].
  step. intros [= <- <-].
  apply LoopFacts.compare_loop_inv in E.
  destruct E as (kept & new & notes & M & _ & S & F & _). simpl in M.
  rewrite M. clear M.
  pose proof (LoopFacts.Forall2_row_of _ _ F) as Hrow.
  split.
  - apply SortFacts.sort_values_desc_sorted. apply List.Forall_forall.
    intros c Hc. destruct (Hrow c Hc) as (i & _ & _ & _ & _ & _ & Hgt).
    unfold Py.gt in Hgt. apply FloatOrderFacts.ltb_ordered in Hgt. tauto.
  - intros c Hc. apply (proj1 (SortFacts.sort_values_desc_In price_diff c new)) in Hc.
    destruct (Hrow c Hc) as (i & Hi & Ht & Hp & Hl & Hd & Hgt).
    repeat split; auto. exists i. split; [|auto].
    eapply LoopFacts.sublist_In; eassumption.
Qed.

(** X10: the table of [compare_search] is sorted by [price_diff], largest
    first; its rows are, up to their order, one row for each candidate of a
    sublist of the candidates: no candidate has two rows; and every row
    belongs to a candidate whose title, price and link it carries, with
    [price_diff = price_dj - price_pm] greater than 100. *)
Theorem compare_search_table :
  forall (urljoin : string -> string -> exc string) (quote : string -> string) (w : web)
         (pm : list row) (sim_thresh : float)
         (out : list comparison_record) (printed : list event),
    compare_search urljoin quote w pm sim_thresh = Ret (out, printed) ->
    StronglySorted (desc price_diff) out /\
    (exists (kept : list row) (rows : list comparison_record),
        sublist kept pm /\ Permutation rows out /\
        Forall2 (fun i c =>
                   title_pm c = r_title i /\ price_pm c = r_price i /\
                   link_pm c = r_link i /\
                   price_diff c = (price_dj c - price_pm c)%float /\
                   Py.gt (price_diff c) 100 = true) kept rows).
Proof.
  intros urljoin quote w pm sim_thresh out printed. unfold compare_search.
  destruct (compare_loop urljoin quote w sim_thresh _ _ _ pm) as [st|] eqn:E;
    [|discriminate].
  step. intros [= <- <-].
  apply LoopFacts.compare_loop_inv in E.
  destruct E as (kept & new & notes & M & _ & S & F & _). simpl in M.
  rewrite M. clear M. split.
  - apply SortFacts.sort_values_desc_sorted. apply List.Forall_forall.
    intros c Hc. destruct (LoopFacts.Forall2_row_of _ _ F c Hc) as (i & _ & _ & _ & _ & _ & Hgt).
    unfold Py.gt in Hgt. apply FloatOrderFacts.ltb_ordered in Hgt. tauto.
  - exists kept, new. split; [exact S|]. split; [|exact F].
    symmetry. apply LoopFacts.sort_values_desc_perm.
Qed.

Lemma compare_search_table_witness :
  StronglySorted (desc price_diff)
    [(mkComparison "Zimmermann Silk Dress" "Zimmermann Silk Dress" 170 220 50
       "https://www.davidjones.com/product/zimmermann-silk-dress-12345"
       "https://www.theiconic.com.au/c");
     (mkComparison "Zimmermann Silk Dress" "Zimmermann Silk Dress" 120 220 100
       "https://www.davidjones.com/product/zimmermann-silk-dress-12345"
       "https://www.theiconic.com.au/a")] /\
  (exists (kept : list row) (rows : list comparison_record),
      sublist kept [Sample.candidate1; Cases.candidate_other_was; Cases.candidate_cheap] /\
      Permutation rows
        [(mkComparison "Zimmermann Silk Dress" "Zimmermann Silk Dress" 170 220 50
       "https://www.davidjones.com/product/zimmermann-silk-dress-12345"
       "https://www.theiconic.com.au/c");
         (mkComparison "Zimmermann Silk Dress" "Zimmermann Silk Dress" 120 220 100
       "https://www.davidjones.com/product/zimmermann-silk-dress-12345"
       "https://www.theiconic.com.au/a")] /\
      Forall2 (fun i c =>
                 title_pm c = r_title i /\ price_pm c = r_price i /\
                 link_pm c = r_link i /\
                 price_diff c = (price_dj c - price_pm c)%float /\
                 Py.gt (price_diff c) 100 = true) kept rows).
Proof.
  apply (compare_search_table Sample.urljoin Sample.quote Cases.web_full
           [Sample.candidate1; Cases.candidate_other_was; Cases.candidate_cheap]
           default_sim_thresh _
           [Progress 1 3; Progress 2 3; Progress 3 3; Notify 1 "Zimmermann Silk Dress"]).
  vm_compute. reflexivity.
Defined.


(** X11: a notification is printed exactly for the rows of the table whose
    difference of prices exceeds 150: it carries the row's [title_dj], with
    three stars when the difference exceeds 250, two when it exceeds 200 and
    not 250, one when it exceeds 150 and not 200. *)
Theorem notifications_are_rows :
  forall (urljoin : string -> string -> exc string) (quote : string -> string) (w : web)
         (pm : list row) (sim_thresh : float)
         (out : list comparison_record) (printed : list event),
    compare_search urljoin quote w pm sim_thresh = Ret (out, printed) ->
    (forall (n : nat) (t : string),
        In (Notify n t) printed ->
        exists c, In c out /\ title_dj c = t /\
          ((n = 3%nat /\ Py.gt (price_diff c) 250 = true) \/
           (n = 2%nat /\ Py.gt (price_diff c) 250 = false /\
            Py.gt (price_diff c) 200 = true) \/
           (n = 1%nat /\ Py.gt (price_diff c) 200 = false /\
            Py.gt (price_diff c) 150 = true))) /\
    (forall c, In c out ->
        (Py.gt (price_diff c) 250 = true -> In (Notify 3 (title_dj c)) printed) /\
        (Py.gt (price_diff c) 250 = false -> Py.gt (price_diff c) 200 = true ->
         In (Notify 2 (title_dj c)) printed) /\
        (Py.gt (price_diff c) 200 = false -> Py.gt (price_diff c) 150 = true ->
         In (Notify 1 (title_dj c)) printed)).
Proof.
  intros urljoin quote w pm sim_thresh out printed. unfold compare_search.
  destruct (compare_loop urljoin quote w sim_thresh _ _ _ pm) as [st|] eqn:E;
    [|discriminate].
  step. intros [= <- <-].
  apply LoopFacts.compare_loop_inv in E.
  destruct E as (kept & new & notes & M & P & _ & _ & N & R). simpl in M, P.
  rewrite P, M. split.
  - intros n t Hn. destruct (N _ _ Hn) as (c & Hc & Ht & Hs).
    exists c. split; [apply SortFacts.sort_values_desc_In; exact Hc|].
    split; [exact Ht|exact Hs].
  - intros c Hc. apply (proj1 (SortFacts.sort_values_desc_In price_diff c new)) in Hc.
    repeat split; intros; apply (R c _ Hc); unfold stars_for; auto.
Qed.

Lemma notifications_are_rows_witness :
  (exists c,
      In c [(mkComparison "Zimmermann Silk Dress" "Zimmermann Silk Dress" 170 220 50
       "https://www.davidjones.com/product/zimmermann-silk-dress-12345"
       "https://www.theiconic.com.au/c");
            (mkComparison "Zimmermann Silk Dress" "Zimmermann Silk Dress" 120 220 100
       "https://www.davidjones.com/product/zimmermann-silk-dress-12345"
       "https://www.theiconic.com.au/a")] /\
      title_dj c = "Zimmermann Silk Dress"%string /\
      ((1 = 3 /\ Py.gt (price_diff c) 250 = true) \/
       (1 = 2 /\ Py.gt (price_diff c) 250 = false /\ Py.gt (price_diff c) 200 = true) \/
       (1 = 1 /\ Py.gt (price_diff c) 200 = false /\
        Py.gt (price_diff c) 150 = true))%nat) /\
  In (Notify 1 "Zimmermann Silk Dress")
    [Progress 1 3; Progress 2 3; Progress 3 3; Notify 1 "Zimmermann Silk Dress"].
Proof.
  assert (E : compare_search Sample.urljoin Sample.quote Cases.web_full
                [Sample.candidate1; Cases.candidate_other_was; Cases.candidate_cheap]
                default_sim_thresh
              = Ret ([(mkComparison "Zimmermann Silk Dress" "Zimmermann Silk Dress" 170 220 50
       "https://www.davidjones.com/product/zimmermann-silk-dress-12345"
       "https://www.theiconic.com.au/c");
                      (mkComparison "Zimmermann Silk Dress" "Zimmermann Silk Dress" 120 220 100
       "https://www.davidjones.com/product/zimmermann-silk-dress-12345"
       "https://www.theiconic.com.au/a")],
                     [Progress 1 3; Progress 2 3; Progress 3 3;
                      Notify 1 "Zimmermann Silk Dress"]))
    by (vm_compute; reflexivity).
  destruct (notifications_are_rows _ _ _ _ _ _ _ E) as [H1 H2]. split.
  - apply (H1 1%nat "Zimmermann Silk Dress"%string). do 3 right. left. reflexivity.
  - apply (H2 (mkComparison "Zimmermann Silk Dress" "Zimmermann Silk Dress" 170 220 50
       "https://www.davidjones.com/product/zimmermann-silk-dress-12345"
       "https://www.theiconic.com.au/c")); [left; reflexivity|reflexivity|reflexivity].
Defined.


Module OutageFacts.

Section Outage.
Variable urljoin : string -> string -> exc string.
Variable quote : string -> string.
Variable listing : string -> exc (parsed (list anchor)).
Variable searching : string -> exc (parsed (list item)).
Variable e : pyexn.

Lemma reconcile_down price was pid :
  reconcile (mkWeb listing searching (fun _ => Raise e)) price was pid = (price, was, [LogWarn pid]).
Proof. reflexivity. Qed.

Lemma reconcile_none price was pid :
  reconcile (mkWeb listing searching (fun _ => Ret [])) price was pid = (price, was, []).
Proof. reflexivity. Qed.

Lemma compare_one_outage sim_thresh total s1 s2 idx i :
  same_progress s1 s2 ->
  match compare_one urljoin quote (mkWeb listing searching (fun _ => Raise e))
          sim_thresh total s1 idx i,
        compare_one urljoin quote (mkWeb listing searching (fun _ => Ret []))
          sim_thresh total s2 idx i with
  | Ret t1, Ret t2 => same_progress t1 t2
  | Raise e1, Raise e2 => e1 = e2
  | _, _ => False
  end.
Proof.
  intros [Hs Hm]. unfold compare_one. cbv zeta. cbn [get_search soup matches printed].
  set (u := ("https://www.davidjones.com/search?q=" +:+ quote (r_title i))%string).
  set (t1 := match searching u with Ret s => _ | Raise _ => _ end).
  set (t2 := match searching u with
             | Ret s => mkLoop (Some s) (matches s2) _
             | Raise _ => _ end).
  assert (H : same_progress t1 t2).
  { unfold t1, t2. destruct (searching u); split; simpl; auto. }
  clearbody t1 t2. destruct H as [Hs' Hm']. rewrite <- Hs'.
  destruct (soup t1) as [[[|it items]|]|] eqn:Es1; step.
  - split; [congruence|exact Hm'].
  - destruct (get_product_info urljoin it) as [[[[[title price] was] link] pid]|];
      [|reflexivity].
    rewrite reconcile_down, reconcile_none.
    destruct (gate sim_thresh title price was link i) as [[new notes]|]; [|reflexivity].
    split; simpl; [reflexivity|]. now rewrite Hm'.
  - reflexivity.
  - reflexivity.
Qed.

Lemma compare_loop_outage sim_thresh total pm : forall s1 s2 idx,
  same_progress s1 s2 ->
  match compare_loop urljoin quote (mkWeb listing searching (fun _ => Raise e))
          sim_thresh total s1 idx pm,
        compare_loop urljoin quote (mkWeb listing searching (fun _ => Ret []))
          sim_thresh total s2 idx pm with
  | Ret t1, Ret t2 => same_progress t1 t2
  | Raise e1, Raise e2 => e1 = e2
  | _, _ => False
  end.
Proof.
  induction pm as [|i pm IH]; intros s1 s2 idx H; simpl; [exact H|].
  pose proof (compare_one_outage sim_thresh total s1 s2 idx i H) as H1.
  destruct (compare_one urljoin quote (mkWeb listing searching (fun _ => Raise e))
              sim_thresh total s1 idx i) as [t1|e1],
           (compare_one urljoin quote (mkWeb listing searching (fun _ => Ret []))
              sim_thresh total s2 idx i) as [t2|e2];
    step; try contradiction; [|exact H1].
  apply IH. exact H1.
Qed.

End Outage.
End OutageFacts.

(** X12: an outage of the special-offers service is contained: whatever
    exception every offers request raises, [compare_search] returns the table
    it returns when the service answers with no offers (or stops with the
    same exception). *)
Theorem offers_outage_is_no_offers :
  forall (urljoin : string -> string -> exc string) (quote : string -> string)
         (listing : string -> exc (parsed (list anchor)))
         (searching : string -> exc (parsed (list item)))
         (e : pyexn) (pm : list row) (sim_thresh : float),
    same_table
      (compare_search urljoin quote (mkWeb listing searching (fun _ => Raise e))
         pm sim_thresh)
      (compare_search urljoin quote (mkWeb listing searching (fun _ => Ret []))
         pm sim_thresh).
Proof.
  intros urljoin quote listing searching e pm sim_thresh. unfold compare_search.
  pose proof (OutageFacts.compare_loop_outage urljoin quote listing searching e sim_thresh
                (List.length pm) pm (mkLoop None [] []) (mkLoop None [] []) 1%nat
                (conj eq_refl eq_refl)) as H.
  destruct (compare_loop _ _ (mkWeb listing searching (fun _ => Raise e)) _ _ _ _ pm)
    as [t1|e1],
           (compare_loop _ _ (mkWeb listing searching (fun _ => Ret [])) _ _ _ _ pm)
    as [t2|e2];
    step; simpl; try contradiction; [|exact H].
  destruct H as [_ ->]. reflexivity.
Qed.

(** X13: a candidate whose search page lists no product is skipped: when
    every search returns a document without entries, the table is empty,
    the only lines printed are the progress lines [*1/n] to [*n/n], one for
    each of the [n] candidates, and neither the product extractor nor the
    offers service is involved. *)
Theorem empty_search_results_give_empty_table :
  forall (urljoin : string -> string -> exc string) (quote : string -> string) (w : web)
         (pm : list row) (sim_thresh : float),
    (forall i, In i pm ->
       get_search w ("https://www.davidjones.com/search?q=" +:+ quote (r_title i))
       = Ret (Document [])) ->
    compare_search urljoin quote w pm sim_thresh
    = Ret ([], map (fun idx => Progress idx (List.length pm)) (seq 1 (List.length pm))).
Proof.
  intros urljoin quote w pm sim_thresh H. unfold compare_search.
  generalize (List.length pm) at 1 2. intros total.
  assert (Hloop : forall st idx, matches st = [] ->
            exists st', compare_loop urljoin quote w sim_thresh total st idx pm = Ret st' /\
                        matches st' = [] /\
                        printed st' = printed st ++
                          map (fun k => Progress k total) (seq idx (List.length pm))).
  { induction pm as [|i pm IH]; intros st idx Hm; simpl.
    - exists st. rewrite app_nil_r. auto.
    - unfold compare_one. rewrite (H i) by now left. cbn [soup matches printed]. step.
      destruct (IH (fun j Hj => H j (or_intror Hj))
                  (mkLoop (Some (Document [])) (matches st)
                     (printed st ++ [Progress idx total])) (S idx) Hm)
        as (st' & -> & Hm' & Hp').
      exists st'. split; [reflexivity|]. split; [exact Hm'|].
      rewrite Hp'. cbn [printed]. rewrite <- app_assoc. reflexivity. }
  destruct (Hloop (mkLoop None [] []) 1%nat eq_refl) as (st' & -> & Hm & Hp).
  step. rewrite Hm, Hp. reflexivity.
Qed.

Lemma empty_search_results_give_empty_table_witness :
  compare_search Sample.urljoin Sample.quote
    (mkWeb (fun _ => Raise RuntimeError) (fun _ => Ret (Document []))
           (fun _ => Raise RuntimeError))
    [Sample.candidate1; Sample.candidate2] default_sim_thresh
  = Ret ([], [Progress 1 2; Progress 2 2]).
Proof.
  apply (empty_search_results_give_empty_table Sample.urljoin Sample.quote
           (mkWeb (fun _ => Raise RuntimeError) (fun _ => Ret (Document []))
                  (fun _ => Raise RuntimeError))
           [Sample.candidate1; Sample.candidate2]).
  intros i _. reflexivity.
Defined.

(** *** The pages of the listing *)

Module PagesFacts.
Import ScrapeFacts.

Section Pages.
Variable urljoin : string -> string -> exc string.
Variable set_page_param : string -> nat -> string.
Variable w : web.

Lemma scrape_anchors_exact threshold items : forall rows,
  scrape_anchors urljoin threshold items = Ret rows ->
  forall r, In r rows <->
    exists a new, In a items /\ scrape_anchor urljoin threshold a = Ret new /\ In r new.
Proof.
  induction items as [|a items IH]; intros rows; simpl.
  - intros [= <-] r. split; [intros []|intros (a & new & [] & _)].
  - destruct (scrape_anchor urljoin threshold a) as [ra|] eqn:Ea; [|discriminate].
    destruct (scrape_anchors urljoin threshold items) as [rs|] eqn:Es; [|discriminate].
    step. intros [= <-] r. rewrite in_app_iff, (IH rs eq_refl r). split.
    + intros [Hr|(b & new & Hb & Hn & Hr)].
      * exists a, ra. auto.
      * exists b, new. auto.
    + intros (b & new & [<-|Hb] & Hn & Hr).
      * left. congruence.
      * right. exists b, new. auto.
Qed.

Lemma scrape_pages_exact start_url threshold n : forall first rows0 fuel rows,
  pages_full set_page_param w start_url first n ->
  get_listing w (_turn_page set_page_param start_url (first + n)) = Ret (Document []) ->
  scrape_pages urljoin set_page_param w fuel start_url threshold first rows0
  = Some (Ret rows) ->
  forall r, In r rows <->
    In r rows0 \/
    row_of_pages urljoin set_page_param w start_url threshold first n r.
Proof.
  induction n as [|n IH]; intros first rows0 fuel rows Hfull Hend;
    (destruct fuel as [|fuel]; [discriminate|]); simpl.
  - rewrite Nat.add_0_r in Hend. rewrite Hend. intros [= <-] r.
    split; [auto|]. intros [H|(p & _ & _ & _ & Hp & _)]; [exact H|lia].
  - destruct (Hfull first ltac:(lia)) as (items & Hitems & Hne). rewrite Hitems.
    destruct items as [|a items]; [congruence|].
    destruct (scrape_anchors urljoin threshold (a :: items)) as [new|] eqn:Hnew;
      [|discriminate].
    intros Hrows r.
    rewrite (IH (S first) (rows0 ++ new) fuel rows); [| | |exact Hrows].
    + rewrite in_app_iff, (scrape_anchors_exact _ _ _ Hnew r). split.
      * intros [[H|(b & nb & Hb & Hn & Hr)]|(p & its & b & nb & Hp & Hl & Hb & Hn & Hr)].
        -- now left.
        -- right. exists first, (a :: items), b, nb. repeat split; auto; lia.
        -- right. exists p, its, b, nb. repeat split; auto; lia.
      * intros [H|(p & its & b & nb & Hp & Hl & Hb & Hn & Hr)]; [now left; left|].
        destruct (Nat.eq_dec p first) as [->|Hne'].
        -- left. right. rewrite Hitems in Hl. inversion Hl; subst its.
           exists b, nb. auto.
        -- right. exists p, its, b, nb. repeat split; auto; lia.
    + intros p Hp. apply Hfull. lia.
    + replace (S first + n)%nat with (first + S n)%nat by lia. exact Hend.
Qed.

Lemma scrape_pages_aborts start_url threshold e n : forall first rows0 fuel,
  pages_full set_page_param w start_url first n ->
  hrefs_resolve urljoin set_page_param w start_url first n ->
  get_listing w (_turn_page set_page_param start_url (first + n)) = Raise e \/
  (get_listing w (_turn_page set_page_param start_url (first + n)) = Ret NotDocument /\
   e = AttributeError) ->
  (n < fuel)%nat ->
  scrape_pages urljoin set_page_param w fuel start_url threshold first rows0
  = Some (Raise e).
Proof.
  induction n as [|n IH]; intros first rows0 fuel Hfull Hres Hend Hfuel;
    (destruct fuel as [|fuel]; [lia|]); simpl.
  - rewrite Nat.add_0_r in Hend. destruct Hend as [-> |[-> ->]]; reflexivity.
  - destruct (Hfull first ltac:(lia)) as (items & Hitems & Hne). rewrite Hitems.
    destruct items as [|a items]; [congruence|].
    destruct (scrape_anchors_total urljoin threshold (a :: items)) as [new Hnew].
    { apply List.Forall_forall. intros b Hb. apply (Hres first (a :: items) b); auto. lia. }
    rewrite Hnew. apply IH; [| | |lia].
    + intros p Hp. apply Hfull. lia.
    + intros p its b Hp. apply Hres. lia.
    + replace (S first + n)%nat with (first + S n)%nat by lia. exact Hend.
Qed.

End Pages.
End PagesFacts.

(** X15: when pages 1 to [n] of the listing hold products and page [n + 1] is
    a document without products, a table that [scrape_iconic] returns holds
    exactly the rows built for the anchors of pages 1 to [n]: none is
    missing, none comes from elsewhere, and no page after [n + 1] matters;
    and the table is returned, with fuel for [n + 1] pages, when [urljoin]
    returns on the links of these pages. *)
Theorem scrape_iconic_exact_rows :
  forall (urljoin : string -> string -> exc string)
         (set_page_param : string -> nat -> string) (w : web)
         (brand : string) (threshold : float) (n : nat),
    pages_full set_page_param w ("https://www.theiconic.com.au/" +:+ brand) 1 n ->
    get_listing w (_turn_page set_page_param ("https://www.theiconic.com.au/" +:+ brand)
                     (S n)) = Ret (Document []) ->
    (forall (fuel : nat) (rows : list row),
        scrape_iconic urljoin set_page_param w fuel brand threshold = Some (Ret rows) ->
        forall r, In r rows <->
          row_of_pages urljoin set_page_param w
            ("https://www.theiconic.com.au/" +:+ brand) threshold 1 n r) /\
    (hrefs_resolve urljoin set_page_param w
       ("https://www.theiconic.com.au/" +:+ brand) 1 n ->
     forall fuel : nat, (n < fuel)%nat ->
       exists rows,
         scrape_iconic urljoin set_page_param w fuel brand threshold = Some (Ret rows)).
Proof.
  intros urljoin set_page_param w brand threshold n Hfull Hend. split.
  - intros fuel rows H r.
    destruct (scrape_iconic_inv _ _ _ _ _ _ _ H) as (rows0 & H0 & ->).
    rewrite (SortFacts.sort_values_desc_In r_diff r rows0).
    rewrite (PagesFacts.scrape_pages_exact urljoin set_page_param w _ threshold n 1 [] fuel
               rows0 Hfull Hend H0 r).
    simpl. tauto.
  - intros Hres fuel Hfuel. unfold scrape_iconic.
    destruct (ScrapeFacts.scrape_pages_returns urljoin set_page_param w _ threshold n 1 []
                fuel Hfull Hres Hend Hfuel) as [rows ->].
    eauto.
Qed.

Lemma scrape_iconic_exact_rows_witness :
  (forall r,
      In r [mkRow "Camilla Kaftan" 100 1100 1000 "https://www.theiconic.com.au/d";
     mkRow "Zimmermann Silk Dress" 220 443 223 "https://www.theiconic.com.au/a"] <->
      row_of_pages Sample.urljoin Sample.set_page_param Sample.web_listing
        "https://www.theiconic.com.au/womens-sale" 200%float 1 1 r) /\
  exists rows,
    scrape_iconic Sample.urljoin Sample.set_page_param Sample.web_listing 3
      "womens-sale" 200%float = Some (Ret rows).
Proof.
  assert (Hfull : pages_full Sample.set_page_param Sample.web_listing
                    ("https://www.theiconic.com.au/" +:+ "womens-sale") 1 1).
  { intros p Hp. assert (p = 1%nat) as -> by lia.
    exists Sample.listing_page. split; [reflexivity|discriminate]. }
  destruct (scrape_iconic_exact_rows Sample.urljoin Sample.set_page_param
              Sample.web_listing "womens-sale" 200%float 1 Hfull eq_refl) as [H1 H2].
  split.
  - apply (H1 3%nat). vm_compute. reflexivity.
  - apply H2; [|lia].
    intros p items a Hp Hl Ha. assert (p = 1%nat) as -> by lia.
    inversion Hl; subst items.
    destruct Ha as [<-|[<-|[<-|[<-|[]]]]]; eexists; vm_compute; reflexivity.
Defined.


(** X16: a page that cannot be read aborts the scrape: when pages 1 to [n]
    hold products, [urljoin] returns on their links, and the request for
    page [n + 1] raises, [scrape_iconic] raises the same exception; when
    that request returns something that is not a document, it raises
    [AttributeError].  The rows of the earlier pages are lost.  A link on
    which [urljoin] raises aborts the scrape as well. *)
Theorem scrape_iconic_aborts_on_failed_page :
  (forall (urljoin : string -> string -> exc string)
          (set_page_param : string -> nat -> string) (w : web)
          (brand : string) (threshold : float) (n fuel : nat),
      pages_full set_page_param w ("https://www.theiconic.com.au/" +:+ brand) 1 n ->
      hrefs_resolve urljoin set_page_param w
        ("https://www.theiconic.com.au/" +:+ brand) 1 n ->
      (n < fuel)%nat ->
      (forall e : pyexn,
          get_listing w (_turn_page set_page_param
                           ("https://www.theiconic.com.au/" +:+ brand) (S n)) = Raise e ->
          scrape_iconic urljoin set_page_param w fuel brand threshold = Some (Raise e)) /\
      (get_listing w (_turn_page set_page_param
                        ("https://www.theiconic.com.au/" +:+ brand) (S n))
       = Ret NotDocument ->
       scrape_iconic urljoin set_page_param w fuel brand threshold
       = Some (Raise AttributeError))) /\
  scrape_iconic Sample.urljoin Sample.set_page_param Cases.web_bad_href 3
    "womens-sale" 200%float = Some (Raise ValueError).
Proof.
  split; [|vm_compute; reflexivity].
  intros urljoin set_page_param w brand threshold n fuel Hfull Hres Hfuel.
  unfold scrape_iconic. split.
  - intros e Hend.
    rewrite (PagesFacts.scrape_pages_aborts urljoin set_page_param w _ threshold e n 1 []
               fuel Hfull Hres (or_introl Hend) Hfuel).
    reflexivity.
  - intros Hend.
    rewrite (PagesFacts.scrape_pages_aborts urljoin set_page_param w _ threshold
               AttributeError n 1 [] fuel Hfull Hres
               (or_intror (conj Hend eq_refl)) Hfuel).
    reflexivity.
Qed.

Lemma scrape_iconic_aborts_on_failed_page_witness :
  scrape_iconic Sample.urljoin Sample.set_page_param Cases.web_second_page_fails 5
    "womens-sale" 200%float = Some (Raise RuntimeError) /\
  scrape_iconic Sample.urljoin Sample.set_page_param Cases.web_second_page_text 5
    "womens-sale" 200%float = Some (Raise AttributeError).
Proof.
  assert (Hres : forall a, In a Sample.listing_page -> href_resolves Sample.urljoin a).
  { intros a Ha.
    destruct Ha as [<-|[<-|[<-|[<-|[]]]]]; eexists; vm_compute; reflexivity. }
  assert (Hlt : (1 < 5)%nat) by lia.
  split.
  - refine (proj1 (proj1 scrape_iconic_aborts_on_failed_page Sample.urljoin
                     Sample.set_page_param Cases.web_second_page_fails "womens-sale"
                     200%float 1%nat 5%nat _ _ Hlt) RuntimeError eq_refl).
    + intros p Hp. assert (p = 1%nat) as -> by lia.
      exists Sample.listing_page. split; [reflexivity|discriminate].
    + intros p items a Hp Hl. assert (p = 1%nat) as -> by lia.
      inversion Hl; subst items. apply Hres.
  - refine (proj2 (proj1 scrape_iconic_aborts_on_failed_page Sample.urljoin
                     Sample.set_page_param Cases.web_second_page_text "womens-sale"
                     200%float 1%nat 5%nat _ _ Hlt) eq_refl).
    + intros p Hp. assert (p = 1%nat) as -> by lia.
      exists Sample.listing_page. split; [reflexivity|discriminate].
    + intros p items a Hp Hl. assert (p = 1%nat) as -> by lia.
      inversion Hl; subst items. apply Hres.
Defined.


Module RowFacts.

Lemma get_num_ordered text x : get_num text = Ret (Some x) -> FloatOrder.ordered x.
Proof.
  unfold get_num, get_num_body. destruct text as [s|]; [|discriminate]. step.
  destruct (Re.search num_re s); [|discriminate].
  destruct (Str.float_of_decimal _) as [y|] eqn:E; [|discriminate].
  simpl. intros [= <-]. eapply Prices.float_of_decimal_ordered. exact E.
Qed.

Lemma scrape_anchor_real urljoin threshold a rows :
  scrape_anchor urljoin threshold a = Ret rows ->
  forall r, In r rows -> real_price (r_price r) /\ real_price (r_was r).
Proof.
  unfold scrape_anchor.
  destruct (get_num (a_price_final a)) as [pf|] eqn:Ef; [|discriminate].
  destruct (get_num (a_price_original a)) as [po|] eqn:Eo; [|discriminate].
  step.
  destruct pf as [pf|], po as [po|];
    [destruct (Py.truthy_float pf) eqn:Tf, (Py.truthy_float po) eqn:To;
      [destruct (Py.ge (po - pf) threshold) eqn:E;
        [destruct (if Str.truthy _ then _ else _) as [link|]; [|discriminate]|]|..]|..];
    intros [= <-] r Hr; simpl in Hr; try contradiction.
  destruct Hr as [<-|[]]. simpl. unfold real_price.
  repeat split; eauto using get_num_ordered.
Qed.

Lemma scrape_pages_real urljoin set_page_param w start_url threshold fuel :
  forall page rows0 rows,
    scrape_pages urljoin set_page_param w fuel start_url threshold page rows0
    = Some (Ret rows) ->
    (forall r, In r rows0 -> real_price (r_price r) /\ real_price (r_was r)) ->
    forall r, In r rows -> real_price (r_price r) /\ real_price (r_was r).
Proof.
  induction fuel as [|fuel IH]; intros page rows0 rows; simpl; [discriminate|].
  destruct (get_listing w (_turn_page set_page_param start_url page))
    as [[[|a items]|]|] eqn:Eg; try discriminate.
  - intros [= <-]. auto.
  - destruct (scrape_anchors urljoin threshold (a :: items)) as [new|] eqn:En;
      [|discriminate].
    intros Hrec H0. apply (IH _ _ _ Hrec).
    intros r Hr. apply in_app_or in Hr. destruct Hr as [Hr|Hr]; [now apply H0|].
    apply (PagesFacts.scrape_anchors_exact urljoin threshold _ _ En) in Hr.
    destruct Hr as (b & nb & _ & Hb & Hr). eapply scrape_anchor_real; eassumption.
Qed.

End RowFacts.

(** X17: every row of the table of [scrape_iconic] has a current price and an
    original price that are numbers other than zero: an anchor one of whose
    prices reads as 0 gives no row. *)
Theorem scraped_rows_have_real_prices :
  forall (urljoin : string -> string -> exc string)
         (set_page_param : string -> nat -> string) (w : web)
         (fuel : nat) (brand : string) (threshold : float) (rows : list row),
    scrape_iconic urljoin set_page_param w fuel brand threshold = Some (Ret rows) ->
    forall r : row, In r rows -> real_price (r_price r) /\ real_price (r_was r).
Proof.
  intros urljoin set_page_param w fuel brand threshold rows H r Hr.
  destruct (scrape_iconic_inv _ _ _ _ _ _ _ H) as (rows0 & H0 & ->).
  apply SortFacts.sort_values_desc_In in Hr.
  eapply RowFacts.scrape_pages_real; [exact H0| |exact Hr]. intros ? [].
Qed.

Lemma scraped_rows_have_real_prices_witness :
  real_price 50%float /\ real_price 250%float.
Proof.
  apply (scraped_rows_have_real_prices Sample.urljoin Sample.set_page_param
           Cases.web_free_item 3 "womens-sale" 100%float
           [mkRow "Aje Top" 50 250 200 "https://www.theiconic.com.au/t"] eq_refl
           (mkRow "Aje Top" 50 250 200 "https://www.theiconic.com.au/t")).
  left. reflexivity.
Defined.

(** *** The request loop *)

Module RequestFacts.

Section Request.
Context {A : Type}.
Variable net : list action -> bool -> attempt_outcome A.
Variable time_sleep : float -> exc unit.

(** What a call of the loop did: some rounds that failed, each followed by
    a sleep that returned, then a round that fetched, or a round that failed
    and a sleep that raised, or nothing more once [n] rounds have failed. *)
Lemma request_rounds_spec sleep n : forall log r log',
  request_rounds net time_sleep sleep n log = (r, log') ->
  exists rounds final,
    log' = log ++ concat rounds ++ final /\
    failed_rounds net log rounds /\
    (rounds <> [] -> time_sleep sleep = Ret tt) /\
    ((r = Raise RuntimeError /\ final = [] /\ List.length rounds = n) \/
     (exists a, r = Ret a /\ (List.length rounds < n)%nat /\
                last_round net (log ++ concat rounds) final a) \/
     (exists e, r = Raise e /\ (List.length rounds < n)%nat /\
                time_sleep sleep = Raise e /\
                failed_attempts net (log ++ concat rounds) final)).
Proof.
  induction n as [|n IH]; intros log r log'; simpl.
  { intros [= <- <-]. exists [], []. simpl. rewrite app_nil_r.
    split; [reflexivity|]. split; [exact I|]. split; [congruence|]. left. auto. }
  assert (Hretry : forall acts,
            failed_attempts net log acts ->
            match time_sleep sleep with
            | Ret _ => request_rounds net time_sleep sleep n (log ++ acts ++ [Sleep])
            | Raise e => (Raise e, log ++ acts)
            end = (r, log') ->
            exists rounds final,
              log' = log ++ concat rounds ++ final /\
              failed_rounds net log rounds /\
              (rounds <> [] -> time_sleep sleep = Ret tt) /\
              ((r = Raise RuntimeError /\ final = [] /\ List.length rounds = S n) \/
               (exists a, r = Ret a /\ (List.length rounds < S n)%nat /\
                          last_round net (log ++ concat rounds) final a) \/
               (exists e, r = Raise e /\ (List.length rounds < S n)%nat /\
                          time_sleep sleep = Raise e /\
                          failed_attempts net (log ++ concat rounds) final))).
  { intros acts Hacts. destruct (time_sleep sleep) as [[]|e] eqn:Es.
    - intros H. apply IH in H. destruct H as (rounds & final & -> & Hf & _ & Hr).
      exists ((acts ++ [Sleep]) :: rounds), final.
      split; [simpl; rewrite <- !app_assoc; reflexivity|].
      split; [split; [exists acts; auto|exact Hf]|].
      split; [reflexivity|].
      cbn [concat List.length]. rewrite (app_assoc log).
      destruct Hr as [(-> & -> & <-)|[(a & -> & Hl & Hlast)|(e & -> & Hl & He & Hlast)]].
      + left. auto.
      + right. left. exists a. split; [reflexivity|]. split; [lia|exact Hlast].
      + congruence.
    - intros [= <- <-]. exists [], acts. simpl. rewrite !app_nil_r.
      split; [reflexivity|]. split; [exact I|]. split; [congruence|].
      right. right. exists e. split; [reflexivity|]. split; [lia|]. auto. }
  destruct (net log true) as [a| |] eqn:E1.
  - intros [= <- <-]. exists [], [Attempt true]. simpl.
    split; [reflexivity|]. split; [exact I|]. split; [congruence|].
    right. left. exists a. split; [reflexivity|]. split; [lia|].
    left. rewrite app_nil_r. auto.
  - destruct (net (log ++ [Attempt true]) false) as [a| |] eqn:E2.
    + intros [= <- <-]. exists [], [Attempt true; Attempt false]. simpl.
      split; [reflexivity|]. split; [exact I|]. split; [congruence|].
      right. left. exists a. split; [reflexivity|]. split; [lia|].
      right. rewrite app_nil_r. auto.
    + apply (Hretry [Attempt true; Attempt false]).
      right. repeat split; auto. intros a. congruence.
    + apply (Hretry [Attempt true; Attempt false]).
      right. repeat split; auto. intros a. congruence.
  - apply (Hretry [Attempt true]). left. auto.
Qed.

Lemma failed_attempts_shape log acts :
  failed_attempts net log acts ->
  acts = [Attempt true] \/
  (acts = [Attempt true; Attempt false] /\ net log true = SSLError).
Proof. intros [[-> _]|(-> & H & _)]; auto. Qed.

Lemma failed_rounds_counts rounds : forall log,
  failed_rounds net log rounds ->
  List.length (List.filter is_sleep (concat rounds)) = List.length rounds /\
  List.length (List.filter is_verified (concat rounds)) = List.length rounds /\
  (rounds <> [] -> last (concat rounds) = Some Sleep).
Proof.
  induction rounds as [|r rounds IH]; intros log; simpl.
  - intros _. repeat split; auto. congruence.
  - intros [(acts & -> & Hacts) Hrest]. destruct (IH _ Hrest) as (Hs & Hv & Hl).
    rewrite !List.filter_app, !length_app, Hs, Hv.
    apply failed_attempts_shape in Hacts.
    assert (Hr' : acts = [Attempt true] \/ acts = [Attempt true; Attempt false])
      by (destruct Hacts as [->|[-> _]]; auto).
    split; [destruct Hr' as [-> | ->]; reflexivity|].
    split; [destruct Hr' as [-> | ->]; reflexivity|].
    intros _. destruct rounds as [|r' rounds].
    + simpl. rewrite app_nil_r. destruct Hr' as [-> | ->]; reflexivity.
    + rewrite last_app. rewrite Hl by discriminate. reflexivity.
Qed.

(** An unverified attempt comes right after a verified attempt that met an
    SSL error, in the rounds that failed and in the one that ended the
    call. *)
Lemma unverified_after_ssl rounds final : forall log pre post,
  failed_rounds net log rounds ->
  final = [] \/ final = [Attempt true] \/
  (final = [Attempt true; Attempt false] /\ net (log ++ concat rounds) true = SSLError) ->
  concat rounds ++ final = pre ++ Attempt false :: post ->
  exists pre', pre = pre' ++ [Attempt true] /\ net (log ++ pre') true = SSLError.
Proof.
  induction rounds as [|r rounds IH]; intros log pre post; simpl.
  - intros _ Hfinal H. rewrite app_nil_r in Hfinal.
    destruct Hfinal as [->|[->|[-> Hssl]]].
    + destruct pre; discriminate.
    + destruct pre as [|? [|? ?]]; discriminate.
    + destruct pre as [|? [|? [|? ?]]]; try discriminate.
      inversion H; subst. exists []. rewrite app_nil_r. auto.
  - intros [(acts & -> & Hacts) Hrest] Hfinal H.
    assert (Hfinal' : final = [] \/ final = [Attempt true] \/
              (final = [Attempt true; Attempt false] /\
               net ((log ++ acts ++ [Sleep]) ++ concat rounds) true = SSLError)).
    { destruct Hfinal as [->|[->|[-> Hssl]]]; auto.
      right. right. split; [reflexivity|]. rewrite <- app_assoc. exact Hssl. }
    apply failed_attempts_shape in Hacts. destruct Hacts as [->|[-> Hssl]]; simpl in H.
    + destruct pre as [|x [|y pre]]; try discriminate.
      inversion H as [[Hx Hy Hc]]. subst.
      destruct (IH _ _ _ Hrest Hfinal' Hc) as (pre' & -> & Hn').
      exists (Attempt true :: Sleep :: pre'). split; [reflexivity|].
      rewrite <- Hn'. f_equal. rewrite <- app_assoc. reflexivity.
    + destruct pre as [|x [|y [|z pre]]]; try discriminate.
      * inversion H; subst. exists []. rewrite app_nil_r. auto.
      * inversion H as [[Hx Hy Hz Hc]]. subst.
        destruct (IH _ _ _ Hrest Hfinal' Hc) as (pre' & -> & Hn').
        exists (Attempt true :: Attempt false :: Sleep :: pre'). split; [reflexivity|].
        rewrite <- Hn'. f_equal. rewrite <- app_assoc. reflexivity.
Qed.

(** When no attempt ever fetches and the sleep returns, the loop gives up. *)
Lemma request_rounds_all_fail sleep n : forall log,
  (forall l v a, net l v <> Fetched a) ->
  time_sleep sleep = Ret tt ->
  exists log', request_rounds net time_sleep sleep n log = (Raise RuntimeError, log').
Proof.
  intros log Hnet Hs. revert log.
  induction n as [|n IH]; intros log; simpl; [eauto|].
  rewrite Hs.
  destruct (net log true) as [a| |] eqn:E1; [destruct (Hnet _ _ _ E1)| |apply IH].
  destruct (net (log ++ [Attempt true]) false) as [a| |] eqn:E2;
    [destruct (Hnet _ _ _ E2)|apply IH..].
Qed.

End Request.
End RequestFacts.

(** X18: [http_request] returns what its last attempt fetched, or raises
    what [time.sleep] raises on the delay [sleep] after the first round of
    attempts has failed, or raises [RuntimeError]; it does nothing else.
    It raises [RuntimeError] only when [max(1, retries)] rounds failed one
    after the other and the sleep after each returned: it has then made
    that many verified attempts and slept as many times, the last time just
    before raising.  It does raise [RuntimeError] when no attempt fetches
    and the sleep returns. *)
Theorem http_request_gives_up :
  forall (A : Type) (net : list action -> bool -> attempt_outcome A)
         (time_sleep : float -> exc unit) (retries : Z) (sleep : float),
    (forall (r : exc A) (log : list action),
        http_request net time_sleep retries sleep = (r, log) ->
        (exists a before v,
            r = Ret a /\ log = before ++ [Attempt v] /\ net before v = Fetched a) \/
        (exists e,
            r = Raise e /\ time_sleep sleep = Raise e /\ failed_attempts net [] log) \/
        (r = Raise RuntimeError /\ time_sleep sleep = Ret tt /\
         Z.of_nat (List.length (List.filter is_verified log)) = Z.max 1 retries /\
         Z.of_nat (List.length (List.filter is_sleep log)) = Z.max 1 retries /\
         last log = Some Sleep)) /\
    ((forall l v a, net l v <> Fetched a) -> time_sleep sleep = Ret tt ->
     exists log, http_request net time_sleep retries sleep = (Raise RuntimeError, log)).
Proof.
  intros A net time_sleep retries sleep. split.
  - intros r log H. unfold http_request in H.
    apply RequestFacts.request_rounds_spec in H.
    destruct H as (rounds & final & -> & Hf & Hsl &
                   [(-> & -> & Hn)|[(a & -> & _ & Hlast)|(e & -> & _ & He & Hlast)]]).
    + right. right.
      destruct (RequestFacts.failed_rounds_counts net rounds [] Hf) as (Hs & Hv & Hl).
      assert (Hne : rounds <> []) by (intros ->; simpl in Hn; lia).
      simpl. rewrite app_nil_r, Hs, Hv, Hn. repeat split; auto; lia.
    + left. simpl in *. destruct Hlast as [[-> Hnet]|(-> & Hssl & Hnet)].
      * exists a, (concat rounds), true. auto.
      * exists a, (concat rounds ++ [Attempt true]), false.
        split; [reflexivity|]. split; [rewrite <- app_assoc; reflexivity|exact Hnet].
    + right. left. exists e. split; [reflexivity|]. split; [exact He|].
      destruct rounds as [|r0 rounds]; [exact Hlast|].
      rewrite Hsl in He by discriminate. discriminate.
  - intros Hnet Hs. apply RequestFacts.request_rounds_all_fail; assumption.
Qed.

Lemma http_request_gives_up_witness :
  ((exists a before v,
       @Raise string RuntimeError = Ret a /\ [Attempt true; Attempt false; Sleep; Attempt true; Sleep] = before ++ [Attempt v] /\
       Cases.net_ssl_then_refused before v = Fetched a) \/
   (exists e,
       @Raise string RuntimeError = Raise e /\ Cases.time_sleep 8%float = Raise e /\
       failed_attempts Cases.net_ssl_then_refused [] [Attempt true; Attempt false; Sleep; Attempt true; Sleep]) \/
   (@Raise string RuntimeError = Raise RuntimeError /\ Cases.time_sleep 8%float = Ret tt /\
    Z.of_nat (List.length (List.filter is_verified [Attempt true; Attempt false; Sleep; Attempt true; Sleep])) = Z.max 1 2 /\
    Z.of_nat (List.length (List.filter is_sleep [Attempt true; Attempt false; Sleep; Attempt true; Sleep])) = Z.max 1 2 /\
    last [Attempt true; Attempt false; Sleep; Attempt true; Sleep] = Some Sleep)) /\
  ((exists a before v,
       @Raise string ValueError = Ret a /\ [Attempt true; Attempt false] = before ++ [Attempt v] /\
       Cases.net_ssl_then_refused before v = Fetched a) \/
   (exists e,
       @Raise string ValueError = Raise e /\ Cases.time_sleep (-1)%float = Raise e /\
       failed_attempts Cases.net_ssl_then_refused [] [Attempt true; Attempt false]) \/
   (@Raise string ValueError = Raise RuntimeError /\ Cases.time_sleep (-1)%float = Ret tt /\
    Z.of_nat (List.length (List.filter is_verified [Attempt true; Attempt false])) = Z.max 1 2 /\
    Z.of_nat (List.length (List.filter is_sleep [Attempt true; Attempt false])) = Z.max 1 2 /\
    last [Attempt true; Attempt false] = Some Sleep)).
Proof.
  split.
  - apply (proj1 (http_request_gives_up string Cases.net_ssl_then_refused
                    Cases.time_sleep 2 8%float)).
    vm_compute. reflexivity.
  - apply (proj1 (http_request_gives_up string Cases.net_ssl_then_refused
                    Cases.time_sleep 2 (-1)%float)).
    vm_compute. reflexivity.
Defined.


(** X19: whatever [http_request] returns or raises, an attempt without
    certificate verification is only ever made right after a verified
    attempt that met an SSL error; there are at most [max(1, retries)]
    verified attempts and as many sleeps, and fewer sleeps than that when a
    result is returned. *)
Theorem http_request_unverified_attempts :
  forall (A : Type) (net : list action -> bool -> attempt_outcome A)
         (time_sleep : float -> exc unit) (retries : Z) (sleep : float)
         (r : exc A) (log : list action),
    http_request net time_sleep retries sleep = (r, log) ->
    (forall pre post, log = pre ++ Attempt false :: post ->
       exists pre', pre = pre' ++ [Attempt true] /\ net pre' true = SSLError) /\
    Z.of_nat (List.length (List.filter is_verified log)) <= Z.max 1 retries /\
    Z.of_nat (List.length (List.filter is_sleep log)) <= Z.max 1 retries /\
    (forall a, r = Ret a ->
       Z.of_nat (List.length (List.filter is_sleep log)) < Z.max 1 retries).
Proof.
  intros A net time_sleep retries sleep r log H. unfold http_request in H.
  apply RequestFacts.request_rounds_spec in H.
  destruct H as (rounds & final & -> & Hf & _ & Hr). simpl in *.
  destruct (RequestFacts.failed_rounds_counts net rounds [] Hf) as (Hs & Hv & _).
  assert (Hfinal : (final = [] /\ List.length rounds = Z.to_nat (Z.max 1 retries) /\
                    forall a, r <> Ret a) \/
                   ((final = [Attempt true] \/
                     (final = [Attempt true; Attempt false] /\
                      net (concat rounds) true = SSLError)) /\
                    (List.length rounds < Z.to_nat (Z.max 1 retries))%nat)).
  { destruct Hr as [(-> & -> & Hn)|[(a & -> & Hn & Hlast)|(e & -> & Hn & _ & Hlast)]].
    - left. split; [reflexivity|]. split; [exact Hn|]. discriminate.
    - right. split; [|exact Hn]. destruct Hlast as [[-> _]|(-> & Hssl & _)]; auto.
    - right. split; [|exact Hn].
      apply RequestFacts.failed_attempts_shape in Hlast. exact Hlast. }
  split.
  - intros pre post Hlog.
    apply (RequestFacts.unverified_after_ssl net rounds final [] pre post Hf); [|exact Hlog].
    destruct Hfinal as [(-> & _)|[[->|[-> Hssl]] _]]; auto.
  - rewrite !List.filter_app, !length_app, Hs, Hv.
    destruct Hfinal as [(-> & Hn & Hne)|[[->|[-> _]] Hn]]; simpl;
      (split; [lia|]); (split; [lia|]); intros a Ha; try lia.
    destruct (Hne a Ha).
Qed.

Lemma http_request_unverified_attempts_witness :
  (forall pre post, [Attempt true; Attempt false] = pre ++ Attempt false :: post ->
     exists pre', pre = pre' ++ [Attempt true] /\
                  Cases.net_bad_certificate pre' true = SSLError) /\
  Z.of_nat (List.length (List.filter is_verified [Attempt true; Attempt false]))
  <= Z.max 1 2 /\
  Z.of_nat (List.length (List.filter is_sleep [Attempt true; Attempt false]))
  <= Z.max 1 2 /\
  (forall a, Ret "<html></html>"%string = Ret a ->
     Z.of_nat (List.length (List.filter is_sleep [Attempt true; Attempt false]))
     < Z.max 1 2).
Proof.
  apply (http_request_unverified_attempts string Cases.net_bad_certificate
           Cases.time_sleep 2 8%float).
  vm_compute. reflexivity.
Defined.


(** *** The declared charset *)

Module SniffFacts.
Import ReSem ReFacts PatternFacts.

Lemma sem_iter_no_groups r :
  (forall base w cs, sem r base w cs -> cs = []) ->
  forall l base, sem_iter (sem r) base l -> concat (rev (map snd l)) = [].
Proof.
  intros Hr. induction l as [|[w c] l IH]; intros base H; [reflexivity|].
  destruct H as [H1 H2]. apply Hr in H1. subst c. apply IH in H2.
  simpl. rewrite concat_app, H2. reflexivity.
Qed.

Lemma sem_no_groups r : no_groups r = true ->
  forall base w cs, sem r base w cs -> cs = [].
Proof.
  induction r as [|p|r1 IH1 r2 IH2|r1 IH1 r2 IH2|lo hi r1 IH1|i r1 IH1| |];
    simpl; intros Hn base w cs H; try discriminate; try tauto.
  - apply andb_prop in Hn. destruct Hn as [H1 H2].
    destruct H as (w1 & w2 & c1 & c2 & -> & -> & S1 & S2).
    apply (IH1 H1) in S1. apply (IH2 H2) in S2. subst. reflexivity.
  - apply andb_prop in Hn. destruct Hn as [H1 H2].
    destruct H as [H|H]; [eapply IH1|eapply IH2]; eassumption.
  - destruct H as (l & -> & -> & Hl & _).
    eapply sem_iter_no_groups; [apply IH1, Hn|exact Hl].
Qed.

Lemma sem_seqs_cons r rs base w cs :
  sem (Re.seqs (r :: rs)) base w cs ->
  exists w1 w2 c1 c2,
    w = w1 ++ w2 /\ cs = c2 ++ c1 /\
    sem r base w1 c1 /\ sem (Re.seqs rs) (base + List.length w1) w2 c2.
Proof.
  destruct rs as [|r' rs].
  - intros H. exists w, [], cs, []. rewrite app_nil_r. simpl. auto.
  - intros H. exact H.
Qed.

Lemma sem_seqs_no_groups rs : forallb no_groups rs = true ->
  forall base w cs, sem (Re.seqs rs) base w cs -> cs = [].
Proof.
  induction rs as [|r rs IH]; simpl; intros Hn base w cs H; [tauto|].
  apply andb_prop in Hn. destruct Hn as [H1 H2].
  apply sem_seqs_cons in H. destruct H as (w1 & w2 & c1 & c2 & -> & -> & S1 & S2).
  apply (sem_no_groups _ H1) in S1. apply (IH H2) in S2. subst. reflexivity.
Qed.

(** A sequence with one group, a charset name: its only capture is the
    name. *)
Lemma sem_seqs_name pre i post : forallb no_groups pre = true ->
  forallb no_groups post = true ->
  forall base w cs,
    sem (Re.seqs (pre ++ charset_name i :: post)) base w cs ->
    exists u1 u u2,
      w = u1 ++ u ++ u2 /\
      cs = [(i, ((base + List.length u1)%nat, (base + List.length u1 + List.length u)%nat))] /\
      u <> [] /\ Forall (fun c => is_charset_char c = true) u.
Proof.
  intros Hpre Hpost. induction pre as [|r pre IH]; intros base w cs H.
  - simpl app in H. apply sem_seqs_cons in H.
    destruct H as (w1 & w2 & c1 & c2 & -> & -> & (c' & -> & S1) & S2).
    apply sem_rep_chr in S1. destruct S1 as (F & -> & Hlo & _).
    apply (sem_seqs_no_groups _ Hpost) in S2. subst c2.
    exists [], w1, w2. simpl. rewrite Nat.add_0_r. repeat split; auto.
    intros ->. simpl in Hlo. lia.
  - simpl in Hpre. apply andb_prop in Hpre. destruct Hpre as [H1 H2].
    change ((r :: pre) ++ charset_name i :: post)
      with (r :: (pre ++ charset_name i :: post)) in H.
    apply sem_seqs_cons in H.
    destruct H as (w1 & w2 & c1 & c2 & -> & -> & S1 & S2).
    apply (sem_no_groups _ H1) in S1. subst c1.
    apply (IH H2) in S2. destruct S2 as (u1 & u & u2 & -> & -> & Hne & F).
    exists (w1 ++ u1), u, u2. rewrite <- !app_assoc, app_nil_r.
    repeat split; auto. rewrite !length_app, !Nat.add_assoc. reflexivity.
Qed.

Lemma sem_meta_charset base w cs : sem meta_charset base w cs -> names_charset 1 base w cs.
Proof.
  unfold meta_charset.
  apply (sem_seqs_name [Re.iword "<meta"; Re.plus not_gt; Re.iword "charset=";
                        Re.opt quote_re; Re.star blank] 1
                       [Re.star blank; Re.opt quote_re; Re.star not_gt; Re.lit ">"]);
    reflexivity.
Qed.

Lemma sem_meta_http_equiv base w cs : sem meta_http_equiv base w cs -> names_charset 2 base w cs.
Proof.
  unfold meta_http_equiv.
  apply (sem_seqs_name [Re.iword "<meta"; Re.plus not_gt; Re.iword "http-equiv=";
           Re.opt quote_re; Re.iword "content-type"; Re.opt quote_re;
           Re.plus not_gt; Re.iword "content="; quote_re; Re.star not_quote;
           Re.lit ";"; Re.star blank; Re.iword "charset="] 2
           [Re.star not_quote; quote_re; Re.star not_gt; Re.lit ">"]);
    reflexivity.
Qed.

Lemma sem_xml_declaration base w cs : sem xml_declaration base w cs -> names_charset 3 base w cs.
Proof.
  unfold xml_declaration.
  apply (sem_seqs_name [Re.iword "<?xml"; Re.star not_gt; Re.iword "encoding="; quote_re;
                        Re.star blank] 3 [Re.star blank; quote_re]);
    reflexivity.
Qed.

(** What a match of [_META_CHARSET_RE] holds: one group, a charset name
    found in the text. *)
Lemma meta_charset_search_sound raw m :
  meta_charset_search raw = Some m ->
  exists i pre u post,
    (i = 1 \/ i = 2 \/ i = 3)%nat /\
    Str.chars raw = pre ++ u ++ post /\
    Re.subject m = Str.chars raw /\
    Re.groups m = [(i, (List.length pre, (List.length pre + List.length u)%nat))] /\
    u <> [] /\ Forall (fun c => is_charset_char c = true) u.
Proof.
  unfold meta_charset_search.
  destruct (Re.run _ (Re.mkState 0 None (Str.chars raw) []) Some) as [s|] eqn:E0.
  - intros [= <-]. apply run_sound in E0.
    destruct E0 as (s' & (w & new & R & P & C & L) & [= ->]). simpl in R, P, C, L.
    assert (H : exists i, (i = 1 \/ i = 2 \/ i = 3)%nat /\ names_charset i 0 w new).
    { destruct L as [L|[L|L]].
      - exists 1%nat. split; [auto|]. now apply sem_meta_charset.
      - exists 2%nat. split; [auto|]. now apply sem_meta_http_equiv.
      - exists 3%nat. split; [auto|]. now apply sem_xml_declaration. }
    destruct H as (i & Hi & u1 & u & u2 & -> & -> & Hne & F).
    exists i, u1, u, (u2 ++ Re.rest s). simpl.
    rewrite R, C, <- !app_assoc, app_nil_r. repeat split; auto.
  - destruct (Str.chars raw) as [|c tl] eqn:Ew; [discriminate|].
    intros H. apply search_from_sound in H; [|reflexivity|simpl; lia].
    destruct H as (pre & w & post & Hw & _ & Hm & Hsem).
    assert (H : exists i, (i = 1 \/ i = 2 \/ i = 3)%nat /\
                          names_charset i (List.length pre) w (Re.groups m)).
    { destruct Hsem as [L|L].
      - exists 1%nat. split; [auto|]. now apply sem_meta_charset.
      - exists 2%nat. split; [auto|]. now apply sem_meta_http_equiv. }
    destruct H as (i & Hi & u1 & u & u2 & -> & Hg & Hne & F).
    exists i, (pre ++ u1), u, (u2 ++ post).
    rewrite Hm at 1. simpl. rewrite Hg, Hw, <- !app_assoc, length_app.
    repeat split; auto.
Qed.

Lemma first_group_name m whole i pre u post :
  (i = 1 \/ i = 2 \/ i = 3)%nat ->
  whole = pre ++ u ++ post ->
  Re.subject m = whole ->
  Re.groups m = [(i, (List.length pre, (List.length pre + List.length u)%nat))] ->
  u <> [] ->
  first_group m = Some (Str.of_chars u).
Proof.
  intros Hi Hw Hs Hg Hne. unfold first_group, Re.group. rewrite Hg, Hs.
  assert (Hsl : Re.slice whole (List.length pre, (List.length pre + List.length u)%nat)
                = Str.of_chars u) by (apply (slice_at _ pre u post); auto).
  assert (Ht : Str.truthy (Str.of_chars u) = true) by (destruct u; [congruence|reflexivity]).
  destruct Hi as [-> |[-> | ->]]; simpl; rewrite Hsl, Ht; reflexivity.
Qed.

Lemma charset_char_lower c :
  is_charset_char c = true ->
  (Str.code c <? 128)%nat = true /\ is_charset_lower (Str.lower_str_char c) = true.
Proof.
  destruct c as [[] [] [] [] [] [] [] []]; vm_compute; intros H; try discriminate; auto.
Qed.

Lemma lower_decode_name u :
  Forall (fun c => is_charset_char c = true) u ->
  exists v, Str.lower (decode_ascii_ignore (Str.of_chars u)) = Str.of_chars v /\
            List.length v = List.length u /\
            Forall (fun c => is_charset_lower c = true) v.
Proof.
  intros F. unfold decode_ascii_ignore, Str.lower. rewrite !chars_of_chars.
  assert (E : List.filter (fun c => (Str.code c <? 128)%nat) u = u).
  { induction F as [|c u Hc F IH]; simpl; [reflexivity|].
    destruct (charset_char_lower c Hc) as [-> _]. now rewrite IH. }
  rewrite E. exists (map Str.lower_str_char u). split; [reflexivity|].
  split; [apply length_map|].
  induction F as [|c u Hc F IH]; simpl; constructor.
  - apply (charset_char_lower c Hc).
  - apply IH. clear -F. induction F as [|c u Hc F IH]; simpl; [reflexivity|].
    destruct (charset_char_lower c Hc) as [-> _]. now rewrite IH.
Qed.

End SniffFacts.

(** X20: the charset that [_sniff_charset] returns is never empty, is made of
    lower-case letters, digits, underscores and hyphens only, and is never
    one of the aliases gbk, cp936 and utf8, which are replaced by gb18030
    and utf-8. *)
Theorem sniff_charset_is_normalised :
  forall (raw_head enc : string),
    _sniff_charset raw_head = Some enc ->
    Str.truthy enc = true /\
    forallb is_charset_lower (Str.chars enc) = true /\
    String.eqb enc "gbk" = false /\ String.eqb enc "cp936" = false /\
    String.eqb enc "utf8" = false.
Proof.
  intros raw enc. unfold _sniff_charset.
  destruct (meta_charset_search raw) as [m|] eqn:Em; [|discriminate].
  apply SniffFacts.meta_charset_search_sound in Em.
  destruct Em as (i & pre & u & post & Hi & Hw & Hs & Hg & Hne & F).
  rewrite (SniffFacts.first_group_name m _ i pre u post Hi Hw Hs Hg Hne).
  destruct (SniffFacts.lower_decode_name u F) as (v & -> & Hlen & Fv).
  assert (Hv : v <> []) by (intros ->; destruct u; [congruence|discriminate]).
  destruct (String.eqb (Str.of_chars v) "gbk") eqn:E1;
    [intros [= <-]; vm_compute; auto|].
  destruct (String.eqb (Str.of_chars v) "cp936") eqn:E2;
    [intros [= <-]; vm_compute; auto|].
  destruct (String.eqb (Str.of_chars v) "utf8") eqn:E3;
    [intros [= <-]; vm_compute; auto|].
  simpl. intros [= <-]. rewrite chars_of_chars.
  split; [destruct v; [congruence|reflexivity]|].
  split; [|auto]. apply forallb_forall. rewrite List.Forall_forall in Fv. exact Fv.
Qed.

Lemma sniff_charset_is_normalised_witness :
  Str.truthy "gb18030" = true /\
  forallb is_charset_lower (Str.chars "gb18030") = true /\
  String.eqb "gb18030" "gbk" = false /\ String.eqb "gb18030" "cp936" = false /\
  String.eqb "gb18030" "utf8" = false.
Proof.
  apply (sniff_charset_is_normalised "<html><head><META charset='GBK'></head>").
  vm_compute. reflexivity.
Defined.

(** X21: the encoding chosen for a response is never empty; for a JSON
    content type it does not depend on the body; otherwise a charset
    declared in the first 32768 bytes wins over the header and over the
    detected encoding. *)
Theorem response_encoding_choice :
  forall (ct : string) (encoding apparent : option string) (content : string),
    Str.truthy (response_encoding ct encoding apparent content) = true /\
    (Str.contains "application/json" ct = true ->
     forall content' apparent',
       response_encoding ct encoding apparent' content'
       = response_encoding ct encoding apparent content) /\
    (Str.contains "application/json" ct = false ->
     forall enc,
       _sniff_charset (Str.of_chars (firstn (2 ^ 15) (Str.chars content))) = Some enc ->
       forall encoding' apparent',
         response_encoding ct encoding' apparent' content = enc).
Proof.
  intros ct encoding apparent content. unfold response_encoding.
  set (hb := Str.of_chars (firstn (2 ^ 15) (Str.chars content))). clearbody hb.
  split; [|split].
  - destruct (Str.contains "application/json" ct).
    { destruct encoding as [[|c s]|]; reflexivity. }
    cbv zeta.
    destruct (_sniff_charset hb) as [enc|] eqn:Es.
    { apply sniff_charset_is_normalised in Es. destruct Es as [Ht _].
      cbn [truthy_text default id]. rewrite Ht. exact Ht. }
    cbn [truthy_text].
    match goal with |- context [Str.startswith "utf-8" (Str.lower ?e)] => set (enc := e) end.
    assert (He : Str.truthy enc = true).
    { unfold enc. destruct encoding as [[|c s]|]; cbn [truthy_text Str.truthy negb orb].
      - destruct apparent as [[|c s]|]; reflexivity.
      - destruct (_ || _); [destruct apparent as [[|c' s']|]; reflexivity|reflexivity].
      - destruct apparent as [[|c s]|]; reflexivity. }
    destruct (Str.startswith "utf-8" (Str.lower enc)); [|exact He].
    destruct (Str.contains "charset=gb" _ || _); [reflexivity|exact He].
  - intros -> content' apparent'. reflexivity.
  - intros -> enc Hs encoding' apparent'. cbv zeta. rewrite Hs.
    apply sniff_charset_is_normalised in Hs. destruct Hs as [Ht _].
    cbn [truthy_text default id]. rewrite Ht. reflexivity.
Qed.

Lemma response_encoding_choice_witness :
  response_encoding "text/html" (Some "ISO-8859-1"%string) (Some "Windows-1252"%string)
    "<html><head><meta charset=utf8></head>" = "utf-8"%string.
Proof.
  apply (proj2 (proj2 (response_encoding_choice "text/html" None None
                         "<html><head><meta charset=utf8></head>"))); reflexivity.
Defined.

(** *** Exceptions of the offer evaluator *)

Module OfferFacts.
Import ReSem ReFacts PatternFacts SniffFacts Decimal.

(** A sequence of patterns without groups, then a group without inner
    groups, then more patterns. *)
Lemma sem_seqs_group pre i r post : forallb no_groups pre = true ->
  no_groups r = true ->
  forall base w cs,
    sem (Re.seqs (pre ++ Re.Grp i r :: post)) base w cs ->
    exists u1 u u2 c2,
      w = u1 ++ u ++ u2 /\
      cs = c2 ++ [(i, ((base + List.length u1)%nat,
                       (base + List.length u1 + List.length u)%nat))] /\
      sem r (base + List.length u1) u [] /\
      sem (Re.seqs post) (base + List.length u1 + List.length u) u2 c2.
Proof.
  intros Hpre Hr. induction pre as [|r0 pre IH]; intros base w cs H.
  - simpl app in H. apply sem_seqs_cons in H.
    destruct H as (w1 & w2 & c1 & c2 & -> & -> & (c' & -> & S1) & S2).
    pose proof (sem_no_groups _ Hr _ _ _ S1) as ->.
    exists [], w1, w2, c2. simpl. rewrite Nat.add_0_r. auto.
  - simpl in Hpre. apply andb_prop in Hpre. destruct Hpre as [H1 H2].
    change ((r0 :: pre) ++ Re.Grp i r :: post)
      with (r0 :: (pre ++ Re.Grp i r :: post)) in H.
    apply sem_seqs_cons in H.
    destruct H as (w1 & w2 & c1 & c2 & -> & -> & S1 & S2).
    apply (sem_no_groups _ H1) in S1. subst c1.
    apply (IH H2) in S2. destruct S2 as (u1 & u & u2 & c3 & -> & -> & Su & Sp).
    exists (w1 ++ u1), u, u2, c3. rewrite <- !app_assoc, app_nil_r, !length_app.
    rewrite !Nat.add_assoc. auto.
Qed.

Lemma no_groups_word s : forallb no_groups (map Re.lit (Str.chars s)) = true.
Proof. induction (Str.chars s); simpl; auto. Qed.

Lemma sem_word s base w cs : sem (Re.word s) base w cs -> cs = [].
Proof. apply sem_seqs_no_groups, no_groups_word. Qed.

(** What [buy_re] captures: the quantity, a run of digits, and the total,
    digits with an optional fraction. *)
Lemma sem_buy_re base w cs :
  sem buy_re base w cs ->
  exists u1 q u2 d pt f u3,
    w = u1 ++ q ++ u2 ++ (d ++ pt ++ f) ++ u3 /\
    cs = [(2%nat, ((base + List.length (u1 ++ q ++ u2))%nat,
                   (base + List.length (u1 ++ q ++ u2) + List.length (d ++ pt ++ f))%nat));
          (1%nat, ((base + List.length u1)%nat,
                   (base + List.length u1 + List.length q)%nat))] /\
    q <> [] /\ Forall (fun c => Str.is_digit c = true) q /\
    d <> [] /\ Forall (fun c => Str.is_digit c = true) d /\
    is_point_or_nil pt /\ Forall (fun c => Str.is_digit c = true) f.
Proof.
  unfold buy_re. intros H.
  apply (sem_seqs_group [Re.WordB; Re.word "BUY"; Re.plus Re.space] 1 (Re.plus Re.digit))
    in H; [|reflexivity..].
  destruct H as (u1 & q & w' & c' & -> & -> & Sq & H).
  apply sem_rep_chr in Sq. destruct Sq as (Fq & _ & Hq & _).
  apply (sem_seqs_group [Re.plus Re.space; Re.word "FOR"; Re.star Re.space;
                         Re.opt (Re.lit "$"); Re.star Re.space] 2) in H; [|reflexivity..].
  destruct H as (u2 & v & u3 & c3 & -> & -> & Sv & H).
  assert (c3 = []) as ->.
  { simpl in H. tauto. }
  destruct Sv as (d & fr & c1 & c2 & -> & Hc & Sd & Sf).
  apply sem_rep_chr in Sd. destruct Sd as (Fd & -> & Hd & _).
  apply (NumFacts.sem_opt_nocap
           (fun w => exists f, w = "."%char :: f /\ Forall (fun c => Str.is_digit c = true) f))
    in Sf.
  2:{ intros b w0 c (w1 & w2 & e1 & e2 & -> & -> & S1 & S2).
      apply sem_lit in S1. destruct S1 as [-> ->].
      apply sem_rep_chr in S2. destruct S2 as (F & -> & _).
      split; [|reflexivity]. exists w2. auto. }
  destruct Sf as [Hfr _].
  assert (Hs : exists pt f, fr = pt ++ f /\ is_point_or_nil pt /\
                            Forall (fun c => Str.is_digit c = true) f).
  { destruct Hfr as [->|(f & -> & Ff)].
    - exists [], []. repeat split; [now left|constructor].
    - exists ["."%char], f. repeat split; [now right|exact Ff]. }
  destruct Hs as (pt & f & -> & Hpt & Ff).
  exists u1, q, u2, d, pt, f, u3.
  split; [reflexivity|].
  split.
  { simpl. rewrite !length_app, !Nat.add_assoc. reflexivity. }
  repeat split; auto.
  - intros ->. simpl in Hq. lia.
  - intros ->. simpl in Hd. lia.
Qed.

Lemma search_buy_re text m :
  Re.search buy_re text = Some m ->
  exists q d pt f,
    Re.group m 1 = Some (Str.of_chars q) /\
    Re.group m 2 = Some (Str.of_chars (d ++ pt ++ f)) /\
    q <> [] /\ Forall (fun c => Str.is_digit c = true) q /\
    d <> [] /\ Forall (fun c => Str.is_digit c = true) d /\
    is_point_or_nil pt /\ Forall (fun c => Str.is_digit c = true) f.
Proof.
  intros H. apply search_sound in H. destruct H as (pre & w & post & Hw & Hm & Hsem).
  apply sem_buy_re in Hsem.
  destruct Hsem as (u1 & q & u2 & d & pt & f & u3 & -> & Hc & Hq & Fq & Hd & Fd & Hpt & Ff).
  exists q, d, pt, f. rewrite Hm, Hc.
  split; [|split; [|auto 10]].
  - simpl. f_equal.
    apply (slice_at _ (pre ++ u1) q (u2 ++ (d ++ pt ++ f) ++ u3 ++ post)).
    + rewrite Hw, <- !app_assoc. reflexivity.
    + rewrite ?length_app. lia.
    + rewrite ?length_app. lia.
  - simpl. f_equal.
    apply (slice_at _ (pre ++ u1 ++ q ++ u2) (d ++ pt ++ f) (u3 ++ post)).
    + rewrite Hw, <- !app_assoc. reflexivity.
    + rewrite ?length_app. lia.
    + rewrite ?length_app. lia.
Qed.

Lemma int_of_digits_spec q :
  q <> [] -> Forall (fun c => Str.is_digit c = true) q ->
  Str.int_of_digits (Str.of_chars q) =
  if (List.length q <=? 4300)%nat then Ret (Str.digits_value q) else Raise ValueError.
Proof.
  intros Hne F. unfold Str.int_of_digits. rewrite chars_of_chars.
  assert (forallb Str.is_digit q = true) as -> by (apply forallb_forall, List.Forall_forall, F).
  destruct q; [congruence|]. simpl negb. simpl andb. reflexivity.
Qed.

End OfferFacts.

(** X6: [apply_offer_discount] raises in three situations only: [TypeError]
    for a gift-card offer on a product without a plain price; [ValueError]
    for a BUY offer whose quantity has more than 4300 digits; and
    [OverflowError] for a BUY offer whose quantity is beyond the floats. *)
Theorem apply_offer_discount_exceptions :
  forall (price_plain price_now : option float) (offer_text : string) (e : pyexn),
    apply_offer_discount price_plain price_now offer_text = Raise e ->
    (e = TypeError /\ price_plain = None /\ Str.contains "GIFT CARD" offer_text = true) \/
    (Str.startswith "BUY" offer_text = true /\
     exists q, buy_quantity offer_text q /\
       ((e = ValueError /\ (4300 < String.length q)%nat) \/
        (e = OverflowError /\
         is_infinity (Py.float_of_ratio (Str.digits_value (Str.chars q)) 1) = true))).
Proof.
  intros pp pn text e. unfold apply_offer_discount.
  destruct (negb (Str.truthy text)); [discriminate|].
  destruct (get_num_never_raises (Some text)) as [[discount|] ->]; cbv [mbind exc_bind];
    [|discriminate].
  destruct (Py.truthy_float discount); [|discriminate]. simpl negb. cbv iota.
  destruct (Str.startswith "EXTRA" text && Str.contains "%" text).
  { destruct (Py.if_true pn), (Py.if_true pp); discriminate. }
  destruct (Str.startswith "SAVE" text && Str.contains "%" text).
  { destruct (Py.if_true pp); discriminate. }
  destruct (Str.startswith "SAVE" text && Str.contains "$" text).
  { destruct (Py.if_true pp); discriminate. }
  destruct (Str.startswith "BUY" text) eqn:Eb.
  - destruct (Re.search buy_re text) as [m|] eqn:Es; [|discriminate].
    destruct (OfferFacts.search_buy_re _ _ Es)
      as (q & d & pt & f & G1 & G2 & Hq & Fq & Hd & Fd & Hpt & Ff).
    rewrite G1, G2. unfold text_or_empty. cbn [default id].
    rewrite (OfferFacts.int_of_digits_spec q Hq Fq).
    rewrite (Decimal.float_of_decimal_unsigned_eq d pt f Fd Hpt Ff).
    intros H. right. split; [reflexivity|]. exists (Str.of_chars q).
    split; [exists m; auto|].
    assert (Hlen : String.length (Str.of_chars q) = List.length q).
    { clear. induction q; simpl; auto. }
    rewrite Hlen, chars_of_chars.
    destruct (Nat.leb_spec (List.length q) 4300) as [Hl|Hl].
    2:{ left. split; [congruence|lia]. }
    revert H. destruct (d ++ f) eqn:Edf; [destruct d; [congruence|discriminate]|].
    cbv zeta. cbn [exc_bind].
    destruct (Str.digits_value q >? 0); [|discriminate].
    unfold Py.float_of_int.
    destruct (is_infinity _) eqn:Ei; [|discriminate].
    intros [= <-]. right. auto.
  - destruct (Str.contains "GIFT CARD" text) eqn:Eg; [|discriminate].
    destruct pp as [pp|].
    + destruct (Py.ge pp 600); [discriminate|].
      destruct (Py.ge pp 300); [discriminate|].
      destruct (Py.ge pp 150); discriminate.
    + intros [= <-]. left. auto.
Qed.

Lemma apply_offer_discount_exceptions_witness :
  (TypeError = TypeError /\ @None float = None /\
   Str.contains "GIFT CARD" "$50 GIFT CARD" = true) \/
  (Str.startswith "BUY" "$50 GIFT CARD" = true /\
   exists q, buy_quantity "$50 GIFT CARD" q /\
     ((TypeError = ValueError /\ (4300 < String.length q)%nat) \/
      (TypeError = OverflowError /\
       is_infinity (Py.float_of_ratio (Str.digits_value (Str.chars q)) 1) = true))).
Proof.
  apply (apply_offer_discount_exceptions None (Some 100%float) "$50 GIFT CARD" TypeError).
  vm_compute. reflexivity.
Defined.

(** *** Exceptions of the comparison loop *)

Module ExceptionFacts.

Lemma reconcile_both_or_none w price was pid price' was' warn :
  (price = None /\ was = None) \/
  (exists p x, price = Some p /\ was = Some x /\
               (0 <=? p)%float = true /\ (p <=? x)%float = true) ->
  reconcile w price was pid = (price', was', warn) ->
  both_or_none price' was'.
Proof.
  intros [[-> ->]|(p & x & -> & -> & H0 & Hpx)] H.
  - revert H. unfold reconcile, reconcile_body.
    destruct (post_special_offers w pid) as [offers|e]; step;
      [|intros [= <- <- _]; now left].
    destruct (find_offer_text pid offers) as [text|]; [|intros [= <- <- _]; now left].
    destruct (Str.truthy text); [|intros [= <- <- _]; now left].
    destruct (apply_offer_discount _ _ text) as [[o|]|e];
      [|intros [= <- <- _]; now left..].
    simpl Py.truthy. destruct (Py.truthy_float o); intros [= <- <- _]; [|now left].
    right. simpl. eauto.
  - destruct (reconcile_bounds w p x pid price' was' warn H0 Hpx H)
      as (p' & x' & -> & -> & _).
    right. eauto.
Qed.

Lemma gate_total sim_thresh title price was link i :
  both_or_none price was ->
  exists r, gate sim_thresh title price was link i = Ret r.
Proof.
  intros [[-> ->]|(p & x & -> & ->)]; unfold gate.
  - simpl. eauto.
  - destruct (was_equal (Some x) (r_was i) && _); eauto.
Qed.

Section Loop.
Variable urljoin : string -> string -> exc string.
Variable quote : string -> string.
Variable w : web.

(** After an iteration that did not raise, [soup] is assigned. *)
Lemma compare_one_soup sim_thresh total st idx i st' :
  compare_one urljoin quote w sim_thresh total st idx i = Ret st' -> soup st' <> None.
Proof.
  unfold compare_one. cbv zeta. cbn [soup matches printed].
  set (st1 := match get_search w _ with Ret s => _ | Raise _ => _ end). clearbody st1.
  destruct (soup st1) as [[[|it items]|]|] eqn:Es; step; try discriminate.
  - intros [= <-]. congruence.
  - destruct (get_product_info urljoin it) as [[[[[title price] was] link] pid]|];
      [|discriminate].
    destruct (reconcile w price was pid) as [[price' was'] warn].
    destruct (gate sim_thresh title price' was' link i) as [[new notes]|]; [|discriminate].
    intros [= <-]. cbn [soup]. congruence.
Qed.

Lemma compare_one_raises sim_thresh total st idx i e :
  soup_fetched w st ->
  compare_one urljoin quote w sim_thresh total st idx i = Raise e ->
  (e = UnboundLocalError /\ soup st = None /\
   exists e', get_search w ("https://www.davidjones.com/search?q=" +:+ quote (r_title i))
              = Raise e') \/
  (e = AttributeError /\ exists url, get_search w url = Ret NotDocument) \/
  (exists url it items,
     get_search w url = Ret (Document (it :: items)) /\
     get_product_info urljoin it = Raise e).
Proof.
  intros Hsoup. unfold compare_one. cbv zeta. cbn [soup matches printed].
  destruct (get_search w _) as [s|e'] eqn:Es; cbn [soup]; step.
  - destruct s as [[|it items]|]; [discriminate| |].
    + destruct (get_product_info urljoin it) as [[[[[title price] was] link] pid]|e1] eqn:Ei.
      * destruct (reconcile w price was pid) as [[price' was'] warn] eqn:Er.
        destruct (gate_total sim_thresh title price' was' link i) as [[new notes] ->];
          [|discriminate].
        eapply reconcile_both_or_none; [|exact Er].
        eapply product_prices. exact Ei.
      * intros [= <-]. right. right. eauto.
    + intros [= <-]. right. left. eauto.
  - destruct (soup st) as [[[|it items]|]|] eqn:Est.
    + discriminate.
    + destruct (Hsoup _ Est) as [url Hurl].
      destruct (get_product_info urljoin it) as [[[[[title price] was] link] pid]|e1] eqn:Ei.
      * destruct (reconcile w price was pid) as [[price' was'] warn] eqn:Er.
        destruct (gate_total sim_thresh title price' was' link i) as [[new notes] ->];
          [|discriminate].
        eapply reconcile_both_or_none; [|exact Er].
        eapply product_prices. exact Ei.
      * intros [= <-]. right. right. eauto.
    + destruct (Hsoup _ Est) as [url Hurl]. intros [= <-]. right. left. eauto.
    + intros [= <-]. left. eauto.
Qed.

Lemma compare_loop_raises sim_thresh total pm : forall st idx e,
  soup_fetched w st ->
  compare_loop urljoin quote w sim_thresh total st idx pm = Raise e ->
  (e = UnboundLocalError /\ soup st = None /\
   exists i rest e', pm = i :: rest /\
     get_search w ("https://www.davidjones.com/search?q=" +:+ quote (r_title i))
     = Raise e') \/
  (e = AttributeError /\ exists url, get_search w url = Ret NotDocument) \/
  (exists url it items,
     get_search w url = Ret (Document (it :: items)) /\
     get_product_info urljoin it = Raise e).
Proof.
  induction pm as [|i pm IH]; intros st idx e Hsoup; simpl; [discriminate|].
  destruct (compare_one urljoin quote w sim_thresh total st idx i) as [st1|e1] eqn:E1; step.
  - intros H.
    destruct (MatchFacts.compare_one_matches _ _ _ _ _ _ _ _ _ Hsoup E1) as [Hs1 _].
    destruct (IH _ _ _ Hs1 H) as [(_ & Hnone & _)|H']; [|right; exact H'].
    destruct (compare_one_soup _ _ _ _ _ _ E1 Hnone).
  - intros [= <-]. apply compare_one_raises in E1; [|exact Hsoup].
    destruct E1 as [(-> & Hnone & e' & Hg)|H']; [left|right; exact H'].
    split; [reflexivity|]. split; [exact Hnone|]. exists i, pm, e'. auto.
Qed.

End Loop.
End ExceptionFacts.

(** X14: [compare_search] raises in three situations only:
    [UnboundLocalError] when the search request of the first candidate
    failed, [AttributeError] when a search returned something that is not a
    document, and the exception that [get_product_info] raises on the first
    entry of a search page.  The offers block and the acceptance gate never
    make it raise; in particular the subtraction of the gate never meets a
    missing price. *)
Theorem compare_search_exceptions :
  forall (urljoin : string -> string -> exc string) (quote : string -> string) (w : web)
         (pm : list row) (sim_thresh : float) (e : pyexn),
    compare_search urljoin quote w pm sim_thresh = Raise e ->
    (e = UnboundLocalError /\
     exists i rest e', pm = i :: rest /\
       get_search w ("https://www.davidjones.com/search?q=" +:+ quote (r_title i))
       = Raise e') \/
    (e = AttributeError /\ exists url, get_search w url = Ret NotDocument) \/
    (exists url it items,
       get_search w url = Ret (Document (it :: items)) /\
       get_product_info urljoin it = Raise e).
Proof.
  intros urljoin quote w pm sim_thresh e. unfold compare_search.
  destruct (compare_loop urljoin quote w sim_thresh _ _ _ pm) as [st|e1] eqn:E; step;
    [discriminate|].
  intros [= <-].
  assert (H0 : soup_fetched w (mkLoop None [] [])) by (intros s [=]).
  destruct (ExceptionFacts.compare_loop_raises urljoin quote w sim_thresh _ pm _ _ _ H0 E)
    as [(He & _ & Hr)|H]; auto.
Qed.

Lemma compare_search_exceptions_witness :
  (AttributeError = UnboundLocalError /\
   exists i rest e', [Sample.candidate1] = i :: rest /\
     get_search Sample.web_without_id
       ("https://www.davidjones.com/search?q=" +:+ Sample.quote (r_title i)) = Raise e') \/
  (AttributeError = AttributeError /\
   exists url, get_search Sample.web_without_id url = Ret NotDocument) \/
  (exists url it items,
     get_search Sample.web_without_id url = Ret (Document (it :: items)) /\
     get_product_info Sample.urljoin it = Raise AttributeError).
Proof.
  apply (compare_search_exceptions Sample.urljoin Sample.quote Sample.web_without_id
           [Sample.candidate1] default_sim_thresh AttributeError).
  vm_compute. reflexivity.
Defined.

(** *** The command line *)

Module MainFacts.

Lemma literal_digits_sound l : forall prev ds,
  literal_digits l prev = Some ds ->
  Forall (fun c => Str.is_digit c = true \/ c = "_"%char) l /\
  Forall (fun c => Str.is_digit c = true) ds.
Proof.
  induction l as [|c l IH]; intros prev ds; simpl.
  - destruct prev; [|discriminate]. intros [= <-]. split; constructor.
  - destruct (Str.is_digit c) eqn:Ec.
    + destruct (literal_digits l true) as [ds'|] eqn:E; [|discriminate].
      intros [= <-]. destruct (IH _ _ E) as [F1 F2].
      split; constructor; auto.
    + destruct (Ascii.eqb_spec c "_"); [|discriminate]. subst c.
      destruct prev; [|discriminate]. intros H. destruct (IH _ _ H) as [F1 F2].
      split; [constructor; auto|exact F2].
Qed.

Lemma sign_cases (c : ascii) (r : list ascii) :
  let x := match c :: r with
           | "-"%char :: r' => (true, r')
           | "+"%char :: r' => (false, r')
           | _ => (false, c :: r)
           end in
  (x.2 = r /\ (c = "-"%char \/ c = "+"%char)) \/ x.2 = c :: r.
Proof. destruct c as [[] [] [] [] [] [] [] []]; simpl; auto. Qed.

(** [int] only reads text made of blanks, a sign, digits and underscores. *)
Lemma int_of_text_chars s z :
  int_of_text s = Ret z ->
  Forall (fun c => Str.is_digit c = true \/ c = "_"%char \/ c = "-"%char \/
                   c = "+"%char \/ is_int_blank c = true) (Str.chars s).
Proof.
  unfold int_of_text.
  set (l := rev (lstrip_blanks (rev (lstrip_blanks (Str.chars s))))).
  assert (Hl : Forall (fun c => Str.is_digit c = true \/ c = "_"%char \/ c = "-"%char \/
                               c = "+"%char \/ is_int_blank c = true) l ->
               Forall (fun c => Str.is_digit c = true \/ c = "_"%char \/ c = "-"%char \/
                               c = "+"%char \/ is_int_blank c = true) (Str.chars s)).
  { unfold l. clear.
    set (P := fun c => Str.is_digit c = true \/ c = "_"%char \/ c = "-"%char \/
                       c = "+"%char \/ is_int_blank c = true).
    assert (HP : forall c, is_int_blank c = true -> P c) by (intros c Hc; unfold P; do 4 right; exact Hc).
    assert (Hstrip : forall l, Forall P (lstrip_blanks l) -> Forall P l).
    { induction l as [|c l IH]; simpl; [auto|].
      destruct (is_int_blank c) eqn:Ec; [|auto].
      intros H. constructor; auto. }
    intros H. apply Hstrip. apply Forall_rev in H. rewrite rev_involutive in H.
    apply Hstrip in H. apply Forall_rev in H. now rewrite rev_involutive in H. }
  clearbody l. intros H. apply Hl. clear Hl.
  assert (Hd : forall l1, (exists ds, literal_digits l1 false = Some ds) ->
             Forall (fun c => Str.is_digit c = true \/ c = "_"%char \/ c = "-"%char \/
                              c = "+"%char \/ is_int_blank c = true) l1).
  { intros l1 [ds Hds]. apply literal_digits_sound in Hds. destruct Hds as [F _].
    eapply List.Forall_impl; [|exact F]. intros a [Ha|Ha]; auto. }
  destruct l as [|c r]; [constructor|].
  pose proof (sign_cases c r) as E.
  destruct (match c :: r with
            | "-"%char :: r' => (true, r')
            | "+"%char :: r' => (false, r')
            | _ => (false, c :: r)
            end) as [neg l1].
  simpl in E.
  destruct (literal_digits l1 false) as [ds|] eqn:Ed; [|discriminate].
  assert (F1 := Hd l1 (ex_intro _ ds Ed)).
  destruct E as [[E1 Hs]|E1]; subst l1; [|exact F1].
  constructor; [tauto|exact F1].
Qed.

End MainFacts.

(** X22: [main] reads its arguments before it requests anything: a threshold
    of ASCII text that holds a character other than a digit, a sign, an
    underscore or one of the six ASCII blanks (99.5, say) makes it raise
    [ValueError] whatever the network would answer; and without arguments
    it runs as with [womens-sale] and 200. *)
Theorem main_reads_arguments_first :
  forall (urljoin : string -> string -> exc string) (quote : string -> string)
         (set_page_param : string -> nat -> string) (w : web) (fuel : nat)
         (script : string),
    (forall searchby t rest c,
       Str.is_ascii t = true ->
       In c (Str.chars t) ->
       Str.is_digit c = false -> is_space_bytes c = false ->
       c <> "_"%char -> c <> "-"%char -> c <> "+"%char ->
       main urljoin quote set_page_param w fuel (script :: searchby :: t :: rest)
       = Some (Raise ValueError)) /\
    main urljoin quote set_page_param w fuel [script]
    = main urljoin quote set_page_param w fuel [script; "womens-sale"; "200"]%string /\
    main urljoin quote set_page_param w fuel [script; "womens-sale"; "99.5"]%string
    = Some (Raise ValueError).
Proof.
  intros urljoin quote set_page_param w fuel script. split; [|split].
  - intros searchby t rest c Ha Hin Hd Hs H1 H2 H3. unfold main. cbn [threshold_of].
    assert (Hb : is_int_blank c = false).
    { unfold Str.is_ascii in Ha. rewrite forallb_forall in Ha.
      specialize (Ha c Hin). unfold is_int_blank. rewrite Hs. simpl.
      apply Nat.ltb_lt in Ha.
      rewrite (proj2 (Nat.eqb_neq _ _)), (proj2 (Nat.eqb_neq _ _)) by lia. reflexivity. }
    destruct (int_of_text t) as [z|e] eqn:E.
    + apply MainFacts.int_of_text_chars in E. rewrite List.Forall_forall in E.
      destruct (E c Hin) as [H|[H|[H|[H|H]]]]; congruence.
    + f_equal. f_equal. revert E. unfold int_of_text.
      destruct (match rev _ with
                | "-"%char :: r => (true, r)
                | "+"%char :: r => (false, r)
                | _ => _
                end) as [neg l1].
      destruct (literal_digits l1 false) as [ds|]; [|congruence].
      destruct (_ <=? 4300)%nat; congruence.
  - reflexivity.
  - reflexivity.
Qed.

Lemma main_reads_arguments_first_witness :
  main Sample.urljoin Sample.quote Sample.set_page_param Sample.web_listing 3
    ["compare.py"; "womens-sale"; "2e2"]%string = Some (Raise ValueError).
Proof.
  apply (proj1 (main_reads_arguments_first Sample.urljoin Sample.quote
                  Sample.set_page_param Sample.web_listing 3 "compare.py")
           "womens-sale"%string "2e2"%string [] "e"%char);
    [reflexivity|simpl; auto|reflexivity|reflexivity|discriminate..].
Defined.

(** X23: end to end, every row of the comparison table that [main] builds
    refers to a row of the listing table whose discount is at least the
    threshold of the command line, and reports a David Jones price more
    than 100 above the Iconic price of that row, the difference being the
    row's [price_diff]; the two tables are sorted, largest difference
    first. *)
Theorem main_tables :
  forall (urljoin : string -> string -> exc string) (quote : string -> string)
         (set_page_param : string -> nat -> string) (w : web) (fuel : nat)
         (argv : list string) (threshold : Z)
         (ic : list row) (out : list comparison_record) (printed : list event),
    threshold_of argv = Ret threshold ->
    main urljoin quote set_page_param w fuel argv = Some (Ret (ic, out, printed)) ->
    StronglySorted (desc r_diff) ic /\
    StronglySorted (desc price_diff) out /\
    forall c, In c out ->
      exists r, In r ic /\
        title_pm c = r_title r /\ price_pm c = r_price r /\ link_pm c = r_link r /\
        price_diff c = (price_dj c - r_price r)%float /\
        Py.gt (price_dj c - r_price r)%float 100 = true /\
        r_diff r = (r_was r - r_price r)%float /\
        Py.ge (r_diff r) (Py.float_of_ratio threshold 1) = true.
Proof.
  intros urljoin quote set_page_param w fuel argv threshold ic out printed Ht.
  unfold main. rewrite Ht.
  destruct (Z.abs threshold <=? 2 ^ 53); [|discriminate].
  destruct (scrape_iconic _ _ _ _ _ _) as [[ic'|]|] eqn:Es; try discriminate.
  destruct (compare_search _ _ _ ic' _) as [[out' printed']|] eqn:Ec; [|discriminate].
  step. intros [= <- <- <-].
  destruct (scrape_iconic_inv _ _ _ _ _ _ _ Es) as (rows0 & H0 & Eic).
  assert (Hrows : forall r, In r ic' ->
            scraped set_page_param w ("https://www.theiconic.com.au/" +:+ searchby_of argv)
              (Py.float_of_ratio threshold 1) r)
    by (apply (scrape_iconic_scraped _ _ _ _ _ _ _ Es)).
  destruct (compare_search_rows _ _ _ _ _ _ _ Ec) as (Hsorted & Hout).
  split; [|split].
  - rewrite Eic. apply SortFacts.sort_values_desc_sorted. apply List.Forall_forall.
    intros r Hr.
    assert (Hr' : In r ic') by (rewrite Eic; apply SortFacts.sort_values_desc_In, Hr).
    destruct (Hrows r Hr') as (p & items & a & _ & _ & _ & _ & _ & Hge).
    unfold Py.ge in Hge. apply FloatOrderFacts.leb_ordered in Hge. tauto.
  - exact Hsorted.
  - intros c Hc. destruct (Hout c Hc) as (Hd & Hgt & r & Hr & Ht' & Hp & Hl).
    exists r. split; [exact Hr|].
    destruct (Hrows r Hr) as (p & items & a & _ & _ & _ & _ & Hdiff & Hge).
    split; [exact Ht'|]. split; [exact Hp|]. split; [exact Hl|].
    split; [rewrite <- Hp; exact Hd|]. split; [rewrite <- Hp, <- Hd; exact Hgt|].
    split; [exact Hdiff|exact Hge].
Qed.

Lemma main_tables_witness :
  StronglySorted (desc r_diff)
    [mkRow "Zimmermann Dress Silk" 50 443 393 "https://www.theiconic.com.au/c";
     mkRow "Zimmermann Silk Dress" 100 443 343 "https://www.theiconic.com.au/a"] /\
  StronglySorted (desc price_diff)
    [mkComparison "Zimmermann Silk Dress" "Zimmermann Dress Silk" 170 220 50
       "https://www.davidjones.com/product/zimmermann-silk-dress-12345"
       "https://www.theiconic.com.au/c";
     mkComparison "Zimmermann Silk Dress" "Zimmermann Silk Dress" 120 220 100
       "https://www.davidjones.com/product/zimmermann-silk-dress-12345"
       "https://www.theiconic.com.au/a"] /\
  forall c,
    In c [mkComparison "Zimmermann Silk Dress" "Zimmermann Dress Silk" 170 220 50
       "https://www.davidjones.com/product/zimmermann-silk-dress-12345"
       "https://www.theiconic.com.au/c";
     mkComparison "Zimmermann Silk Dress" "Zimmermann Silk Dress" 120 220 100
       "https://www.davidjones.com/product/zimmermann-silk-dress-12345"
       "https://www.theiconic.com.au/a"] ->
    exists r,
      In r [mkRow "Zimmermann Dress Silk" 50 443 393 "https://www.theiconic.com.au/c";
     mkRow "Zimmermann Silk Dress" 100 443 343 "https://www.theiconic.com.au/a"] /\
      title_pm c = r_title r /\ price_pm c = r_price r /\ link_pm c = r_link r /\
      price_diff c = (price_dj c - r_price r)%float /\
      Py.gt (price_dj c - r_price r)%float 100 = true /\
      r_diff r = (r_was r - r_price r)%float /\
      Py.ge (r_diff r) (Py.float_of_ratio 200 1) = true.
Proof.
  apply (main_tables Sample.urljoin Sample.quote Sample.set_page_param
           Cases.web_three 3 ["compare.py"]%string 200 _ _
           [Progress 1 2; Notify 1 "Zimmermann Silk Dress"; Progress 2 2]);
    vm_compute; reflexivity.
Defined.


(** *** The default similarity threshold *)

Module ThresholdFacts.

(** Below ten parts, a proper fraction is below 0.9. *)
Lemma proper_fraction_below (i u : nat) :
  (i < u)%nat -> (u < 10)%nat ->
  Py.ge (Py.float_of_ratio (Z.of_nat i) (Pos.of_nat u)) default_sim_thresh = false.
Proof.
  intros Hi Hu.
  do 10 (destruct u as [|u]; [try lia;
    do 10 (destruct i as [|i]; [try lia; vm_compute; reflexivity|]); lia|]).
  lia.
Qed.

Lemma same_sets (a b : gset string) : size (a ∩ b) = size (a ∪ b) -> a = b.
Proof.
  intros H.
  assert (E : a ∩ b = a ∪ b).
  { apply set_subseteq_size_eq; [set_solver|lia]. }
  set_solver.
Qed.

End ThresholdFacts.

(** X24: with the default threshold 0.9, two titles that have fewer than ten
    distinct tokens between them pass the similarity test only if their
    token sets are equal (and not empty): one token more or less on either
    side is enough to reject the pair. *)
Theorem default_threshold_needs_same_tokens :
  forall a b : gset string,
    (size (a ∪ b) < 10)%nat ->
    (Py.ge (_jaccard a b) default_sim_thresh = true <-> a = b /\ a <> ∅).
Proof.
  intros a b Hu. split.
  - intros H. unfold _jaccard in H.
    destruct (decide (a = ∅)) as [->|Ha]; [discriminate H|].
    destruct (decide (b = ∅)) as [->|Hb].
    { rewrite bool_decide_eq_false_2, bool_decide_eq_true_2 in H by auto. discriminate H. }
    rewrite !bool_decide_eq_false_2 in H by auto. simpl orb in H. cbv iota in H.
    destruct (Nat.eqb_spec (size (a ∪ b)) 0) as [E0|_]; [discriminate H|].
    split; [|exact Ha].
    assert (Hle : (size (a ∩ b) <= size (a ∪ b))%nat) by (apply subseteq_size; set_solver).
    destruct (Nat.eq_dec (size (a ∩ b)) (size (a ∪ b))) as [E|Hne];
      [now apply ThresholdFacts.same_sets|].
    rewrite ThresholdFacts.proper_fraction_below in H by lia. discriminate H.
  - intros [<- Ha]. rewrite jaccard_nonempty by assumption.
    replace (a ∩ a) with a by set_solver. replace (a ∪ a) with a by set_solver.
    assert (Hs : size a <> 0%nat)
      by (intros H; apply size_empty_inv in H; apply Ha; set_solver).
    replace (Z.of_nat (size a)) with (Zpos (Pos.of_nat (size a))) by lia.
    rewrite TokenFacts.float_of_ratio_one. reflexivity.
Qed.

Lemma default_threshold_needs_same_tokens_witness :
  Py.ge (_jaccard (_tokens (Some "Zimmermann Silk Dress"%string))
           (_tokens (Some "Zimmermann Silk Dress Red"%string))) default_sim_thresh = true
  <-> _tokens (Some "Zimmermann Silk Dress"%string)
      = _tokens (Some "Zimmermann Silk Dress Red"%string) /\
      _tokens (Some "Zimmermann Silk Dress"%string) <> ∅.
Proof.
  apply (default_threshold_needs_same_tokens
           (_tokens (Some "Zimmermann Silk Dress"%string))
           (_tokens (Some "Zimmermann Silk Dress Red"%string))).
  vm_compute. lia.
Defined.

(** X25: for a product that is not on sale, that is when the accessibility
    text does not hold "it was" in any letter case (or is missing), the
    price and the original price that [get_product_info] returns are the
    same object: the amount after "Price", or [None]. *)
Theorem regular_price_is_both_prices :
  forall (urljoin : string -> string -> exc string) (it : item) (title : string)
         (price was : option float) (link : string) (pid : option string),
    get_product_info urljoin it = Ret (title, price, was, link, pid) ->
    match i_price_root it with
    | Some (Some text) => Str.contains "it was" (Str.lower text) = false
    | _ => True
    end ->
    price = was /\
    exists text_price,
      price = text_price /\
      match i_price_root it with
      | Some (Some text) => labelled_price "Price" text = Ret text_price
      | _ => text_price = None
      end.
Proof.
  intros urljoin it title price was link pid H Hsale.
  apply get_product_info_inv in H.
  destruct H as (u & m & t & plain & now & _ & _ & _ & _ & Hr & Hp & -> & -> & _).
  rewrite Hr in *. unfold parse_prices in Hp. destruct t as [text|].
  - rewrite Hsale in Hp. revert Hp. step.
    destruct (labelled_price "Price" text) as [p|] eqn:Ep; [|discriminate].
    intros [= <- <-]. destruct p as [p|]; simpl; split; eauto.
  - inversion Hp; subst. simpl. split; eauto.
Qed.

Lemma regular_price_is_both_prices_witness :
  Some 399%float = Some 399%float /\
  exists text_price,
    Some 399%float = text_price /\
    labelled_price "Price" "Price $399.00" = Ret text_price.
Proof.
  apply (regular_price_is_both_prices Sample.urljoin
           (mkItem (Some "Zimmermann") (Some "Silk Dress")
              (Some (Some "/product/zimmermann-silk-dress-12345"%string))
              (Some (Some "Price $399.00"%string)))
           "Zimmermann Silk Dress" _ _
           "https://www.davidjones.com/product/zimmermann-silk-dress-12345"
           (Some "12345"%string)).
  - vm_compute. reflexivity.
  - vm_compute. reflexivity.
Defined.
